(** * HR resource chatbot: the retrieval engine of [main.py]

    A shallow embedding of [HRChatbot] (record normalisation, index
    build, top-k search with the 0.3 threshold, response synthesis with
    the template fall-back) and the properties of its specification.

    Conventions of the model.
    - A Python [str] is a [string] whose characters are code points
      below 256.
    - An employee is a Python [dict]: a finite map from field names to
      values.  Dicts are heap objects, reached through references, so
      that [dict.copy()] and item assignment keep their aliasing.
    - A [float] is modelled by the rational number it denotes (NaN and
      the infinities are outside the model); comparing a binary float
      with the literal [0.3] agrees with comparing it with 3/10.
    - An exception is a value of [exn]; code that can raise returns a
      [result].
    - The embedder, the vector index and the generative model are
      collaborators: functions given to the engine.  [top_k] is a
      natural number and a search submits one query row. *)

From Stdlib Require Import ZArith QArith Lia Ascii String.
From Stdlib Require Import Sorting.Sorted Sorting.Permutation.
From stdpp Require Import gmap strings list fin_maps pretty.

Local Open Scope string_scope.
Local Open Scope list_scope.
Local Open Scope Z_scope.
Local Open Scope stdpp_scope.

(** ** Exceptions and results *)

(** The exceptions the modelled code can meet.  Every one of them is an
    instance of Python's [Exception], hence caught by [except Exception]. *)
Inductive exn : Type :=
  | KeyError (key : string)
  | IndexError
  | TypeError
  | FileNotFoundError
  | JSONDecodeError
  | CollaboratorError (what : string)
  | HTTPException (status_code : nat).

Inductive result (A : Type) : Type :=
  | Ok (a : A)
  | Raise (e : exn).
Arguments Ok {A} a.
Arguments Raise {A} e.

Definition rbind {A B} (m : result A) (f : A → result B) : result B :=
  match m with
  | Ok a => f a
  | Raise e => Raise e
  end.

Declare Scope result_scope.
Delimit Scope result_scope with result.
Notation "'let?' x ':=' m 'in' k" := (rbind m (λ x, k))
  (at level 10, x pattern, m at level 100, k at level 200) : result_scope.
Local Open Scope result_scope.

(** [[f(x) for x in l]] for a fallible [f], left to right. *)
Fixpoint rmap {A B} (f : A → result B) (l : list A) : result (list B) :=
  match l with
  | [] => Ok []
  | x :: l' =>
      let? y := f x in
      let? ys := rmap f l' in
      Ok (y :: ys)
  end.

(** ** Values and dictionaries *)

(** The JSON values an employee dictionary holds, and the float that a
    search adds. *)
Inductive value : Type :=
  | VInt (z : Z)
  | VStr (s : string)
  | VList (l : list string)
  | VFloat (q : Q).

Abbreviation dict := (gmap string value).

(** [d[key]] *)
Definition getitem (d : dict) (key : string) : result value :=
  match d !! key with
  | Some v => Ok v
  | None => Raise (KeyError key)
  end.

(** ** Python string operations *)

Definition nl : string := String (ascii_of_nat 10) EmptyString.
Definition dquote : string := String (ascii_of_nat 34) EmptyString.

(** [str.isspace] on one code point below 256. *)
Definition py_isspace (c : ascii) : bool :=
  let n := nat_of_ascii c in
  (((9 <=? n) && (n <=? 13)) || ((28 <=? n) && (n <=? 32))
   || (n =? 133) || (n =? 160))%nat.

Fixpoint lstrip (s : string) : string :=
  match s with
  | EmptyString => EmptyString
  | String c s' => if py_isspace c then lstrip s' else s
  end.

Fixpoint rstrip (s : string) : string :=
  match s with
  | EmptyString => EmptyString
  | String c s' =>
      match rstrip s' with
      | EmptyString => if py_isspace c then EmptyString else String c EmptyString
      | r => String c r
      end
  end.

(** [s.strip()] *)
Definition strip (s : string) : string := lstrip (rstrip s).

(** The characters of a string, as Python iterates over it. *)
Fixpoint chars (s : string) : list string :=
  match s with
  | EmptyString => []
  | String c s' => String c EmptyString :: chars s'
  end.

Fixpoint string_take (n : nat) (s : string) : string :=
  match n, s with
  | S n', String c s' => String c (string_take n' s')
  | _, _ => EmptyString
  end.

(** The items [sep.join(v)] iterates over: a list gives its elements, a
    string its characters, a number is not iterable. *)
Definition iter_strs (v : value) : result (list string) :=
  match v with
  | VList l => Ok l
  | VStr s => Ok (chars s)
  | VInt _ | VFloat _ => Raise TypeError
  end.

(** [sep.join(v)] *)
Definition join (sep : string) (v : value) : result string :=
  let? items := iter_strs v in Ok (String.concat sep items).

(** [v[:n]] *)
Definition slice_to (n : nat) (v : value) : result value :=
  match v with
  | VList l => Ok (VList (take n l))
  | VStr s => Ok (VStr (string_take n s))
  | VInt _ | VFloat _ => Raise TypeError
  end.

(** [s] occurs in [t] *)
Definition substring_of (s t : string) : Prop :=
  ∃ a b, t = a +:+ s +:+ b.

(** [l[i]] for a Python list and a possibly negative index. *)
Definition list_getitem {A} (l : list A) (i : Z) : result A :=
  let n := Z.of_nat (length l) in
  let j := if i <? 0 then i + n else i in
  if (0 <=? j) && (j <? n) then
    match l !! Z.to_nat j with
    | Some x => Ok x
    | None => Raise IndexError
    end
  else Raise IndexError.

(** ** The heap of dictionaries *)

Abbreviation loc := positive.
Abbreviation heap := (gmap positive (gmap string value)).

(** A computation that reads and extends the heap and may raise. *)
Definition M (A : Type) : Type := heap → result (A * heap).

Definition mret' {A} (a : A) : M A := λ h, Ok (a, h).

Definition mbind' {A B} (m : M A) (f : A → M B) : M B :=
  λ h, match m h with
       | Ok (a, h') => f a h'
       | Raise e => Raise e
       end.

Definition lift {A} (r : result A) : M A :=
  λ h, match r with
       | Ok a => Ok (a, h)
       | Raise e => Raise e
       end.

Notation "'let!' x ':=' m 'in' k" := (mbind' m (λ x, k))
  (at level 10, x pattern, m at level 100, k at level 200) : result_scope.

(** Reading the dictionary a reference points to. *)
Definition deref (l : loc) : M dict := λ h, Ok (h !!! l, h).

(** The reference of the next object: one past the greatest reference in
    use. *)
Definition fresh_loc (h : heap) : loc :=
  Pos.succ (map_fold (λ l _ m, Pos.max l m) 1%positive h).

(** A new dictionary object with the items of [d]: what [json.load]
    does for each object it parses and what [d.copy()] does. *)
Definition new_dict (d : dict) : M loc :=
  λ h, let l := fresh_loc h in Ok (l, <[l := d]> h).

(** [target[key] = v] *)
Definition setitem (target : loc) (key : string) (v : value) : M unit :=
  λ h, Ok (tt, <[target := <[key := v]> (h !!! target)]> h).

Fixpoint mmap {A B} (f : A → M B) (l : list A) : M (list B) :=
  match l with
  | [] => mret' []
  | x :: l' =>
      let! y := f x in
      let! ys := mmap f l' in
      mret' (y :: ys)
  end.

(** [[x for x in l if p(x)]] *)
Fixpoint mfilter {A} (p : A → M bool) (l : list A) : M (list A) :=
  match l with
  | [] => mret' []
  | x :: l' =>
      let! keep := p x in
      let! rest := mfilter p l' in
      mret' (if keep then x :: rest else rest)
  end.

(** [try: body except Exception: handler] *)
Definition try_except {A} (body : result A) (handler : exn → result A)
  : result A :=
  match body with
  | Ok a => Ok a
  | Raise e => handler e
  end.

(** ** Scores *)

Definition Qltb (x y : Q) : bool := negb (Qle_bool y x).

(** The literal [0.3] of the threshold filter. *)
Definition threshold : Q := 3 # 10.

(** [v > 0.3] *)
Definition gt_threshold (v : value) : result bool :=
  match v with
  | VFloat q => Ok (Qltb threshold q)
  | VInt z => Ok (Qltb threshold (inject_Z z))
  | VStr _ | VList _ => Raise TypeError
  end.

(** The content of [employees_data.json] as [load_employee_data] meets
    it: no file, a file that is not JSON, or a JSON object with or
    without the key [employees]. *)
Inductive json_file : Type :=
  | FileMissing
  | FileInvalid
  | FileObject (employees : option (list dict)).

(** Python truthiness of [os.getenv(...)]: set and not empty. *)
Definition truthy (v : option string) : bool :=
  match v with
  | Some (String _ _) => true
  | _ => false
  end.

(** ** Collaborators

    What the engine consumes and does not own.
    - [repr_list], [repr_float]: the text a format field produces for a
      list or a float ([str] of the value); it is immaterial to every
      property below.
    - [vec] is an embedding vector; [encode] is
      [SentenceTransformer.encode] on a batch of texts; [normalize_L2]
      is [faiss.normalize_L2] on one row.
    - [index_search xb q k] is [IndexFlatIP.search] of the index holding
      the rows [xb], for one query row: the pairs of score and label it
      reports.
    - [ChatCompletion_create] is [openai.ChatCompletion.create] for the
      user prompt: the contents of the choices of the response, or the
      exception it raised. *)
Class Collaborators : Type := {
  repr_list : list string → string;
  repr_float : Q → string;
  vec : Type;
  encode : list string → result (list vec);
  normalize_L2 : vec → vec;
  index_search : list vec → vec → nat → result (list (Q * Z));
  ChatCompletion_create : string → result (list string)
}.

Section Engine.

Context `{C : Collaborators}.

(** [f"{v}"] *)
Definition fmt (v : value) : string :=
  match v with
  | VStr s => s
  | VInt z => pretty z
  | VList l => repr_list l
  | VFloat q => repr_float q
  end.

(** ** RecordNormalizer: [create_employee_text] *)

Definition indent : string := "        ".

Definition create_employee_text (employee : dict) : result string :=
  let? skills := getitem employee "skills" in
  let? skills_text := join ", " skills in
  let? projects := getitem employee "projects" in
  let? projects_text := join ", " projects in
  let? certifications := getitem employee "certifications" in
  let? certs_text := join ", " certifications in
  let? name := getitem employee "name" in
  let? experience_years := getitem employee "experience_years" in
  let? department := getitem employee "department" in
  let? specialization := getitem employee "specialization" in
  let? availability := getitem employee "availability" in
  let text :=
    nl +:+ indent +:+ "Name: " +:+ fmt name
    +:+ nl +:+ indent +:+ "Skills: " +:+ skills_text
    +:+ nl +:+ indent +:+ "Experience: " +:+ fmt experience_years +:+ " years"
    +:+ nl +:+ indent +:+ "Projects: " +:+ projects_text
    +:+ nl +:+ indent +:+ "Department: " +:+ fmt department
    +:+ nl +:+ indent +:+ "Specialization: " +:+ fmt specialization
    +:+ nl +:+ indent +:+ "Certifications: " +:+ certs_text
    +:+ nl +:+ indent +:+ "Availability: " +:+ fmt availability
    +:+ nl +:+ indent in
  Ok (strip text).

(** ** The chatbot object *)

Record HRChatbot : Type := {
  employees_data : list loc;
  employee_embeddings : option (list vec);
  faiss_index : option (list vec);
  openai_client : bool
}.

Definition load_employee_data (file : json_file) : M (list loc) :=
  match file with
  | FileMissing => mret' []
  | FileInvalid => lift (Raise JSONDecodeError)
  | FileObject None => lift (Raise (KeyError "employees"))
  | FileObject (Some employees) => mmap new_dict employees
  end.

Definition setup_openai (api_key : option string) (self : HRChatbot)
  : HRChatbot :=
  if truthy api_key then
    {| employees_data := employees_data self;
       employee_embeddings := employee_embeddings self;
       faiss_index := faiss_index self;
       openai_client := true |}
  else self.

(** The array [embeddings] is normalised in place after it was stored in
    [employee_embeddings], so both the attribute and the index hold the
    normalised rows. *)
Definition setup_embeddings (self : HRChatbot) : M HRChatbot :=
  match employees_data self with
  | [] => mret' self
  | _ =>
      let! employee_texts :=
        mmap (λ emp, let! d := deref emp in lift (create_employee_text d))
             (employees_data self) in
      let! embeddings := lift (encode employee_texts) in
      let embeddings := map normalize_L2 embeddings in
      mret' {| employees_data := employees_data self;
               employee_embeddings := Some embeddings;
               faiss_index := Some embeddings;
               openai_client := openai_client self |}
  end.

Definition __init__ (api_key : option string) (file : json_file)
  : M HRChatbot :=
  let! data := load_employee_data file in
  let self := {| employees_data := data;
                 employee_embeddings := None;
                 faiss_index := None;
                 openai_client := false |} in
  let self := setup_openai api_key self in
  setup_embeddings self.

(** ** Retriever: [search_employees] *)

(** The loop over [zip(scores[0], indices[0])]. *)
Fixpoint prepare_results (data : list loc) (hits : list (Q * Z))
    (results : list loc) : M (list loc) :=
  match hits with
  | [] => mret' results
  | (score, idx) :: hits' =>
      if idx <? Z.of_nat (length data) then
        let! source := lift (list_getitem data idx) in
        let! d := deref source in
        let! employee := new_dict d in
        let! _ := setitem employee "similarity_score" (VFloat score) in
        prepare_results data hits' (results ++ [employee])
      else prepare_results data hits' results
  end.

(** [emp['similarity_score'] > 0.3] *)
Definition above_threshold (emp : loc) : M bool :=
  let! d := deref emp in
  lift (let? s := getitem d "similarity_score" in gt_threshold s).

(** The body of [search_employees] up to the threshold filter: the
    unfiltered [results]. *)
Definition search_unfiltered (self : HRChatbot) (xb : list vec)
    (query : string) (top_k : nat) : M (list loc) :=
  let! query_embedding := lift (encode [query]) in
  let query_embedding := map normalize_L2 query_embedding in
  let! q := lift (list_getitem query_embedding 0) in
  let! hits := lift (index_search xb q top_k) in
  prepare_results (employees_data self) hits [].

Definition search_employees (self : HRChatbot) (query : string)
    (top_k : nat) : M (list loc) :=
  match faiss_index self with
  | None => mret' []
  | Some xb =>
      let! results := search_unfiltered self xb query top_k in
      mfilter above_threshold results
  end.

(** ** ResponseSynthesizer *)

Definition no_match_message : string :=
  "I couldn't find any employees matching your criteria. Please try a different search query.".

(** The branch [len(employees) == 1] of the template. *)
Definition single_candidate_response (query : string) (emp : dict)
  : result string :=
  let? skills := getitem emp "skills" in
  let? top_skills := slice_to 5 skills in
  let? skills_text := join ", " top_skills in
  let? projects := getitem emp "projects" in
  let? projects_text := join ", " projects in
  let? name := getitem emp "name" in
  let? experience_years := getitem emp "experience_years" in
  let? department := getitem emp "department" in
  let? specialization := getitem emp "specialization" in
  let? availability := getitem emp "availability" in
  Ok ("Based on your query " +:+ dquote +:+ query +:+ dquote
      +:+ ", I found an excellent candidate:" +:+ nl +:+ nl
      +:+ "**" +:+ fmt name +:+ "** would be perfect for this role. They have "
      +:+ fmt experience_years
      +:+ " years of experience and their skills include "
      +:+ skills_text +:+ ". " +:+ nl +:+ nl
      +:+ "They have worked on projects like: " +:+ projects_text
      +:+ nl +:+ nl
      +:+ "Department: " +:+ fmt department +:+ nl
      +:+ "Specialization: " +:+ fmt specialization +:+ nl
      +:+ "Current availability: " +:+ fmt availability +:+ nl +:+ nl
      +:+ "Would you like more details about their background or see other candidates?").

(** One item of the numbered list, for position [i]. *)
Definition numbered_entry (i : nat) (emp : dict) : result string :=
  let? skills := getitem emp "skills" in
  let? top_skills := slice_to 3 skills in
  let? skills_text := join ", " top_skills in
  let? name := getitem emp "name" in
  let? experience_years := getitem emp "experience_years" in
  let? specialization := getitem emp "specialization" in
  let? availability := getitem emp "availability" in
  Ok ("**" +:+ pretty i +:+ ". " +:+ fmt name +:+ "** ("
      +:+ fmt experience_years +:+ " years experience)" +:+ nl
      +:+ "- Key skills: " +:+ skills_text +:+ nl
      +:+ "- Specialization: " +:+ fmt specialization +:+ nl
      +:+ "- Availability: " +:+ fmt availability +:+ nl +:+ nl).

(** [for i, emp in enumerate(emps, i): response += ...] *)
Fixpoint numbered_entries (i : nat) (emps : list dict) (response : string)
  : result string :=
  match emps with
  | [] => Ok response
  | emp :: emps' =>
      let? entry := numbered_entry i emp in
      numbered_entries (S i) emps' (response +:+ entry)
  end.

Definition more_candidates (n : nat) : string :=
  nl +:+ "I found " +:+ pretty (n - 3)%nat
  +:+ " more candidates. Would you like to see them?".

Definition generate_template_response (query : string)
    (employees : list dict) : result string :=
  match employees with
  | [emp] => single_candidate_response query emp
  | _ =>
      let response :=
        "Based on your query " +:+ dquote +:+ query +:+ dquote
        +:+ ", I found " +:+ pretty (length employees)
        +:+ " excellent candidates:" +:+ nl +:+ nl in
      let? response := numbered_entries 1 (take 3 employees) response in
      if (3 <? length employees)%nat
      then Ok (response +:+ more_candidates (length employees))
      else Ok response
  end.

Definition indent16 : string := indent +:+ indent.
Definition indent12 : string := indent +:+ "    ".

(** [for emp in employees: context += ...] *)
Fixpoint prepare_context (employees : list dict) (context : string)
  : result string :=
  match employees with
  | [] => Ok context
  | emp :: employees' =>
      let? skills := getitem emp "skills" in
      let? skills_text := join ", " skills in
      let? projects := getitem emp "projects" in
      let? projects_text := join ", " projects in
      let? name := getitem emp "name" in
      let? experience_years := getitem emp "experience_years" in
      let? department := getitem emp "department" in
      let? specialization := getitem emp "specialization" in
      let? availability := getitem emp "availability" in
      prepare_context employees'
        (context
         +:+ nl +:+ indent16 +:+ "**" +:+ fmt name +:+ "** ("
         +:+ fmt experience_years +:+ " years experience)"
         +:+ nl +:+ indent16 +:+ "- Skills: " +:+ skills_text
         +:+ nl +:+ indent16 +:+ "- Projects: " +:+ projects_text
         +:+ nl +:+ indent16 +:+ "- Department: " +:+ fmt department
         +:+ nl +:+ indent16 +:+ "- Specialization: " +:+ fmt specialization
         +:+ nl +:+ indent16 +:+ "- Availability: " +:+ fmt availability
         +:+ nl +:+ nl +:+ indent16)
  end.

Definition make_prompt (query context : string) : string :=
  nl +:+ indent12
  +:+ "You are an HR assistant helping to find the right employees for projects. "
  +:+ nl +:+ indent12 +:+ "A user asked: " +:+ dquote +:+ query +:+ dquote
  +:+ nl +:+ nl +:+ indent12 +:+ context
  +:+ nl +:+ nl +:+ indent12
  +:+ "Please provide a helpful, natural response recommending the most suitable candidates "
  +:+ nl +:+ indent12
  +:+ "and explaining why they would be a good fit. Be conversational and highlight their "
  +:+ nl +:+ indent12 +:+ "relevant experience and skills."
  +:+ nl +:+ indent12.

Definition generate_openai_response (query : string)
    (employees : list dict) : result string :=
  try_except
    (let? context :=
       prepare_context employees
         ("Based on your query, here are the relevant employees:"
          +:+ nl +:+ nl) in
     let prompt := make_prompt query context in
     let? choices := ChatCompletion_create prompt in
     list_getitem choices 0)
    (λ _, generate_template_response query employees).

(** [api_key] is what [os.getenv('OPENAI_API_KEY')] returns at the time
    of the call. *)
Definition generate_response (self : HRChatbot) (api_key : option string)
    (query : string) (relevant_employees : list dict) : result string :=
  match relevant_employees with
  | [] => Ok no_match_message
  | _ =>
      if openai_client self && truthy api_key
      then generate_openai_response query relevant_employees
      else generate_template_response query relevant_employees
  end.

(** The [/chat] handler: the reply and the candidates it serialises.
    Any exception becomes an HTTP 500. *)
Definition chat_with_bot (chatbot : HRChatbot) (api_key : option string)
    (message : string) : M (string * list dict) :=
  λ h,
    match
      (let! relevant_employees := search_employees chatbot message 5 in
       let! candidates := mmap deref relevant_employees in
       let! response_text :=
         lift (generate_response chatbot api_key message candidates) in
       mret' (response_text, candidates)) h
    with
    | Ok r => Ok r
    | Raise _ => Raise (HTTPException 500)
    end.

End Engine.

(** ** The vector index, from its specification *)

Section FlatIndex.

Variable vec : Type.

(** The inner product of two rows, as the index computes it. *)
Variable inner_product : vec → vec → Q.

(** Insertion in a list ranked by descending score: the new pair goes in
    front of the first pair whose score is not greater.  With
    [sort_by_score] and [score_all] below it is part of the model of the
    index search. *)
Fixpoint insert_by_score (x : Q * Z) (l : list (Q * Z)) : list (Q * Z) :=
  match l with
  | [] => [x]
  | y :: l' =>
      if Qle_bool (fst y) (fst x) then x :: l
      else y :: insert_by_score x l'
  end.

(** A stable sort by descending score. *)
Fixpoint sort_by_score (l : list (Q * Z)) : list (Q * Z) :=
  match l with
  | [] => []
  | x :: l' => insert_by_score x (sort_by_score l')
  end.

(** The score of every stored row against the query, with its position,
    counting from [i]. *)
Fixpoint score_from (i : nat) (xb : list vec) (q : vec) : list (Q * Z) :=
  match xb with
  | [] => []
  | x :: xb' => (inner_product q x, Z.of_nat i) :: score_from (S i) xb' q
  end.

Definition score_all (xb : list vec) (q : vec) : list (Q * Z) :=
  score_from 0 xb q.

(** [a] ranks before [b]: a greater score, or the same score and an
    earlier position. *)
Definition rank_before (a b : Q * Z) : Prop :=
  (b.1 < a.1)%Q ∨ ((a.1 == b.1)%Q ∧ a.2 < b.2).

(** Modelled from the spec: the search of the vector index
    ([IndexFlatIP.search] of the faiss library, whose code is not in
    the repository).  It scores every stored row by its inner product
    with the query, sorts by descending score with ties in insertion
    order (a stable sort), and returns the first [k] results, all of
    them when [k] exceeds the number of rows. *)
Definition IndexFlatIP_search (xb : list vec) (q : vec) (k : nat)
  : result (list (Q * Z)) :=
  Ok (take k (sort_by_score (score_all xb q))).

End FlatIndex.

(** The collaborators [C] with the index of the specification, for the
    inner product [inner_product]. *)
Definition with_flat_index (C : Collaborators)
    (inner_product : vec → vec → Q) : Collaborators :=
  {| repr_list := repr_list;
     repr_float := repr_float;
     vec := vec;
     encode := encode;
     normalize_L2 := normalize_L2;
     index_search := IndexFlatIP_search vec inner_product;
     ChatCompletion_create := ChatCompletion_create |}.

(** ** The record shape of the data model *)

Record EmployeeRecord : Type := {
  rec_name : string;
  rec_skills : list string;
  rec_experience_years : Z;
  rec_projects : list string;
  rec_department : string;
  rec_specialization : string;
  rec_certifications : list string;
  rec_availability : string
}.

(** The dictionary [d] holds the fields of [r], with their types.  It
    may hold other fields too ([id], [similarity_score]). *)
Definition has_fields (d : dict) (r : EmployeeRecord) : Prop :=
  d !! "name" = Some (VStr (rec_name r))
  ∧ d !! "skills" = Some (VList (rec_skills r))
  ∧ d !! "experience_years" = Some (VInt (rec_experience_years r))
  ∧ d !! "projects" = Some (VList (rec_projects r))
  ∧ d !! "department" = Some (VStr (rec_department r))
  ∧ d !! "specialization" = Some (VStr (rec_specialization r))
  ∧ d !! "certifications" = Some (VList (rec_certifications r))
  ∧ d !! "availability" = Some (VStr (rec_availability r)).

(** The dictionary of a record, as [json.load] builds it. *)
Definition to_dict (id : Z) (r : EmployeeRecord) : dict :=
  <["id" := VInt id]>
  (<["name" := VStr (rec_name r)]>
  (<["skills" := VList (rec_skills r)]>
  (<["experience_years" := VInt (rec_experience_years r)]>
  (<["projects" := VList (rec_projects r)]>
  (<["department" := VStr (rec_department r)]>
  (<["specialization" := VStr (rec_specialization r)]>
  (<["certifications" := VList (rec_certifications r)]>
  (<["availability" := VStr (rec_availability r)]> ∅)))))))).

(** ** Definitions for the statements

    Closed forms of the texts, the pure part of a search, and the heap
    after a sequence of allocations. *)

(** The text of a record: the labelled fields in their fixed order.  The
    final [strip] also removes white space that ends the availability. *)
Definition normal_text (r : EmployeeRecord) : string :=
  "Name: " +:+ rec_name r
  +:+ nl +:+ indent +:+ "Skills: " +:+ String.concat ", " (rec_skills r)
  +:+ nl +:+ indent +:+ "Experience: " +:+ pretty (rec_experience_years r)
  +:+ " years"
  +:+ nl +:+ indent +:+ "Projects: " +:+ String.concat ", " (rec_projects r)
  +:+ nl +:+ indent +:+ "Department: " +:+ rec_department r
  +:+ nl +:+ indent +:+ "Specialization: " +:+ rec_specialization r
  +:+ nl +:+ indent +:+ "Certifications: "
  +:+ String.concat ", " (rec_certifications r)
  +:+ nl +:+ indent +:+ "Availability:"
  +:+ rstrip (" " +:+ rec_availability r).

(** The single-candidate narrative for a record. *)
Definition single_text (query : string) (r : EmployeeRecord) : string :=
  "Based on your query " +:+ dquote +:+ query +:+ dquote
  +:+ ", I found an excellent candidate:" +:+ nl +:+ nl
  +:+ "**" +:+ rec_name r +:+ "** would be perfect for this role. They have "
  +:+ pretty (rec_experience_years r)
  +:+ " years of experience and their skills include "
  +:+ String.concat ", " (take 5 (rec_skills r)) +:+ ". " +:+ nl +:+ nl
  +:+ "They have worked on projects like: "
  +:+ String.concat ", " (rec_projects r)
  +:+ nl +:+ nl
  +:+ "Department: " +:+ rec_department r +:+ nl
  +:+ "Specialization: " +:+ rec_specialization r +:+ nl
  +:+ "Current availability: " +:+ rec_availability r +:+ nl +:+ nl
  +:+ "Would you like more details about their background or see other candidates?".

(** The item of the numbered list for a record at position [i]. *)
Definition entry_text (i : nat) (r : EmployeeRecord) : string :=
  "**" +:+ pretty i +:+ ". " +:+ rec_name r +:+ "** ("
  +:+ pretty (rec_experience_years r) +:+ " years experience)" +:+ nl
  +:+ "- Key skills: " +:+ String.concat ", " (take 3 (rec_skills r)) +:+ nl
  +:+ "- Specialization: " +:+ rec_specialization r +:+ nl
  +:+ "- Availability: " +:+ rec_availability r +:+ nl +:+ nl.

(** The items for the records [rs], numbered from [i]. *)
Fixpoint entries_text (i : nat) (rs : list EmployeeRecord) : string :=
  match rs with
  | [] => EmptyString
  | r :: rs' => entry_text i r +:+ entries_text (S i) rs'
  end.

(** The references and the heap after allocating the dictionaries [ds]
    one after the other. *)
Fixpoint alloc_all (ds : list dict) (h : heap) : list loc * heap :=
  match ds with
  | [] => ([], h)
  | d :: ds' =>
      let l := fresh_loc h in
      let '(ls, h') := alloc_all ds' (<[l := d]> h) in
      (l :: ls, h')
  end.

(** A record with its score: the dictionary of a candidate. *)
Definition scored (d : dict) (s : Q) : dict :=
  <["similarity_score" := VFloat s]> d.

(** The hits the loop of [search_employees] keeps, each with the item of
    [data] its label selects. *)
Fixpoint resolve_hits {A} (data : list A) (hits : list (Q * Z))
  : result (list (Q * A)) :=
  match hits with
  | [] => Ok []
  | (score, idx) :: hits' =>
      if idx <? Z.of_nat (length data) then
        let? source := list_getitem data idx in
        let? rest := resolve_hits data hits' in
        Ok ((score, source) :: rest)
      else resolve_hits data hits'
  end.

(** The candidate dictionaries for resolved hits, reading the sources in
    the heap [h]. *)
Definition copies (h : heap) (cs : list (Q * loc)) : list dict :=
  (λ c, scored (h !!! c.2) c.1) <$> cs.

(** Every record of the corpus is allocated. *)
Definition heap_ok (h : heap) (data : list loc) : Prop :=
  Forall (λ l, is_Some (h !! l)) data.

(** The score a candidate carries. *)
Definition score_of (h : heap) (l : loc) : Q :=
  match (h !!! l) !! "similarity_score" with
  | Some (VFloat s) => s
  | _ => 0
  end.

(** Candidate [a] does not score less than candidate [b]. *)
Definition descending (h : heap) (a b : loc) : Prop :=
  (score_of h b <= score_of h a)%Q.

(** The candidate at [l] is the record at position [c.2] of the corpus
    with the score [c.1]. *)
Definition is_candidate (h h' : heap) (data : list loc) (l : loc)
    (c : Q * Z) : Prop :=
  ∃ src d, data !! Z.to_nat c.2 = Some src
           ∧ h !! src = Some d
           ∧ h' !! l = Some (scored d c.1).

(** What a computation returned, without the heap it left. *)
Definition returned {A} (r : result (A * heap)) : result A :=
  match r with
  | Ok (a, _) => Ok a
  | Raise e => Raise e
  end.

Section Denotation.

Context `{C : Collaborators}.

(** The index [setup_embeddings] builds from the records. *)
Definition built_index (recs : list dict) : result (option (list vec)) :=
  match recs with
  | [] => Ok None
  | _ =>
      let? texts := rmap create_employee_text recs in
      let? embeddings := encode texts in
      Ok (Some (map normalize_L2 embeddings))
  end.

(** The chatbot [__init__] builds from the records [recs], once their
    dictionaries are allocated at [ls]. *)
Definition built (api_key : option string) (recs : list dict)
    (ls : list loc) : result HRChatbot :=
  let? index := built_index recs in
  Ok {| employees_data := ls;
        employee_embeddings := index;
        faiss_index := index;
        openai_client := truthy api_key |}.

(** The hits of a search with their sources, before any dictionary is
    copied: the part of [search_employees] that does not touch the heap. *)
Definition ranked_hits (self : HRChatbot) (xb : list vec) (query : string)
    (top_k : nat) : result (list (Q * loc)) :=
  let? query_embedding := encode [query] in
  let? q := list_getitem (map normalize_L2 query_embedding) 0 in
  let? hits := index_search xb q top_k in
  resolve_hits (employees_data self) hits.

(** The candidates of a search in the records [recs] over the index
    [xb], as values. *)
Definition pure_search (recs : list dict) (xb : list vec) (query : string)
    (top_k : nat) : result (list dict) :=
  let? query_embedding := encode [query] in
  let? q := list_getitem (map normalize_L2 query_embedding) 0 in
  let? hits := index_search xb q top_k in
  let? cs := resolve_hits recs hits in
  Ok ((λ c, scored c.2 c.1) <$> filter (λ c, Qltb threshold c.1) cs).

(** The candidates of a run, as a function of the file and the query. *)
Definition query_candidates (file : json_file) (query : string)
    (top_k : nat) : result (list dict) :=
  match file with
  | FileMissing => Ok []
  | FileInvalid => Raise JSONDecodeError
  | FileObject None => Raise (KeyError "employees")
  | FileObject (Some recs) =>
      let? index := built_index recs in
      match index with
      | None => Ok []
      | Some xb => pure_search recs xb query top_k
      end
  end.

(** One run: build the chatbot from the file, search, and read the
    candidates. *)
Definition run_query (api_key : option string) (file : json_file)
    (query : string) (top_k : nat) : M (list dict) :=
  let! chatbot := __init__ api_key file in
  let! results := search_employees chatbot query top_k in
  mmap deref results.

End Denotation.

(** ** A small concrete engine

    One-dimensional embeddings that look at the seventh character of
    the text (the first letter of the name in a normalised record), an
    identity normalisation, the index of the specification, and a
    generative collaborator that always times out. *)

Definition demo_encode1 (t : string) : Q :=
  match String.get 6 t with
  | Some "A"%char => 1
  | Some "B"%char => 1 # 2
  | Some "C"%char => 1 # 2
  | _ => 0
  end.

Definition demo : Collaborators :=
  {| repr_list := String.concat ",";
     repr_float := λ _, "?";
     vec := Q;
     encode := λ texts, Ok (map demo_encode1 texts);
     normalize_L2 := λ v, v;
     index_search := IndexFlatIP_search Q Qmult;
     ChatCompletion_create := λ _, Raise (CollaboratorError "timeout") |}.

Definition alice : EmployeeRecord :=
  {| rec_name := "Alice";
     rec_skills := ["Python"; "AWS"; "Docker"; "SQL"; "Go"; "Rust"];
     rec_experience_years := 5;
     rec_projects := ["Shop"; "Bank"];
     rec_department := "Engineering";
     rec_specialization := "Backend";
     rec_certifications := ["AWS SA"];
     rec_availability := "available" |}.

Definition bob : EmployeeRecord :=
  {| rec_name := "Bob";
     rec_skills := ["Java"];
     rec_experience_years := 3;
     rec_projects := [];
     rec_department := "Engineering";
     rec_specialization := "Web";
     rec_certifications := [];
     rec_availability := "busy" |}.

Definition carol : EmployeeRecord :=
  {| rec_name := "Carol";
     rec_skills := ["Figma"; "CSS"];
     rec_experience_years := 7;
     rec_projects := ["Brand"];
     rec_department := "Design";
     rec_specialization := "UX";
     rec_certifications := [];
     rec_availability := "available" |}.

Definition dave : EmployeeRecord :=
  {| rec_name := "Dave";
     rec_skills := ["Payroll"];
     rec_experience_years := 2;
     rec_projects := ["Ledger"];
     rec_department := "Finance";
     rec_specialization := "Payroll";
     rec_certifications := ["CPA"];
     rec_availability := "busy" |}.

(** The five candidates of the examples: Alice, Bob, Carol, Dave, Alice. *)
Definition five_records : list EmployeeRecord :=
  [alice; bob; carol; dave; alice].

Definition five_dicts : list dict :=
  imap (λ i, to_dict (Z.of_nat i)) five_records.

Definition demo_bot_with_client : HRChatbot (C := demo) :=
  {| employees_data := [];
     employee_embeddings := None;
     faiss_index := None;
     openai_client := true |}.

Definition demo_corpus : list dict :=
  [to_dict 1 alice; to_dict 2 bob; to_dict 3 carol; to_dict 4 dave].

Definition demo_data : list loc := (alloc_all demo_corpus ∅).1.

Definition demo_heap : heap := (alloc_all demo_corpus ∅).2.

Definition demo_rows : list (vec (Collaborators := demo)) :=
  [1%Q; 1 # 2; 1 # 2; 0%Q].

Definition demo_bot : HRChatbot (C := demo) :=
  {| employees_data := demo_data;
     employee_embeddings := Some demo_rows;
     faiss_index := Some demo_rows;
     openai_client := false |}.

Definition unbuilt_bot : HRChatbot (C := demo) :=
  {| employees_data := [];
     employee_embeddings := None;
     faiss_index := None;
     openai_client := false |}.

(** The name and the score of a candidate. *)
Definition summary (d : dict) : option value * option value :=
  (d !! "name", d !! "similarity_score").

(** Bob's record without its skills. *)
Definition bob_without_skills : dict := delete "skills" (to_dict 2 bob).

(** ** Further definitions for the statements *)

(** The record [r] with the availability [a]. *)
Definition with_availability (r : EmployeeRecord) (a : string)
  : EmployeeRecord :=
  {| rec_name := rec_name r;
     rec_skills := rec_skills r;
     rec_experience_years := rec_experience_years r;
     rec_projects := rec_projects r;
     rec_department := rec_department r;
     rec_specialization := rec_specialization r;
     rec_certifications := rec_certifications r;
     rec_availability := a |}.

(** The record [r] with the skills [l]. *)
Definition with_skills (r : EmployeeRecord) (l : list string)
  : EmployeeRecord :=
  {| rec_name := rec_name r;
     rec_skills := l;
     rec_experience_years := rec_experience_years r;
     rec_projects := rec_projects r;
     rec_department := rec_department r;
     rec_specialization := rec_specialization r;
     rec_certifications := rec_certifications r;
     rec_availability := rec_availability r |}.

(** The eight fields [create_employee_text] reads. *)
Definition record_keys : list string :=
  ["name"; "skills"; "experience_years"; "projects"; "department";
   "specialization"; "certifications"; "availability"].

(** The concrete engine with an embedder that is out of order. *)
Definition demo_down : Collaborators :=
  {| repr_list := String.concat ",";
     repr_float := λ _, "?";
     vec := Q;
     encode := λ _, Raise (CollaboratorError "embedder");
     normalize_L2 := λ v, v;
     index_search := IndexFlatIP_search Q Qmult;
     ChatCompletion_create := λ _, Raise (CollaboratorError "timeout") |}.

Definition demo_down_rows : list (vec (Collaborators := demo_down)) :=
  [1%Q; 1 # 2; 1 # 2; 0%Q].

Definition demo_down_bot : HRChatbot (C := demo_down) :=
  {| employees_data := demo_data;
     employee_embeddings := Some demo_down_rows;
     faiss_index := Some demo_down_rows;
     openai_client := false |}.

(** The concrete engine with a generative collaborator that answers with
    two choices. *)
Definition demo_chatty : Collaborators :=
  {| repr_list := String.concat ",";
     repr_float := λ _, "?";
     vec := Q;
     encode := λ texts, Ok (map demo_encode1 texts);
     normalize_L2 := λ v, v;
     index_search := IndexFlatIP_search Q Qmult;
     ChatCompletion_create := λ _, Ok ["Pick Alice."; "Pick Bob."] |}.

(** ** The other endpoints of [main.py]

    More string operations of Python, the exceptions of the built-in
    operations the endpoints use, and the handlers of
    [/employees/search], [/employees/{employee_id}] and [/stats]. *)

(** [str.lower] on one code point below 256. *)
Definition lower_char (c : ascii) : ascii :=
  let n := nat_of_ascii c in
  if (((65 <=? n) && (n <=? 90))
      || ((192 <=? n) && (n <=? 222) && negb (n =? 215)))%nat
  then ascii_of_nat (n + 32)
  else c.

(** [s.lower()] *)
Fixpoint lower (s : string) : string :=
  match s with
  | EmptyString => EmptyString
  | String c s' => String (lower_char c) (lower s')
  end.

(** [s.split(sep)] for a separator of one character. *)
Fixpoint split_on (sep : ascii) (s : string) : list string :=
  match s with
  | EmptyString => [EmptyString]
  | String c s' =>
      if Ascii.eqb c sep then EmptyString :: split_on sep s'
      else match split_on sep s' with
           | x :: xs => String c x :: xs
           | [] => [String c EmptyString]
           end
  end.

(** [sub in s] for two strings. *)
Fixpoint contains (sub s : string) : bool :=
  String.prefix sub s
  || match s with
     | EmptyString => false
     | String _ s' => contains sub s'
     end.

(** The exceptions of an endpoint body: those of [exn] and three of the
    built-in operations. *)
Inductive api_exn : Type :=
  | Builtin (e : exn)
  | AttributeError
  | ZeroDivisionError
  | OverflowError.

Inductive outcome (A : Type) : Type :=
  | Done (a : A)
  | Fail (e : api_exn).
Arguments Done {A} a.
Arguments Fail {A} e.

Definition obind {A B} (m : outcome A) (f : A → outcome B) : outcome B :=
  match m with
  | Done a => f a
  | Fail e => Fail e
  end.

Notation "'let*' x ':=' m 'in' k" := (obind m (λ x, k))
  (at level 10, x pattern, m at level 100, k at level 200) : result_scope.

Definition of_result {A} (r : result A) : outcome A :=
  match r with
  | Ok a => Done a
  | Raise e => Fail (Builtin e)
  end.

(** [try: body except Exception as e: raise HTTPException(500)] *)
Definition http_500 {A} (body : outcome A) : result A :=
  match body with
  | Done a => Ok a
  | Fail _ => Raise (HTTPException 500)
  end.

(** [[x for x in l if p(x)]] for a predicate that may raise. *)
Fixpoint filter_by {A} (p : A → outcome bool) (l : list A)
  : outcome (list A) :=
  match l with
  | [] => Done []
  | x :: l' =>
      let* keep := p x in
      let* rest := filter_by p l' in
      Done (if keep then x :: rest else rest)
  end.

(** [v.lower()] *)
Definition value_lower (v : value) : outcome string :=
  match v with
  | VStr s => Done (lower s)
  | VInt _ | VFloat _ | VList _ => Fail AttributeError
  end.

(** [v >= n] and [v <= n] for an integer [n]. *)
Definition value_ge (v : value) (n : Z) : outcome bool :=
  match v with
  | VInt z => Done (n <=? z)
  | VFloat q => Done (Qle_bool (inject_Z n) q)
  | VStr _ | VList _ => Fail (Builtin TypeError)
  end.

Definition value_le (v : value) (n : Z) : outcome bool :=
  match v with
  | VInt z => Done (z <=? n)
  | VFloat q => Done (Qle_bool q (inject_Z n))
  | VStr _ | VList _ => Fail (Builtin TypeError)
  end.

(** [v == n] for an integer [n]. *)
Definition value_eq_int (v : value) (n : Z) : bool :=
  match v with
  | VInt z => z =? n
  | VFloat q => Qeq_bool q (inject_Z n)
  | VStr _ | VList _ => false
  end.

(** Equality of two keys of a Python dict; a list is not hashable. *)
Definition key_eqb (a b : value) : bool :=
  match a, b with
  | VStr s, VStr t => String.eqb s t
  | VInt x, VInt y => x =? y
  | VInt x, VFloat q | VFloat q, VInt x => Qeq_bool q (inject_Z x)
  | VFloat p, VFloat q => Qeq_bool p q
  | _, _ => false
  end.

(** [m[k] = m.get(k, 0) + 1] on a dict kept in insertion order. *)
Fixpoint bump {K} (eqb : K → K → bool) (k : K) (m : list (K * nat))
  : list (K * nat) :=
  match m with
  | [] => [(k, 1%nat)]
  | (k', n) :: m' =>
      if eqb k' k then (k', S n) :: m' else (k', n) :: bump eqb k m'
  end.

(** Insertion in a list ranked by descending count, in front of the
    first pair whose count is not greater. *)
Fixpoint insert_by_count {K} (x : K * nat) (l : list (K * nat))
  : list (K * nat) :=
  match l with
  | [] => [x]
  | y :: l' =>
      if (y.2 <=? x.2)%nat then x :: l else y :: insert_by_count x l'
  end.

(** [sorted(items, key=lambda x: x[1], reverse=True)]: a stable sort by
    descending count. *)
Fixpoint sort_by_count {K} (l : list (K * nat)) : list (K * nat) :=
  match l with
  | [] => []
  | x :: l' => insert_by_count x (sort_by_count l')
  end.

(** Python's arithmetic where its result is a double, which this
    development does not compute.  [double] holds the doubles, with the
    infinities and the NaNs.  [float_total] is the state of [sum] once
    it has met a float: [float_start a q] is that state when the float
    [q] follows the exact int total [a], and [float_next t v] adds the
    number [v] to it.  [int_truediv a n] is [a / n] for two ints and
    [float_truediv t n] is [t / n] for the float total [t], in both for
    [n] other than zero.  These operations round, and they raise
    [OverflowError] when an int is too large for a double; the division
    of two ints raises it too when the quotient is. *)
Class FloatArithmetic : Type := {
  double : Type;
  float_total : Type;
  float_start : Z → Q → outcome float_total;
  float_next : float_total → value → outcome float_total;
  int_truediv : Z → Z → outcome double;
  float_truediv : float_total → Z → outcome double
}.

(** The running total of [sum]: an exact int until a float is met. *)
Inductive total `{FloatArithmetic} : Type :=
  | IntTotal (a : Z)
  | FloatTotal (t : float_total).

(** [total + v], as [sum] does it. *)
Definition add_to_total `{FloatArithmetic} (t : total) (v : value)
  : outcome total :=
  match t, v with
  | _, (VStr _ | VList _) => Fail (Builtin TypeError)
  | IntTotal a, VInt b => Done (IntTotal (a + b))
  | IntTotal a, VFloat q =>
      let* t' := float_start a q in Done (FloatTotal t')
  | FloatTotal t, (VInt _ | VFloat _) =>
      let* t' := float_next t v in Done (FloatTotal t')
  end.

(** [total / n] for an int [n] other than zero. *)
Definition total_truediv `{FloatArithmetic} (t : total) (n : Z)
  : outcome double :=
  match t with
  | IntTotal a => int_truediv a n
  | FloatTotal t => float_truediv t n
  end.

(** The value [/stats] returns. *)
Record stats `{FloatArithmetic} : Type := {
  total_employees : nat;
  departments : list (value * nat);
  top_skills : list (string * nat);
  avg_experience : double
}.

(** An arithmetic without rounding, on rationals: it agrees with
    Python's wherever the exact result is a double.  The division of two
    ints raises when the quotient is beyond the range of the doubles. *)
Definition demo_arithmetic : FloatArithmetic :=
  {| double := Q;
     float_total := Q;
     float_start := λ a q, Done (inject_Z a + q)%Q;
     float_next := λ t v,
       match v with
       | VInt b => Done (t + inject_Z b)%Q
       | VFloat q => Done (t + q)%Q
       | VStr _ | VList _ => Fail (Builtin TypeError)
       end;
     int_truediv := λ a n,
       if 2 ^ 1024 * Z.abs n <=? Z.abs a then Fail OverflowError
       else Done (inject_Z a / inject_Z n)%Q;
     float_truediv := λ t n, Done (t / inject_Z n)%Q |}.

Module Api.

Section Endpoints.

Context `{C : Collaborators} `{F : FloatArithmetic}.

(** The dictionaries of [chatbot.employees_data]. *)
Definition corpus (chatbot : HRChatbot) (h : heap) : list dict :=
  (λ l, h !!! l) <$> employees_data chatbot.

(** [any(skill.lower() in [s.lower() for s in emp['skills']]
         for skill in skill_list)] *)
Fixpoint any_skill (skill_list : list string) (emp : dict) : outcome bool :=
  match skill_list with
  | [] => Done false
  | skill :: skill_list' =>
      let* skills := of_result (getitem emp "skills") in
      let* items := of_result (iter_strs skills) in
      if bool_decide (lower skill ∈ lower <$> items) then Done true
      else any_skill skill_list' emp
  end.

Definition by_skills (skills : option string) (employees : list dict)
  : outcome (list dict) :=
  match skills with
  | Some (String _ _ as s) =>
      let skill_list := (λ x, lower (strip x)) <$> split_on "," s in
      filter_by (any_skill skill_list) employees
  | _ => Done employees
  end.

Definition by_experience_min (experience_min : option Z)
    (employees : list dict) : outcome (list dict) :=
  match experience_min with
  | Some n =>
      if n =? 0 then Done employees
      else filter_by
             (λ emp, let* v := of_result (getitem emp "experience_years") in
                     value_ge v n) employees
  | None => Done employees
  end.

Definition by_experience_max (experience_max : option Z)
    (employees : list dict) : outcome (list dict) :=
  match experience_max with
  | Some n =>
      if n =? 0 then Done employees
      else filter_by
             (λ emp, let* v := of_result (getitem emp "experience_years") in
                     value_le v n) employees
  | None => Done employees
  end.

Definition by_department (department : option string)
    (employees : list dict) : outcome (list dict) :=
  match department with
  | Some (String _ _ as s) =>
      filter_by
        (λ emp, let* v := of_result (getitem emp "department") in
                let* name := value_lower v in
                Done (contains (lower s) name)) employees
  | _ => Done employees
  end.

Definition by_availability (availability : option string)
    (employees : list dict) : outcome (list dict) :=
  match availability with
  | Some (String _ _ as s) =>
      filter_by
        (λ emp, let* v := of_result (getitem emp "availability") in
                let* state := value_lower v in
                Done (String.eqb state (lower s))) employees
  | _ => Done employees
  end.

(** The handler of [/employees/search]: the employees and their count. *)
Definition search_employees (chatbot : HRChatbot) (h : heap)
    (skills : option string) (experience_min experience_max : option Z)
    (department availability : option string) : result (list dict * nat) :=
  http_500
    (let filtered_employees := corpus chatbot h in
     let* filtered_employees := by_skills skills filtered_employees in
     let* filtered_employees :=
       by_experience_min experience_min filtered_employees in
     let* filtered_employees :=
       by_experience_max experience_max filtered_employees in
     let* filtered_employees := by_department department filtered_employees in
     let* filtered_employees :=
       by_availability availability filtered_employees in
     Done (filtered_employees, length filtered_employees)).

(** [next((emp for emp in employees if emp['id'] == employee_id), None)] *)
Fixpoint first_with_id (employees : list dict) (employee_id : Z)
  : outcome (option dict) :=
  match employees with
  | [] => Done None
  | emp :: employees' =>
      let* id := of_result (getitem emp "id") in
      if value_eq_int id employee_id then Done (Some emp)
      else first_with_id employees' employee_id
  end.

(** The handler of [/employees/{employee_id}].  The 404 is raised inside
    the [try] whose handler turns every exception into a 500. *)
Definition get_employee (chatbot : HRChatbot) (h : heap) (employee_id : Z)
  : result dict :=
  http_500
    (let* employee := first_with_id (corpus chatbot h) employee_id in
     match employee with
     | Some emp =>
         if decide (emp = ∅) then Fail (Builtin (HTTPException 404))
         else Done emp
     | None => Fail (Builtin (HTTPException 404))
     end).

(** [for skill in emp['skills']: skills_count[skill] = ... + 1] *)
Definition count_skills (items : list string) (skills_count : list (string * nat))
  : list (string * nat) :=
  foldl (λ m skill, bump String.eqb skill m) skills_count items.

(** The loop of [get_stats] over the employees. *)
Fixpoint count_all (employees : list dict)
    (departments : list (value * nat)) (skills_count : list (string * nat))
  : outcome (list (value * nat) * list (string * nat)) :=
  match employees with
  | [] => Done (departments, skills_count)
  | emp :: employees' =>
      let* dept := of_result (getitem emp "department") in
      let* departments :=
        match dept with
        | VList _ => Fail (Builtin TypeError)
        | _ => Done (bump key_eqb dept departments)
        end in
      let* skills := of_result (getitem emp "skills") in
      let* items := of_result (iter_strs skills) in
      count_all employees' departments (count_skills items skills_count)
  end.

(** [sum(emp['experience_years'] for emp in employees)], from the
    running total [t]. *)
Fixpoint sum_experience (employees : list dict) (t : total)
  : outcome total :=
  match employees with
  | [] => Done t
  | emp :: employees' =>
      let* v := of_result (getitem emp "experience_years") in
      let* t' := add_to_total t v in
      sum_experience employees' t'
  end.

(** The handler of [/stats]. *)
Definition get_stats (chatbot : HRChatbot) (h : heap) : result stats :=
  http_500
    (let employees := corpus chatbot h in
     let* (departments, skills_count) := count_all employees [] [] in
     let top := take 10 (sort_by_count skills_count) in
     let* t := sum_experience employees (IntTotal 0) in
     let* avg :=
       match employees with
       | [] => Fail ZeroDivisionError
       | _ => total_truediv t (Z.of_nat (length employees))
       end in
     Done {| total_employees := length employees;
             departments := departments;
             top_skills := top;
             avg_experience := avg |}).

End Endpoints.

End Api.

(** ** Definitions for the statements about the endpoints *)

(** The record [r] has one of the skills of [skill_list], case apart. *)
Definition has_skill (skill_list : list string) (r : EmployeeRecord) : bool :=
  existsb (λ skill, bool_decide (lower skill ∈ lower <$> rec_skills r))
    skill_list.

(** The record [r] passes the filters of [/employees/search]; a filter
    that is absent, empty or zero lets every record pass. *)
Definition matches (skills : option string)
    (experience_min experience_max : option Z)
    (department availability : option string) (r : EmployeeRecord) : bool :=
  match skills with
  | Some (String _ _ as s) =>
      has_skill ((λ x, lower (strip x)) <$> split_on "," s) r
  | _ => true
  end
  && match experience_min with
     | Some n => (n =? 0) || (n <=? rec_experience_years r)
     | None => true
     end
  && match experience_max with
     | Some n => (n =? 0) || (rec_experience_years r <=? n)
     | None => true
     end
  && match department with
     | Some (String _ _ as s) =>
         contains (lower s) (lower (rec_department r))
     | _ => true
     end
  && match availability with
     | Some (String _ _ as s) =>
         String.eqb (lower (rec_availability r)) (lower s)
     | _ => true
     end.

(** [m.get(k, 0)] on a dict kept in insertion order. *)
Fixpoint count_for {K} (eqb : K → K → bool) (k : K) (m : list (K * nat))
  : nat :=
  match m with
  | [] => 0
  | (k', n) :: m' => if eqb k' k then n else count_for eqb k m'
  end.

(** How many times [x] occurs in [l]. *)
Definition occurrences (x : string) (l : list string) : nat :=
  length (filter (λ y, y = x) l).

(** The departments dict of [/stats], with its string keys as values. *)
Definition as_keys (m : list (string * nat)) : list (value * nat) :=
  (λ kn, (VStr kn.1, kn.2)) <$> m.

(** The dict that counts the items of [l], in the order in which they
    first occur. *)
Definition tally (l : list string) : list (string * nat) :=
  foldl (λ m x, bump String.eqb x m) [] l.

(** A corpus in which Bob's record has no skills. *)
Definition gap_corpus : list dict := [to_dict 1 alice; bob_without_skills].

Definition gap_data : list loc := (alloc_all gap_corpus ∅).1.

Definition gap_heap : heap := (alloc_all gap_corpus ∅).2.

Definition gap_bot : HRChatbot (C := demo) :=
  {| employees_data := gap_data;
     employee_embeddings := None;
     faiss_index := None;
     openai_client := false |}.

(** A corpus of one record whose years of experience exceed the range
    of the doubles. *)
Definition vera : EmployeeRecord :=
  {| rec_name := "Vera";
     rec_skills := ["Cobol"];
     rec_experience_years := 2 ^ 1024;
     rec_projects := ["Ledger"];
     rec_department := "Finance";
     rec_specialization := "Mainframe";
     rec_certifications := [];
     rec_availability := "busy" |}.

Definition vera_corpus : list dict := [to_dict 1 vera].

Definition vera_data : list loc := (alloc_all vera_corpus ∅).1.

Definition vera_heap : heap := (alloc_all vera_corpus ∅).2.

Definition vera_bot : HRChatbot (C := demo) :=
  {| employees_data := vera_data;
     employee_embeddings := None;
     faiss_index := None;
     openai_client := false |}.

(** ** The test script [test_app.py] *)

Module TestApp.

(** The loop of [main] over [tests].  A test is a name and what the call
    of its function gives: [inr b] when it returns [b], [inl e] when it
    raises [e], which the test functions do for an exception that is not
    a [RequestException]. *)
Fixpoint run_tests {E} (tests : list (string * (E + bool))) (passed : nat)
  : E + nat :=
  match tests with
  | [] => inr passed
  | (test_name, test_func) :: tests' =>
      match test_func with
      | inl e => inl e
      | inr ok => run_tests tests' (if ok then S passed else passed)
      end
  end.

(** [main()]: the exit code of the script. *)
Definition main {E} (tests : list (string * (E + bool))) : E + Z :=
  let total := length tests in
  match run_tests tests 0 with
  | inl e => inl e
  | inr passed => if (passed =? total)%nat then inr 0 else inr 1
  end.

End TestApp.

(** * Properties *)

(** ** Strings *)

Lemma string_app_cons (x : ascii) (a b : string) :
  String x a +:+ b = String x (a +:+ b).
Proof. reflexivity. Qed.

Lemma string_app_nil_l (b : string) : EmptyString +:+ b = b.
Proof. reflexivity. Qed.

Lemma string_app_assoc (a b c : string) : (a +:+ b) +:+ c = a +:+ (b +:+ c).
Proof.
  induction a as [|x a IH]; [done|].
  by rewrite !string_app_cons, IH.
Qed.

Lemma string_app_nil_r (a : string) : a +:+ EmptyString = a.
Proof.
  induction a as [|x a IH]; [done|].
  by rewrite string_app_cons, IH.
Qed.

Lemma substring_of_refl (s : string) : substring_of s s.
Proof.
  exists EmptyString, EmptyString.
  by rewrite string_app_nil_l, string_app_nil_r.
Qed.

Lemma substring_of_app_l (s a t : string) :
  substring_of s t → substring_of s (a +:+ t).
Proof.
  intros (x & y & ->). exists (a +:+ x), y. by rewrite string_app_assoc.
Qed.

Lemma substring_of_app_r (s t b : string) :
  substring_of s t → substring_of s (t +:+ b).
Proof.
  intros (x & y & ->). exists x, (y +:+ b).
  by rewrite !string_app_assoc.
Qed.

(** The goal is that a text occurs in an append, of which it is (within)
    the piece number [n], counting from 0. *)
Tactic Notation "piece" integer(n) :=
  do n apply substring_of_app_l; apply substring_of_app_r.

Lemma concat_cons2 (sep x y : string) (l : list string) :
  String.concat sep (x :: y :: l) = x +:+ sep +:+ String.concat sep (y :: l).
Proof. reflexivity. Qed.

Lemma substring_of_concat (sep s : string) (l : list string) :
  s ∈ l → substring_of s (String.concat sep l).
Proof.
  induction l as [|x l IH]; intros Hin; [by apply elem_of_nil in Hin|].
  apply elem_of_cons in Hin as [->|Hin].
  - destruct l as [|y l]; [apply substring_of_refl|].
    rewrite concat_cons2. apply substring_of_app_r, substring_of_refl.
  - destruct l as [|y l]; [by apply elem_of_nil in Hin|].
    rewrite concat_cons2.
    by apply substring_of_app_l, substring_of_app_l, IH.
Qed.

Lemma rstrip_cons_keep (c : ascii) (s : string) :
  py_isspace c = false → rstrip (String c s) = String c (rstrip s).
Proof. intros Hc. simpl. rewrite Hc. by destruct (rstrip s). Qed.

Lemma rstrip_app_keep (a b : string) :
  rstrip b ≠ EmptyString → rstrip (a +:+ b) = a +:+ rstrip b.
Proof.
  intros Hb. induction a as [|x a IH]; [done|].
  rewrite !string_app_cons. simpl. rewrite IH.
  destruct a as [|y a]; [|by rewrite string_app_cons].
  rewrite string_app_nil_l. by destruct (rstrip b).
Qed.

Lemma rstrip_app_nonempty (a b : string) :
  rstrip b ≠ EmptyString → rstrip (a +:+ b) ≠ EmptyString.
Proof.
  intros Hb. rewrite rstrip_app_keep by done.
  destruct a; [by rewrite string_app_nil_l | by rewrite string_app_cons].
Qed.

Lemma rstrip_app_spaces (a b : string) :
  rstrip b = EmptyString → rstrip (a +:+ b) = rstrip a.
Proof.
  intros Hb. induction a as [|x a IH]; [by rewrite string_app_nil_l|].
  rewrite string_app_cons. simpl. by rewrite IH.
Qed.

(** ** RecordNormalizer *)

Section Normalizer.

Context `{C : Collaborators}.

Lemma rstrip_availability (a : string) :
  rstrip ("Availability: " +:+ a +:+ nl +:+ indent)
  = "Availability:" +:+ rstrip (" " +:+ a).
Proof.
  change ("Availability: " +:+ a +:+ nl +:+ indent)
    with ("Availability:" +:+ (" " +:+ a) +:+ (nl +:+ indent)).
  assert (rstrip ((" " +:+ a) +:+ nl +:+ indent) = rstrip (" " +:+ a)) as <-
    by (by apply rstrip_app_spaces).
  generalize ((" " +:+ a) +:+ nl +:+ indent). intros t.
  change ("Availability:" +:+ t)
    with (String "A" (String "v" (String "a" (String "i" (String "l"
         (String "a" (String "b" (String "i" (String "l" (String "i"
         (String "t" (String "y" (String ":" t))))))))))))).
  by rewrite !rstrip_cons_keep by reflexivity.
Qed.

Lemma rstrip_availability_nonempty (a : string) :
  rstrip ("Availability: " +:+ a +:+ nl +:+ indent) ≠ EmptyString.
Proof. by rewrite rstrip_availability. Qed.

Ltac rstrip_keep :=
  rewrite rstrip_app_keep
    by (repeat first [ apply rstrip_availability_nonempty
                     | apply rstrip_app_nonempty ]).

Lemma strip_text (n s e p d sp c a : string) :
  strip (nl +:+ indent +:+ "Name: " +:+ n
         +:+ nl +:+ indent +:+ "Skills: " +:+ s
         +:+ nl +:+ indent +:+ "Experience: " +:+ e +:+ " years"
         +:+ nl +:+ indent +:+ "Projects: " +:+ p
         +:+ nl +:+ indent +:+ "Department: " +:+ d
         +:+ nl +:+ indent +:+ "Specialization: " +:+ sp
         +:+ nl +:+ indent +:+ "Certifications: " +:+ c
         +:+ nl +:+ indent +:+ "Availability: " +:+ a
         +:+ nl +:+ indent)
  = "Name: " +:+ n
    +:+ nl +:+ indent +:+ "Skills: " +:+ s
    +:+ nl +:+ indent +:+ "Experience: " +:+ e +:+ " years"
    +:+ nl +:+ indent +:+ "Projects: " +:+ p
    +:+ nl +:+ indent +:+ "Department: " +:+ d
    +:+ nl +:+ indent +:+ "Specialization: " +:+ sp
    +:+ nl +:+ indent +:+ "Certifications: " +:+ c
    +:+ nl +:+ indent +:+ "Availability:" +:+ rstrip (" " +:+ a).
Proof.
  unfold strip.
  match goal with |- _ = ?rhs => set (out := rhs) end.
  repeat rstrip_keep.
  rewrite rstrip_availability. reflexivity.
Qed.

Lemma create_employee_text_fields (d : dict) (r : EmployeeRecord) :
  has_fields d r → create_employee_text d = Ok (normal_text r).
Proof.
  intros (Hn & Hs & He & Hp & Hd & Hsp & Hc & Ha).
  unfold create_employee_text, getitem.
  rewrite Hs, Hp, Hc, Hn, He, Hd, Hsp, Ha. cbn [rbind join iter_strs fmt].
  f_equal. apply strip_text.
Qed.

Lemma has_fields_to_dict (id : Z) (r : EmployeeRecord) :
  has_fields (to_dict id r) r.
Proof. repeat split. Qed.

(** C6: a record with the fields of the data model always normalises;
    the text depends on those fields only (two dictionaries holding the
    same record give the same text), it lists the labelled fields in the
    order name, skills, experience, projects, department,
    specialization, certifications, availability with the list fields
    joined by ", ", and every skill, project and certification of the
    record occurs in it. *)
Theorem create_employee_text_normalizes (d d' : dict) (r : EmployeeRecord) :
  has_fields d r →
  create_employee_text d = Ok (normal_text r)
  ∧ (has_fields d' r → create_employee_text d' = create_employee_text d)
  ∧ ∀ s, s ∈ (rec_skills r ++ rec_projects r ++ rec_certifications r)%list →
         substring_of s (normal_text r).
Proof.
  intros Hd. split; [by apply create_employee_text_fields|]. split.
  { intros Hd'. by rewrite !(create_employee_text_fields _ r). }
  intros s Hs. unfold normal_text.
  apply elem_of_app in Hs as [Hs|Hs]; [|apply elem_of_app in Hs as [Hs|Hs]].
  - piece 5. by apply substring_of_concat.
  - piece 14. by apply substring_of_concat.
  - piece 26. by apply substring_of_concat.
Qed.

End Normalizer.

Lemma create_employee_text_normalizes_witness :
  has_fields (to_dict 1 alice) alice
  ∧ create_employee_text (C := demo) (to_dict 1 alice)
    = Ok (normal_text alice).
Proof.
  split; [apply has_fields_to_dict|].
  apply (create_employee_text_normalizes (to_dict 1 alice) (to_dict 7 alice)).
  apply has_fields_to_dict.
Defined.

(** ** ResponseSynthesizer *)

Section Synthesizer.

Context `{C : Collaborators}.

Lemma single_candidate_fields (query : string) (d : dict)
    (r : EmployeeRecord) :
  has_fields d r →
  single_candidate_response query d = Ok (single_text query r).
Proof.
  intros (Hn & Hs & He & Hp & Hd & Hsp & Hc & Ha).
  unfold single_candidate_response, getitem.
  by rewrite Hs, Hp, Hn, He, Hd, Hsp, Ha.
Qed.

Lemma numbered_entry_fields (i : nat) (d : dict) (r : EmployeeRecord) :
  has_fields d r → numbered_entry i d = Ok (entry_text i r).
Proof.
  intros (Hn & Hs & He & Hp & Hd & Hsp & Hc & Ha).
  unfold numbered_entry, getitem.
  by rewrite Hs, Hn, He, Hsp, Ha.
Qed.

Lemma numbered_entries_fields (ds : list dict) (rs : list EmployeeRecord) :
  Forall2 has_fields ds rs →
  ∀ i response,
    numbered_entries i ds response = Ok (response +:+ entries_text i rs).
Proof.
  induction 1 as [|d r ds rs Hd _ IH]; intros i response.
  - cbn [numbered_entries entries_text]. by rewrite string_app_nil_r.
  - cbn [numbered_entries entries_text].
    rewrite (numbered_entry_fields i d r Hd). cbn [rbind].
    by rewrite IH, string_app_assoc.
Qed.

Lemma generate_template_response_many (query : string) (ds : list dict) :
  length ds ≠ 1%nat →
  generate_template_response query ds
  = (let response :=
       "Based on your query " +:+ dquote +:+ query +:+ dquote
       +:+ ", I found " +:+ pretty (length ds)
       +:+ " excellent candidates:" +:+ nl +:+ nl in
     let? response := numbered_entries 1 (take 3 ds) response in
     if (3 <? length ds)%nat
     then Ok (response +:+ more_candidates (length ds))
     else Ok response).
Proof. by destruct ds as [|d1 [|d2 ds]]. Qed.

Lemma generate_template_response_ok (query : string) (ds : list dict)
    (rs : list EmployeeRecord) :
  Forall2 has_fields ds rs →
  ∃ text, generate_template_response query ds = Ok text.
Proof.
  intros Hds. destruct (decide (length ds = 1%nat)) as [Hone|Hmany].
  - destruct Hds as [|d r ds rs Hd Hds]; [done|].
    destruct Hds; [|done].
    eexists. by apply single_candidate_fields.
  - rewrite generate_template_response_many by done. cbn zeta.
    rewrite (numbered_entries_fields (take 3 ds) (take 3 rs))
      by (by apply Forall2_take).
    cbn [rbind]. destruct (3 <? length ds)%nat; by eexists.
Qed.

(** C7: on the template path, one candidate gives the single-candidate
    narrative, which contains the name, the experience, the first five
    skills at most, the whole project list, the department, the
    specialization and the availability; more than one candidate gives
    a numbered list of the first three at most, followed, when there
    are more than three, by the count of the remaining ones and the
    offer to show them. *)
Theorem generate_template_response_shape (query : string) (ds : list dict)
    (rs : list EmployeeRecord) :
  Forall2 has_fields ds rs →
  (∀ r, rs = [r] →
     generate_template_response query ds = Ok (single_text query r)
     ∧ substring_of (rec_name r) (single_text query r)
     ∧ substring_of (pretty (rec_experience_years r)) (single_text query r)
     ∧ substring_of (String.concat ", " (take 5 (rec_skills r)))
         (single_text query r)
     ∧ substring_of (String.concat ", " (rec_projects r)) (single_text query r)
     ∧ substring_of (rec_department r) (single_text query r)
     ∧ substring_of (rec_specialization r) (single_text query r)
     ∧ substring_of (rec_availability r) (single_text query r))
  ∧ ((1 < length ds)%nat →
     generate_template_response query ds
     = Ok ("Based on your query " +:+ dquote +:+ query +:+ dquote
           +:+ ", I found " +:+ pretty (length ds)
           +:+ " excellent candidates:" +:+ nl +:+ nl
           +:+ entries_text 1 (take 3 rs)
           +:+ (if (3 <? length ds)%nat
                then nl +:+ "I found " +:+ pretty (length ds - 3)%nat
                     +:+ " more candidates. Would you like to see them?"
                else EmptyString))
     ∧ length (take 3 rs) = (length ds `min` 3)%nat).
Proof.
  intros Hds. split.
  - intros r ->. apply Forall2_cons_inv_r in Hds as (d & ds' & Hd & Hds & ->).
    apply Forall2_nil_inv_r in Hds as ->.
    split; [by apply single_candidate_fields|]. unfold single_text.
    repeat split.
    + piece 8. apply substring_of_refl.
    + piece 10. apply substring_of_refl.
    + piece 12. apply substring_of_refl.
    + piece 17. apply substring_of_refl.
    + piece 21. apply substring_of_refl.
    + piece 24. apply substring_of_refl.
    + piece 27. apply substring_of_refl.
  - intros Hlen. split.
    + rewrite generate_template_response_many by lia. cbn zeta.
      rewrite (numbered_entries_fields (take 3 ds) (take 3 rs))
        by (by apply Forall2_take).
      cbn [rbind]. unfold more_candidates.
      destruct (3 <? length ds)%nat.
      * f_equal. by rewrite !string_app_assoc.
      * f_equal. by rewrite !string_app_assoc, string_app_nil_r.
    + rewrite length_take, <- (Forall2_length _ _ _ Hds). lia.
Qed.

Lemma try_except_ok {A} (body : result A) (handler : exn → result A) :
  (∀ e, ∃ a, handler e = Ok a) → ∃ a, try_except body handler = Ok a.
Proof. intros Hh. destruct body as [a|e]; [by exists a | apply Hh]. Qed.

(** C2: for candidates shaped like records, when the generative
    collaborator raises on the prompt built for them, the generative
    path returns the template response for the same candidates; and
    whatever the collaborator does, [generate_response] on a non-empty
    candidate list returns a text, never an exception. *)
Theorem generate_response_falls_back (self : HRChatbot)
    (api_key : option string) (query : string) (ds : list dict)
    (rs : list EmployeeRecord) :
  ds ≠ [] →
  Forall2 has_fields ds rs →
  ∃ template,
    generate_template_response query ds = Ok template
    ∧ (∃ text, generate_response self api_key query ds = Ok text)
    ∧ ((∀ context, ∃ e,
          ChatCompletion_create (make_prompt query context) = Raise e) →
       generate_openai_response query ds = Ok template
       ∧ generate_response self api_key query ds = Ok template).
Proof.
  intros Hne Hds.
  destruct (generate_template_response_ok query ds rs Hds) as [template Ht].
  exists template. split; [done|].
  assert (∃ text, generate_openai_response query ds = Ok text) as Hopen.
  { unfold generate_openai_response. apply try_except_ok.
    intros _. by exists template. }
  assert (∃ text, generate_response self api_key query ds = Ok text) as Hresp.
  { unfold generate_response. destruct ds as [|d ds]; [done|].
    destruct (openai_client self && truthy api_key); [done | by eexists]. }
  split; [done|]. intros Hfail.
  assert (generate_openai_response query ds = Ok template) as Hfall.
  { unfold generate_openai_response.
    destruct (prepare_context ds _) as [context|e]; cbn [rbind try_except];
      [|done].
    destruct (Hfail context) as [e ->]. by cbn [rbind try_except]. }
  split; [done|]. unfold generate_response. destruct ds as [|d ds]; [done|].
  by destruct (openai_client self && truthy api_key).
Qed.

End Synthesizer.

Lemma five_dicts_fields : Forall2 has_fields five_dicts five_records.
Proof. repeat constructor. Qed.

Lemma generate_template_response_shape_witness :
  Forall2 has_fields five_dicts five_records
  ∧ generate_template_response (C := demo) "who?" five_dicts
    = Ok ("Based on your query " +:+ dquote +:+ "who?" +:+ dquote
          +:+ ", I found 5 excellent candidates:" +:+ nl +:+ nl
          +:+ entries_text 1 [alice; bob; carol]
          +:+ nl +:+ "I found 2 more candidates. Would you like to see them?").
Proof.
  split; [apply five_dicts_fields|].
  apply (generate_template_response_shape (C := demo) "who?" five_dicts
           five_records five_dicts_fields).
  vm_compute. lia.
Defined.

Lemma generate_response_falls_back_witness :
  five_dicts ≠ []
  ∧ Forall2 has_fields five_dicts five_records
  ∧ ∃ template,
      generate_template_response (C := demo) "who?" five_dicts = Ok template
      ∧ generate_response demo_bot_with_client (Some "sk-1") "who?" five_dicts
        = Ok template.
Proof.
  split; [done|]. split; [apply five_dicts_fields|].
  destruct (generate_response_falls_back (C := demo) demo_bot_with_client
              (Some "sk-1") "who?" five_dicts five_records)
    as (template & Ht & _ & Hfall); [done | apply five_dicts_fields |].
  exists template. split; [done|]. apply Hfall.
  intros context. by exists (CollaboratorError "timeout").
Defined.

(** ** The heap: allocation *)

Lemma fresh_loc_bound (h : heap) (l : loc) :
  is_Some (h !! l) →
  (l <= map_fold (λ l _ m, Pos.max l m) 1%positive h)%positive.
Proof.
  revert l.
  apply (map_fold_weak_ind
           (λ m (h : heap), ∀ l, is_Some (h !! l) → (l <= m)%positive)).
  - intros l [d Hd]. by rewrite lookup_empty in Hd.
  - intros i d h0 m _ IH l Hl.
    apply lookup_insert_is_Some in Hl as [->|[_ Hl]]; [lia|].
    specialize (IH l Hl). lia.
Qed.

Lemma fresh_lookup_None (h : heap) : h !! fresh_loc h = None.
Proof.
  destruct (h !! fresh_loc h) as [d|] eqn:Hd; [|done].
  pose proof (fresh_loc_bound h (fresh_loc h) (mk_is_Some _ _ Hd)) as Hle.
  unfold fresh_loc in Hle. lia.
Qed.

Lemma mmap_new_dict (ds : list dict) (h : heap) :
  mmap new_dict ds h = Ok (alloc_all ds h).
Proof.
  revert h. induction ds as [|d ds IH]; intros h; [done|].
  cbn [mmap alloc_all]. unfold mbind' at 1. unfold new_dict at 1.
  unfold mbind' at 1. rewrite IH.
  by destruct (alloc_all ds _) as [ls h'].
Qed.

Lemma alloc_all_spec (ds : list dict) (h : heap) (ls : list loc) (h' : heap) :
  alloc_all ds h = (ls, h') →
  h ⊆ h'
  ∧ NoDup ls
  ∧ (∀ l, l ∈ ls → h !! l = None)
  ∧ (λ l, h' !! l) <$> ls = Some <$> ds.
Proof.
  revert h ls h'. induction ds as [|d ds IH]; intros h ls h' Halloc.
  - injection Halloc as <- <-. split_and!; [done | constructor | | done].
    intros l Hl. by apply elem_of_nil in Hl.
  - cbn [alloc_all] in Halloc.
    destruct (alloc_all ds _) as [ls1 h1] eqn:Hrec.
    injection Halloc as <- <-.
    destruct (IH _ _ _ Hrec) as (Hsub & Hnd & Hfresh & Hcont).
    pose proof (fresh_lookup_None h) as Hl0.
    assert (h ⊆ h1) as Hsub'.
    { etrans; [|exact Hsub]. by apply insert_subseteq. }
    split_and!.
    + done.
    + constructor; [|done]. intros Hin. apply Hfresh in Hin.
      by rewrite lookup_insert_eq in Hin.
    + intros l Hl. apply elem_of_cons in Hl as [->|Hl]; [done|].
      apply Hfresh in Hl. by apply lookup_insert_None in Hl as [? _].
    + cbn [fmap list_fmap]. f_equal; [|done].
      apply (lookup_weaken _ _ _ _ (lookup_insert_eq h _ d) Hsub).
Qed.

Lemma alloc_all_deref (ds : list dict) (h : heap) (ls : list loc) (h' : heap) :
  alloc_all ds h = (ls, h') → (λ l, h' !!! l) <$> ls = ds.
Proof.
  intros Halloc. apply alloc_all_spec in Halloc as (_ & _ & _ & Hcont).
  revert ds Hcont. induction ls as [|l ls IH]; intros [|d ds] Hcont;
    try done.
  injection Hcont as Hl Hcont. cbn [fmap list_fmap]. f_equal; [|by apply IH].
  by rewrite lookup_total_alt, Hl.
Qed.

Lemma mmap_deref (ls : list loc) (h : heap) :
  mmap deref ls h = Ok ((λ l, h !!! l) <$> ls, h).
Proof.
  induction ls as [|l ls IH]; [done|].
  cbn [mmap]. unfold mbind' at 1. unfold deref at 1.
  unfold mbind' at 1. by rewrite IH.
Qed.

(** ** Initialisation *)

Section Lifecycle.

Context `{C : Collaborators}.

Lemma mmap_texts (ls : list loc) (h : heap) :
  mmap (λ emp, let! d := deref emp in lift (create_employee_text d)) ls h
  = lift (rmap create_employee_text ((λ l, h !!! l) <$> ls)) h.
Proof.
  induction ls as [|l ls IH]; [done|].
  cbn [mmap fmap list_fmap rmap]. unfold mbind' at 1 2. unfold deref at 1.
  unfold lift at 1 3.
  destruct (create_employee_text (h !!! l)) as [t|e]; cbn [rbind]; [|done].
  unfold mbind' at 1. rewrite IH. unfold lift.
  by destruct (rmap create_employee_text _).
Qed.

Lemma init_file_object (api_key : option string) (recs : list dict)
    (h : heap) :
  __init__ api_key (FileObject (Some recs)) h
  = let '(ls, h') := alloc_all recs h in
    match built api_key recs ls with
    | Ok self => Ok (self, h')
    | Raise e => Raise e
    end.
Proof.
  unfold __init__. cbn [load_employee_data]. unfold mbind' at 1.
  rewrite mmap_new_dict.
  destruct (alloc_all recs h) as [ls h'] eqn:Halloc.
  pose proof (alloc_all_deref _ _ _ _ Halloc) as Hderef.
  unfold setup_embeddings, setup_openai, built, built_index.
  destruct recs as [|d recs].
  { injection Halloc as <- <-. by destruct (truthy api_key). }
  destruct ls as [|l ls]; [done|].
  assert (∀ b, employees_data
            (if truthy api_key
             then {| employees_data := l :: ls; employee_embeddings := None;
                     faiss_index := None; openai_client := true |}
             else {| employees_data := l :: ls; employee_embeddings := None;
                     faiss_index := None; openai_client := b |}) = l :: ls)
    as Hdata by (intros b; by destruct (truthy api_key)).
  cbn [employees_data employee_embeddings faiss_index openai_client].
  rewrite Hdata. unfold mbind' at 1. rewrite mmap_texts, Hderef.
  unfold lift at 1.
  destruct (rmap create_employee_text (d :: recs)) as [texts|e];
    cbn [rbind]; [|done].
  unfold mbind', lift, mret'.
  destruct (encode texts) as [embeddings|e]; [|done].
  by destruct (truthy api_key).
Qed.

Lemma rmap_raises {A B} (f : A → result B) (l : list A) (x : A) (e : exn) :
  x ∈ l → f x = Raise e → ∃ e', rmap f l = Raise e'.
Proof.
  intros Hin Hx. induction l as [|y l IH]; [by apply elem_of_nil in Hin|].
  cbn [rmap]. apply elem_of_cons in Hin as [<-|Hin].
  - rewrite Hx. by eexists.
  - destruct (f y); cbn [rbind]; [|by eexists].
    destruct (IH Hin) as [e' ->]. by eexists.
Qed.

Lemma create_employee_text_missing (d : dict) (key : string) :
  key ∈ ["skills"; "projects"; "certifications"] →
  d !! key = None →
  ∃ e, create_employee_text d = Raise e.
Proof.
  intros Hkey Hnone. unfold create_employee_text, getitem.
  repeat (apply elem_of_cons in Hkey as [->|Hkey]);
    [| | |by apply elem_of_nil in Hkey].
  - rewrite Hnone. by eexists.
  - destruct (d !! "skills") as [v|]; cbn [rbind]; [|by eexists].
    destruct (join ", " v); cbn [rbind]; [|by eexists].
    rewrite Hnone. by eexists.
  - destruct (d !! "skills") as [v|]; cbn [rbind]; [|by eexists].
    destruct (join ", " v); cbn [rbind]; [|by eexists].
    destruct (d !! "projects") as [v'|]; cbn [rbind]; [|by eexists].
    destruct (join ", " v'); cbn [rbind]; [|by eexists].
    rewrite Hnone. by eexists.
Qed.

(** C9: when a record of the loaded set lacks one of the list fields
    skills, projects, certifications, reading the field raises
    [KeyError] (no empty list stands in for it), the normaliser raises
    on the record, and the construction of the chatbot raises: no
    chatbot exists that could return a candidate made from it. *)
Theorem init_rejects_missing_list_field (api_key : option string)
    (recs : list dict) (h : heap) (d : dict) (key : string) :
  d ∈ recs →
  key ∈ ["skills"; "projects"; "certifications"] →
  d !! key = None →
  getitem d key = Raise (KeyError key)
  ∧ (∃ e, create_employee_text d = Raise e)
  ∧ (∃ e, __init__ api_key (FileObject (Some recs)) h = Raise e).
Proof.
  intros Hin Hkey Hnone. split; [unfold getitem; by rewrite Hnone|].
  destruct (create_employee_text_missing d key Hkey Hnone) as [e He].
  split; [by exists e|].
  rewrite init_file_object. destruct (alloc_all recs h) as [ls h'].
  destruct (rmap_raises create_employee_text recs d e Hin He) as [e' He'].
  unfold built, built_index.
  destruct recs as [|d0 recs]; [by apply elem_of_nil in Hin|].
  rewrite He'. by exists e'.
Qed.

(** C5: initialising from an empty record set (or without a record
    file) succeeds and indexes nothing; and for a chatbot whose index
    was never built, whatever the query text, the search returns no
    candidate and the reply is the fixed no-match message with the
    empty candidate list. *)
Theorem empty_corpus_no_match (api_key : option string) (h : heap) :
  (∃ self, __init__ api_key (FileObject (Some [])) h = Ok (self, h)
           ∧ employees_data self = [] ∧ faiss_index self = None)
  ∧ (∃ self, __init__ api_key FileMissing h = Ok (self, h)
             ∧ employees_data self = [] ∧ faiss_index self = None)
  ∧ ∀ self : HRChatbot,
      faiss_index self = None →
      ∀ (key : option string) (message : string) (top_k : nat) (h' : heap),
        search_employees self message top_k h' = Ok ([], h')
        ∧ chat_with_bot self key message h' = Ok ((no_match_message, []), h').
Proof.
  split_and!.
  - rewrite init_file_object. cbn [alloc_all built built_index rbind].
    by eexists.
  - unfold __init__, load_employee_data. unfold mbind', mret'.
    unfold setup_embeddings, setup_openai.
    destruct (truthy api_key); by eexists.
  - intros self Hnone key message top_k h'.
    unfold chat_with_bot, search_employees. rewrite Hnone. done.
Qed.

End Lifecycle.

(** ** Retriever *)

Lemma list_getitem_elem_of {A} (l : list A) (i : Z) (x : A) :
  list_getitem l i = Ok x → x ∈ l.
Proof.
  unfold list_getitem. destruct (_ && _); [|done].
  destruct (l !! _) as [y|] eqn:Hy; [|done].
  intros [= <-]. by eapply list_elem_of_lookup_2.
Qed.

(** A label -1 passes the guard [idx < len(employees_data)] and selects
    the last record, as Python indexes from the end. *)
Example resolve_hits_negative_label :
  resolve_hits ["a"; "b"; "c"] [(1 # 2, 1); (0%Q, -1); (0%Q, 3)]
  = Ok [(1 # 2, "b"); (0%Q, "c")].
Proof. reflexivity. Qed.

Lemma resolve_hits_elem_of {A} (data : list A) (hits : list (Q * Z))
    (cs : list (Q * A)) :
  resolve_hits data hits = Ok cs → Forall (λ c, c.2 ∈ data) cs.
Proof.
  revert cs. induction hits as [|[s idx] hits IH]; intros cs Hcs.
  - injection Hcs as <-. constructor.
  - cbn [resolve_hits] in Hcs. destruct (idx <? _); [|by apply IH].
    destruct (list_getitem data idx) as [x|] eqn:Hx; [|done].
    destruct (resolve_hits data hits) as [rest|]; [|done].
    injection Hcs as <-. constructor; [|by apply IH].
    by eapply list_getitem_elem_of.
Qed.

Lemma copies_insert_fresh (h : heap) (data : list loc) (cs : list (Q * loc))
    (l : loc) (d : dict) :
  heap_ok h data → h !! l = None → Forall (λ c, c.2 ∈ data) cs →
  copies (<[l := d]> h) cs = copies h cs.
Proof.
  intros Hok Hl Hcs. unfold copies. apply list_fmap_ext.
  intros i c Hc. f_equal.
  assert (c.2 ∈ data) as Hin.
  { rewrite Forall_forall in Hcs. eapply Hcs, list_elem_of_lookup_2, Hc. }
  unfold heap_ok in Hok. rewrite Forall_forall in Hok.
  apply lookup_total_insert_ne. intros ->.
  destruct (Hok _ Hin) as [? ?]. congruence.
Qed.

Lemma heap_ok_insert (h : heap) (data : list loc) (l : loc) (d : dict) :
  heap_ok h data → heap_ok (<[l := d]> h) data.
Proof.
  unfold heap_ok. intros Hok. eapply Forall_impl; [exact Hok|].
  intros l' Hl'. cbn beta.
  rewrite lookup_insert_is_Some. destruct (decide (l = l')); auto.
Qed.

Lemma prepare_results_eq (data : list loc) (hits : list (Q * Z))
    (results : list loc) (h : heap) :
  heap_ok h data →
  prepare_results data hits results h
  = match resolve_hits data hits with
    | Ok cs => let '(ls, h') := alloc_all (copies h cs) h in
               Ok (results ++ ls, h')
    | Raise e => Raise e
    end.
Proof.
  revert results h. induction hits as [|[s idx] hits IH]; intros results h Hok.
  - cbn. by rewrite app_nil_r.
  - cbn [prepare_results resolve_hits]. destruct (idx <? _); [|by apply IH].
    unfold mbind' at 1. unfold lift at 1.
    destruct (list_getitem data idx) as [src|e] eqn:Hsrc; [|done].
    cbn [rbind]. unfold mbind' at 1. unfold deref at 1.
    unfold mbind' at 1. unfold new_dict at 1.
    unfold mbind' at 1. unfold setitem at 1.
    rewrite lookup_total_insert_eq, insert_insert_eq.
    rewrite IH by (by apply heap_ok_insert).
    pose proof (resolve_hits_elem_of data hits) as Helem.
    destruct (resolve_hits data hits) as [cs|e]; [|done]. cbn [rbind].
    rewrite (copies_insert_fresh h data cs)
      by (done || apply fresh_lookup_None || by apply Helem).
    change (copies h ((s, src) :: cs))
      with (scored (h !!! src) s :: copies h cs).
    cbn [alloc_all]. unfold scored at 1.
    destruct (alloc_all (copies h cs) _) as [ls h'].
    by rewrite <- app_assoc.
Qed.

Lemma StronglySorted_sublist {A} (R : A → A → Prop) (l1 l2 : list A) :
  l1 `sublist_of` l2 → StronglySorted R l2 → StronglySorted R l1.
Proof.
  induction 1 as [|x l1 l2 Hsub IH|x l1 l2 Hsub IH]; intros Hsorted.
  - constructor.
  - apply StronglySorted_inv in Hsorted as [Hs Hall].
    constructor; [by apply IH|].
    rewrite Forall_forall in Hall |- *. intros y Hy.
    by eapply Hall, elem_of_sublist.
  - apply StronglySorted_inv in Hsorted as [Hs _]. by apply IH.
Qed.

Section Retrieval.

Context `{C : Collaborators}.

Lemma search_unfiltered_eq (self : HRChatbot) (xb : list vec)
    (query : string) (top_k : nat) (h : heap) :
  heap_ok h (employees_data self) →
  search_unfiltered self xb query top_k h
  = match ranked_hits self xb query top_k with
    | Ok cs => Ok (alloc_all (copies h cs) h)
    | Raise e => Raise e
    end.
Proof.
  intros Hok. unfold search_unfiltered, ranked_hits.
  unfold mbind' at 1. unfold lift at 1.
  destruct (encode [query]) as [qe|e]; [|done]. cbn [rbind].
  unfold mbind' at 1. unfold lift at 1.
  destruct (list_getitem _ 0) as [q|e]; [|done]. cbn [rbind].
  unfold mbind' at 1. unfold lift at 1.
  destruct (index_search xb q top_k) as [hits|e]; [|done]. cbn [rbind].
  rewrite prepare_results_eq by done.
  destruct (resolve_hits _ hits) as [cs|e]; [|done].
  by destruct (alloc_all _ h) as [ls h'].
Qed.

Lemma above_threshold_scored (h : heap) (l : loc) (d : dict) (s : Q) :
  h !! l = Some (scored d s) →
  above_threshold l h = Ok (Qltb threshold s, h).
Proof.
  intros Hl. unfold above_threshold, mbind', deref, lift, getitem.
  rewrite lookup_total_alt, Hl. cbn [default from_option]. unfold id, scored.
  by rewrite lookup_insert_eq.
Qed.

Lemma mfilter_above_threshold (h h0 : heap) (ls : list loc)
    (cs : list (Q * loc)) :
  (λ l, h !! l) <$> ls = Some <$> copies h0 cs →
  ∃ kept,
    mfilter above_threshold ls h = Ok (kept, h)
    ∧ kept `sublist_of` ls
    ∧ (λ l, h !! l) <$> kept
      = Some <$> copies h0 (filter (λ c, Qltb threshold c.1) cs).
Proof.
  revert cs. induction ls as [|l ls IH]; intros [|[s src] cs] Hcont;
    try done.
  - exists []. by split_and!.
  - injection Hcont as Hl Hcont.
    destruct (IH cs Hcont) as (kept & Hrun & Hsub & Hkept).
    cbn [mfilter]. unfold mbind' at 1.
    rewrite (above_threshold_scored h l (h0 !!! src) s Hl).
    unfold mbind' at 1. rewrite Hrun. unfold mret'.
    rewrite filter_cons. cbn [fst].
    destruct (Qltb threshold s).
    + exists (l :: kept). rewrite decide_True by exact I.
      split_and!; [done | by constructor |].
      cbn [fmap list_fmap]. unfold copies in *. cbn [fmap list_fmap].
      by f_equal.
    + exists kept. rewrite decide_False by (by intros []).
      split_and!; [done | by constructor | done].
Qed.

(** What a search that reaches its hits does to the heap and returns. *)
Lemma search_employees_spec (self : HRChatbot) (xb : list vec)
    (query : string) (top_k : nat) (h : heap) (cs : list (Q * loc)) :
  heap_ok h (employees_data self) →
  faiss_index self = Some xb →
  ranked_hits self xb query top_k = Ok cs →
  ∃ unfiltered results h',
    search_unfiltered self xb query top_k h = Ok (unfiltered, h')
    ∧ search_employees self query top_k h = Ok (results, h')
    ∧ h ⊆ h'
    ∧ NoDup unfiltered
    ∧ (∀ l, l ∈ unfiltered → h !! l = None)
    ∧ (λ l, h' !! l) <$> unfiltered = Some <$> copies h cs
    ∧ results `sublist_of` unfiltered
    ∧ (λ l, h' !! l) <$> results
      = Some <$> copies h (filter (λ c, Qltb threshold c.1) cs).
Proof.
  intros Hok Hindex Hhits.
  pose proof (search_unfiltered_eq self xb query top_k h Hok) as Hrun.
  rewrite Hhits in Hrun.
  destruct (alloc_all (copies h cs) h) as [unfiltered h'] eqn:Halloc.
  destruct (alloc_all_spec _ _ _ _ Halloc) as (Hsub & Hnd & Hfresh & Hcont).
  destruct (mfilter_above_threshold h' h unfiltered cs Hcont)
    as (results & Hfilter & Hsubl & Hres).
  exists unfiltered, results, h'. split_and!; try done.
  unfold search_employees. rewrite Hindex. unfold mbind'.
  by rewrite Hrun.
Qed.

Lemma search_employees_raises (self : HRChatbot) (xb : list vec)
    (query : string) (top_k : nat) (h : heap) (e : exn) :
  heap_ok h (employees_data self) →
  faiss_index self = Some xb →
  ranked_hits self xb query top_k = Raise e →
  search_employees self query top_k h = Raise e.
Proof.
  intros Hok Hindex Hhits. unfold search_employees. rewrite Hindex.
  unfold mbind'. rewrite search_unfiltered_eq by done. by rewrite Hhits.
Qed.

Lemma Qltb_lt (x y : Q) : Qltb x y = true ↔ (x < y)%Q.
Proof.
  unfold Qltb. rewrite negb_true_iff. split.
  - intros Hle. apply Qnot_le_lt. intros Hyx.
    apply Qle_bool_iff in Hyx. congruence.
  - intros Hlt. destruct (Qle_bool y x) eqn:Hle; [|done].
    apply Qle_bool_iff in Hle. by apply Qle_not_lt in Hle.
Qed.

Lemma copies_elem_of (h h' : heap) (ls : list loc) (cs : list (Q * loc))
    (l : loc) :
  (λ l, h' !! l) <$> ls = Some <$> copies h cs →
  l ∈ ls →
  ∃ c, c ∈ cs ∧ h' !! l = Some (scored (h !!! c.2) c.1).
Proof.
  intros Hcont Hl.
  apply (list_elem_of_fmap_2 (λ l, h' !! l)) in Hl. rewrite Hcont in Hl.
  apply list_elem_of_fmap in Hl as (d & Hd & Hin).
  unfold copies in Hin. apply list_elem_of_fmap in Hin as (c & -> & Hc).
  by exists c.
Qed.

Lemma ranked_hits_elem_of (self : HRChatbot) (xb : list vec)
    (query : string) (top_k : nat) (cs : list (Q * loc)) :
  ranked_hits self xb query top_k = Ok cs →
  Forall (λ c, c.2 ∈ employees_data self) cs.
Proof.
  unfold ranked_hits. destruct (encode [query]); [|done]. cbn [rbind].
  destruct (list_getitem _ 0); [|done]. cbn [rbind].
  destruct (index_search _ _ _); [|done]. cbn [rbind].
  apply resolve_hits_elem_of.
Qed.

(** C1: every candidate [search_employees] returns carries a score
    strictly greater than 0.3, and the returned list is the unfiltered
    result list with some candidates removed, the others in their
    order: if the unfiltered list is in descending score order, so is
    the returned list. *)
Theorem search_employees_above_threshold (self : HRChatbot) (query : string)
    (top_k : nat) (h : heap) (results : list loc) (h' : heap) :
  heap_ok h (employees_data self) →
  search_employees self query top_k h = Ok (results, h') →
  (∀ l, l ∈ results →
     ∃ d s, h' !! l = Some d
            ∧ d !! "similarity_score" = Some (VFloat s)
            ∧ (3 # 10 < s)%Q)
  ∧ ∃ unfiltered,
      match faiss_index self with
      | Some xb =>
          search_unfiltered self xb query top_k h = Ok (unfiltered, h')
      | None => unfiltered = []
      end
      ∧ results `sublist_of` unfiltered
      ∧ (StronglySorted (descending h') unfiltered →
         StronglySorted (descending h') results).
Proof.
  intros Hok Hrun. destruct (faiss_index self) as [xb|] eqn:Hindex.
  - destruct (ranked_hits self xb query top_k) as [cs|e] eqn:Hhits.
    + destruct (search_employees_spec self xb query top_k h cs Hok Hindex
                  Hhits)
        as (unfiltered & results0 & h0 & Hunf & Hrun0 & _ & _ & _ & _
            & Hsub & Hres).
      rewrite Hrun0 in Hrun. injection Hrun as <- <-. split.
      * intros l Hl.
        destruct (copies_elem_of h h0 _ _ l Hres Hl) as (c & Hc & Hcand).
        apply list_elem_of_filter in Hc as [Hpass _].
        exists (scored (h !!! c.2) c.1), c.1. split_and!; [done | |].
        -- unfold scored. by rewrite lookup_insert_eq.
        -- apply Is_true_true in Hpass. by apply Qltb_lt in Hpass.
      * exists unfiltered. split_and!; [done | done |].
        by apply StronglySorted_sublist.
    + rewrite (search_employees_raises self xb query top_k h e) in Hrun
        by done. done.
  - unfold search_employees in Hrun. rewrite Hindex in Hrun.
    injection Hrun as <- <-. split.
    + intros l Hl. by apply elem_of_nil in Hl.
    + exists []. by split_and!.
Qed.

(** C10: a search leaves every dictionary that existed before it as it
    was, in particular every record of the corpus, which therefore never
    acquires a [similarity_score]; every candidate it returns is a new
    dictionary that holds the items of one corpus record together with
    the item [similarity_score].  The attributes of the chatbot
    ([employees_data], [employee_embeddings], [faiss_index]) are not
    assigned by the search, which only reads them. *)
Theorem search_employees_frame (self : HRChatbot) (query : string)
    (top_k : nat) (h : heap) (results : list loc) (h' : heap) :
  heap_ok h (employees_data self) →
  search_employees self query top_k h = Ok (results, h') →
  (∀ l d, h !! l = Some d → h' !! l = Some d)
  ∧ (∀ src, src ∈ employees_data self →
       h' !! src = h !! src
       ∧ ((h !!! src) !! "similarity_score" = None →
          (h' !!! src) !! "similarity_score" = None))
  ∧ (∀ l, l ∈ results →
       h !! l = None
       ∧ ∃ src d s,
           src ∈ employees_data self
           ∧ h !! src = Some d
           ∧ h' !! l = Some (<["similarity_score" := VFloat s]> d)).
Proof.
  intros Hok Hrun.
  assert (h ⊆ h' ∧
          ∀ l, l ∈ results →
            h !! l = None
            ∧ ∃ c, c.2 ∈ employees_data self
                   ∧ h' !! l = Some (scored (h !!! c.2) c.1))
    as [Hsub Hcands].
  { destruct (faiss_index self) as [xb|] eqn:Hindex.
    - destruct (ranked_hits self xb query top_k) as [cs|e] eqn:Hhits.
      + destruct (search_employees_spec self xb query top_k h cs Hok Hindex
                    Hhits)
          as (unfiltered & results0 & h0 & _ & Hrun0 & Hsub & _ & Hfresh & _
              & Hsubl & Hres).
        rewrite Hrun0 in Hrun. injection Hrun as <- <-. split; [done|].
        intros l Hl. split; [by eapply Hfresh, elem_of_sublist|].
        destruct (copies_elem_of h h0 _ _ l Hres Hl) as (c & Hc & Hcand).
        apply list_elem_of_filter in Hc as [_ Hc].
        exists c. split; [|done].
        pose proof (ranked_hits_elem_of _ _ _ _ _ Hhits) as Helem.
        rewrite Forall_forall in Helem. by apply Helem.
      + rewrite (search_employees_raises self xb query top_k h e) in Hrun
          by done. done.
    - unfold search_employees in Hrun. rewrite Hindex in Hrun.
      injection Hrun as <- <-. split; [done|].
      intros l Hl. by apply elem_of_nil in Hl. }
  unfold heap_ok in Hok. rewrite Forall_forall in Hok.
  split_and!.
  - intros l d Hl. by eapply lookup_weaken.
  - intros src Hsrc. destruct (Hok src Hsrc) as [d Hd].
    assert (h' !! src = Some d) as Hd' by (by eapply lookup_weaken).
    split; [congruence|]. by rewrite !lookup_total_alt, Hd, Hd'.
  - intros l Hl. destruct (Hcands l Hl) as (Hnew & c & Hc & Hcand).
    split; [done|]. destruct (Hok _ Hc) as [d Hd].
    exists c.2, d, c.1. split_and!; [done | done |].
    rewrite Hcand. unfold scored. by rewrite lookup_total_alt, Hd.
Qed.

End Retrieval.

(** ** The index of the specification *)

Section FlatIndexProperties.

Variable vec : Type.
Variable inner_product : vec → vec → Q.

Lemma insert_by_score_Permutation (x : Q * Z) (l : list (Q * Z)) :
  insert_by_score x l ≡ₚ x :: l.
Proof.
  induction l as [|y l IH]; [done|]. cbn [insert_by_score].
  destruct (Qle_bool y.1 x.1); [done|].
  rewrite IH. apply Permutation_swap.
Qed.

Lemma sort_by_score_Permutation (l : list (Q * Z)) : sort_by_score l ≡ₚ l.
Proof.
  induction l as [|x l IH]; [done|]. cbn [sort_by_score].
  by rewrite insert_by_score_Permutation, IH.
Qed.

Lemma rank_before_le (a b : Q * Z) : rank_before a b → (b.1 <= a.1)%Q.
Proof.
  intros [Hlt|[Heq _]]; [by apply Qlt_le_weak|].
  rewrite Heq. apply Qle_refl.
Qed.

Lemma insert_by_score_sorted (x : Q * Z) (l : list (Q * Z)) :
  StronglySorted rank_before l →
  Forall (λ y, x.2 < y.2) l →
  StronglySorted rank_before (insert_by_score x l).
Proof.
  induction l as [|y l IH]; intros Hsorted Hlater.
  - repeat constructor.
  - apply StronglySorted_inv in Hsorted as [Hsorted Hy].
    apply Forall_cons in Hlater as [Hxy Hlater].
    cbn [insert_by_score]. destruct (Qle_bool y.1 x.1) eqn:Hle.
    + apply Qle_bool_iff in Hle.
      assert (∀ z, (z.1 <= x.1)%Q → x.2 < z.2 → rank_before x z) as Hrank.
      { intros z Hz Hpos. apply Qle_lt_or_eq in Hz as [Hz|Hz].
        - by left.
        - right. split; [by symmetry | done]. }
      constructor; [by constructor|]. constructor; [by apply Hrank|].
      rewrite Forall_forall in Hy, Hlater |- *. intros z Hz.
      apply Hrank; [|by apply Hlater].
      eapply Qle_trans; [|exact Hle]. by apply rank_before_le, Hy.
    + constructor; [by apply IH|].
      rewrite insert_by_score_Permutation. constructor; [|done].
      left. apply Qnot_le_lt. intros Hyx.
      apply Qle_bool_iff in Hyx. congruence.
Qed.

Lemma sort_by_score_sorted (l : list (Q * Z)) :
  StronglySorted (λ a b, a.2 < b.2) l →
  StronglySorted rank_before (sort_by_score l).
Proof.
  induction l as [|x l IH]; intros Hpos; [constructor|].
  apply StronglySorted_inv in Hpos as [Hpos Hx].
  cbn [sort_by_score]. apply insert_by_score_sorted; [by apply IH|].
  by rewrite sort_by_score_Permutation.
Qed.

Lemma score_from_positions (i : nat) (xb : list vec) (q : vec) :
  (λ c, c.2) <$> score_from vec inner_product i xb q
  = Z.of_nat <$> seq i (length xb).
Proof.
  revert i. induction xb as [|x xb IH]; intros i; [done|].
  cbn [score_from length seq fmap list_fmap snd]. f_equal. apply IH.
Qed.

Lemma score_from_lookup (i : nat) (xb : list vec) (q : vec) (c : Q * Z) :
  c ∈ score_from vec inner_product i xb q →
  ∃ j x, xb !! j = Some x ∧ c = (inner_product q x, Z.of_nat (i + j)).
Proof.
  revert i. induction xb as [|x xb IH]; intros i Hc.
  - by apply elem_of_nil in Hc.
  - cbn [score_from] in Hc. apply elem_of_cons in Hc as [->|Hc].
    + exists 0%nat, x. by rewrite Nat.add_0_r.
    + destruct (IH _ Hc) as (j & y & Hj & ->).
      exists (S j), y. split; [done|]. do 2 f_equal. lia.
Qed.

Lemma score_from_sorted (i : nat) (xb : list vec) (q : vec) :
  StronglySorted (λ a b, a.2 < b.2) (score_from vec inner_product i xb q).
Proof.
  revert i. induction xb as [|x xb IH]; intros i; [constructor|].
  cbn [score_from]. constructor; [apply IH|].
  rewrite Forall_forall. intros c Hc.
  destruct (score_from_lookup _ _ _ _ Hc) as (j & y & _ & ->).
  cbn [snd]. lia.
Qed.

(** The hits of the index: ranked, each the score of a stored row, and
    all the rows when [k] is large enough. *)
Lemma IndexFlatIP_search_spec (xb : list vec) (q : vec) (k : nat) :
  ∃ hits,
    IndexFlatIP_search vec inner_product xb q k = Ok hits
    ∧ StronglySorted rank_before hits
    ∧ Forall (λ c, ∃ j x, xb !! j = Some x
                          ∧ c = (inner_product q x, Z.of_nat j)) hits
    ∧ ((length xb ≤ k)%nat → hits ≡ₚ score_all vec inner_product xb q).
Proof.
  eexists. split; [done|]. split_and!.
  - eapply StronglySorted_sublist; [apply sublist_take|].
    apply sort_by_score_sorted, score_from_sorted.
  - rewrite Forall_forall. intros c Hc.
    eapply elem_of_sublist in Hc; [|apply sublist_take].
    rewrite sort_by_score_Permutation in Hc.
    destruct (score_from_lookup _ _ _ _ Hc) as (j & x & Hj & ->).
    by exists j, x.
  - intros Hk. rewrite take_ge; [apply sort_by_score_Permutation|].
    rewrite sort_by_score_Permutation. unfold score_all.
    rewrite <- (length_fmap (λ c, c.2)), score_from_positions.
    by rewrite length_fmap, length_seq.
Qed.

End FlatIndexProperties.

(** ** Search over the index of the specification *)

Lemma fmap_eq_Forall2 {A B X} (f : A → X) (g : B → X) (l : list A)
    (k : list B) :
  f <$> l = g <$> k → Forall2 (λ x y, f x = g y) l k.
Proof.
  revert k. induction l as [|x l IH]; intros [|y k] Heq;
    simplify_eq/=; constructor; auto.
Qed.

Lemma Forall2_filter_rel {A B} (R : A → B → Prop) (P : A → Prop)
    (P' : B → Prop) `{!∀ x, Decision (P x)} `{!∀ y, Decision (P' y)}
    (l : list A) (k : list B) :
  (∀ x y, R x y → (P x ↔ P' y)) →
  Forall2 R l k → Forall2 R (filter P l) (filter P' k).
Proof.
  intros Hiff. induction 1 as [|x y l k Hxy _ IH]; [constructor|].
  rewrite !filter_cons. specialize (Hiff _ _ Hxy).
  destruct (decide (P x)), (decide (P' y)); try tauto.
  by constructor.
Qed.

Lemma resolve_hits_in_range {A} (data : list A) (hits : list (Q * Z)) :
  Forall (λ c, 0 ≤ c.2 < Z.of_nat (length data)) hits →
  ∃ cs, resolve_hits data hits = Ok cs
        ∧ Forall2 (λ c hit, c.1 = hit.1 ∧ data !! Z.to_nat hit.2 = Some c.2)
            cs hits.
Proof.
  induction 1 as [|[s idx] hits Hidx _ IH]; [by exists []|].
  destruct IH as (cs & Hcs & Hrel). cbn [snd] in Hidx.
  destruct (lookup_lt_is_Some_2 data (Z.to_nat idx)) as [x Hx]; [lia|].
  exists ((s, x) :: cs).
  split; [|constructor; [split; [done | exact Hx] | done]].
  assert ((idx <? Z.of_nat (length data)) = true) as Hlt by lia.
  assert ((idx <? 0) = false) as Hneg by lia.
  assert ((0 <=? idx) = true) as Hnn by lia.
  cbn [resolve_hits]. unfold list_getitem. cbn zeta.
  rewrite Hneg, Hnn, !Hlt. cbn [andb]. rewrite Hx. cbn [rbind].
  by rewrite Hcs.
Qed.

Section FlatSearch.

Context (C : Collaborators).
Variable inner_product : vec → vec → Q.

Local Abbreviation flat := (with_flat_index C inner_product).

Lemma flat_search_spec (self : HRChatbot (C := flat)) (xb : list vec)
    (query : string) (top_k : nat) (h : heap) (q0 : vec) (rest : list vec) :
  heap_ok h (employees_data self) →
  faiss_index self = Some xb →
  length xb = length (employees_data self) →
  encode [query] = Ok (q0 :: rest) →
  ∃ hits unfiltered results h',
    IndexFlatIP_search vec inner_product xb (normalize_L2 q0) top_k = Ok hits
    ∧ search_unfiltered (C := flat) self xb query top_k h
      = Ok (unfiltered, h')
    ∧ search_employees (C := flat) self query top_k h = Ok (results, h')
    ∧ Forall2 (is_candidate h h' (employees_data self)) unfiltered hits
    ∧ Forall2 (is_candidate h h' (employees_data self)) results
        (filter (λ c, Qltb threshold c.1) hits).
Proof.
  intros Hok Hindex Hlen Hq.
  destruct (IndexFlatIP_search_spec vec inner_product xb (normalize_L2 q0)
              top_k) as (hits & Hsearch & _ & Hrange & _).
  destruct (resolve_hits_in_range (employees_data self) hits)
    as (cs & Hcs & Hrel).
  { eapply Forall_impl; [exact Hrange|]. intros c (j & x & Hj & ->).
    apply lookup_lt_Some in Hj. cbn [snd]. lia. }
  assert (ranked_hits (C := flat) self xb query top_k = Ok cs) as Hhits.
  { unfold ranked_hits.
    change (encode (Collaborators := flat) [query]) with (encode [query]).
    rewrite Hq. cbn [rbind].
    change (list_getitem (map normalize_L2 (q0 :: rest)) 0)
      with (Ok (A := vec) (normalize_L2 q0)).
    cbn [rbind].
    change (index_search (Collaborators := flat) xb (normalize_L2 q0) top_k)
      with (IndexFlatIP_search vec inner_product xb (normalize_L2 q0) top_k).
    rewrite Hsearch. by cbn [rbind]. }
  destruct (search_employees_spec (C := flat) self xb query top_k h cs Hok
              Hindex Hhits)
    as (unfiltered & results & h' & Hunf & Hrun & _ & _ & _ & Hcont & _
        & Hres).
  exists hits, unfiltered, results, h'. split_and!; try done.
  - apply fmap_eq_Forall2 in Hcont. unfold copies in Hcont.
    apply Forall2_fmap_r in Hcont.
    eapply Forall2_trans; [|exact Hcont|exact Hrel].
    intros l c [s idx] Hl [Hs Hsrc]. cbn in Hl, Hs, Hsrc.
    unfold heap_ok in Hok. rewrite Forall_forall in Hok.
    destruct (Hok c.2) as [d Hd]; [by eapply list_elem_of_lookup_2|].
    exists c.2, d. split_and!; [done | done |].
    by rewrite Hl, lookup_total_alt, Hd, Hs.
  - apply fmap_eq_Forall2 in Hres. unfold copies in Hres.
    apply Forall2_fmap_r in Hres.
    eapply Forall2_trans; [|exact Hres|].
    2:{ eapply (Forall2_filter_rel _ _ (λ c : Q * Z, Qltb threshold c.1));
          [|exact Hrel].
        intros c hit [Hs _]. by rewrite Hs. }
    intros l c [s idx] Hl [Hs Hsrc]. cbn in Hl, Hs, Hsrc.
    unfold heap_ok in Hok. rewrite Forall_forall in Hok.
    destruct (Hok c.2) as [d Hd]; [by eapply list_elem_of_lookup_2|].
    exists c.2, d. split_and!; [done | done |].
    by rewrite Hl, lookup_total_alt, Hd, Hs.
Qed.

(** C4: over the index of the specification, a search always returns,
    and both the unfiltered and the returned candidates are ranked: the
    scores never increase along the list, and candidates with equal
    scores come in the order of their positions in the corpus. *)
Theorem flat_search_sorted (self : HRChatbot (C := flat)) (xb : list vec)
    (query : string) (top_k : nat) (h : heap) (q0 : vec) (rest : list vec) :
  heap_ok h (employees_data self) →
  faiss_index self = Some xb →
  length xb = length (employees_data self) →
  encode [query] = Ok (q0 :: rest) →
  ∃ unfiltered results h' ranked_all ranked,
    search_unfiltered (C := flat) self xb query top_k h
    = Ok (unfiltered, h')
    ∧ search_employees (C := flat) self query top_k h = Ok (results, h')
    ∧ Forall2 (is_candidate h h' (employees_data self)) unfiltered ranked_all
    ∧ Forall2 (is_candidate h h' (employees_data self)) results ranked
    ∧ StronglySorted rank_before ranked_all
    ∧ StronglySorted rank_before ranked
    ∧ Forall (λ c, ∃ j x, xb !! j = Some x
                 ∧ c = (inner_product (normalize_L2 q0) x, Z.of_nat j))
        ranked_all.
Proof.
  intros Hok Hindex Hlen Hq.
  destruct (flat_search_spec self xb query top_k h q0 rest Hok Hindex Hlen Hq)
    as (hits & unfiltered & results & h' & Hsearch & Hunf & Hrun & Hall
        & Hres).
  destruct (IndexFlatIP_search_spec vec inner_product xb (normalize_L2 q0)
              top_k) as (hits' & Hsearch' & Hsorted & Hscores & _).
  rewrite Hsearch in Hsearch'. injection Hsearch' as <-.
  exists unfiltered, results, h', hits, (filter (λ c, Qltb threshold c.1) hits).
  split_and!; try done.
  eapply StronglySorted_sublist; [apply sublist_filter | done].
Qed.

(** C3: over the index of the specification, when [top_k] is at least
    the number of indexed entries, the index search raises no error and
    returns every indexed entry exactly once: its hits are a permutation
    of the scored entries, whose labels are the positions [0 .. n-1].
    The search that runs it always returns; its unfiltered results hold
    one candidate for each hit, and the candidates left by the selection
    policy are, each once, the entries whose score is strictly greater
    than 0.3. *)
Theorem flat_search_complete (self : HRChatbot (C := flat)) (xb : list vec)
    (query : string) (top_k : nat) (h : heap) (q0 : vec) (rest : list vec) :
  heap_ok h (employees_data self) →
  faiss_index self = Some xb →
  length xb = length (employees_data self) →
  encode [query] = Ok (q0 :: rest) →
  (length xb ≤ top_k)%nat →
  ∃ unfiltered results h' ranked_all ranked,
    index_search (Collaborators := flat) xb (normalize_L2 q0) top_k
    = Ok ranked_all
    ∧ search_unfiltered (C := flat) self xb query top_k h
      = Ok (unfiltered, h')
    ∧ search_employees (C := flat) self query top_k h = Ok (results, h')
    ∧ Forall2 (is_candidate h h' (employees_data self)) unfiltered ranked_all
    ∧ Forall2 (is_candidate h h' (employees_data self)) results ranked
    ∧ ranked_all ≡ₚ score_all vec inner_product xb (normalize_L2 q0)
    ∧ ranked ≡ₚ filter (λ c, Qltb threshold c.1)
                  (score_all vec inner_product xb (normalize_L2 q0))
    ∧ (λ c, c.2) <$> score_all vec inner_product xb (normalize_L2 q0)
      = Z.of_nat <$> seq 0 (length xb).
Proof.
  intros Hok Hindex Hlen Hq Hk.
  destruct (flat_search_spec self xb query top_k h q0 rest Hok Hindex Hlen Hq)
    as (hits & unfiltered & results & h' & Hsearch & Hunf & Hrun & Hall
        & Hres).
  destruct (IndexFlatIP_search_spec vec inner_product xb (normalize_L2 q0)
              top_k) as (hits' & Hsearch' & _ & _ & Hperm).
  rewrite Hsearch in Hsearch'. injection Hsearch' as <-.
  exists unfiltered, results, h', hits, (filter (λ c, Qltb threshold c.1) hits).
  split_and!; try done.
  - by apply Hperm.
  - by rewrite (Hperm Hk).
  - apply score_from_positions.
Qed.

End FlatSearch.

(** ** Determinism of a run *)

Lemma filter_fmap_comm {A B} (f : A → B) (P : B → Prop)
    `{!∀ y, Decision (P y)} (l : list A) :
  filter P (f <$> l) = f <$> filter (P ∘ f) l.
Proof.
  induction l as [|x l IH]; [done|].
  cbn [fmap list_fmap]. rewrite !filter_cons. unfold compose at 1.
  destruct (decide (P (f x))); cbn [fmap list_fmap]; by rewrite IH.
Qed.

Lemma list_getitem_fmap {A B} (f : A → B) (l : list A) (i : Z) :
  list_getitem (f <$> l) i
  = match list_getitem l i with
    | Ok x => Ok (f x)
    | Raise e => Raise e
    end.
Proof.
  unfold list_getitem. rewrite length_fmap, list_lookup_fmap.
  destruct (_ && _); [|done]. by destruct (l !! _).
Qed.

Lemma resolve_hits_fmap {A B} (f : A → B) (data : list A)
    (hits : list (Q * Z)) :
  resolve_hits (f <$> data) hits
  = match resolve_hits data hits with
    | Ok cs => Ok ((λ c, (c.1, f c.2)) <$> cs)
    | Raise e => Raise e
    end.
Proof.
  induction hits as [|[s idx] hits IH]; [done|].
  cbn [resolve_hits]. rewrite length_fmap, list_getitem_fmap, IH.
  destruct (idx <? _); [|done].
  destruct (list_getitem data idx); [|done]. cbn [rbind].
  by destruct (resolve_hits data hits).
Qed.

Section Determinism.

Context `{C : Collaborators}.

Lemma search_deref (self : HRChatbot) (xb : list vec) (recs : list dict)
    (query : string) (top_k : nat) (h : heap) :
  heap_ok h (employees_data self) →
  faiss_index self = Some xb →
  (λ l, h !!! l) <$> employees_data self = recs →
  returned ((let! results := search_employees self query top_k in
             mmap deref results) h)
  = pure_search recs xb query top_k.
Proof.
  intros Hok Hindex Hrecs.
  assert (pure_search recs xb query top_k
          = match ranked_hits self xb query top_k with
            | Ok cs => Ok (copies h (filter (λ c, Qltb threshold c.1) cs))
            | Raise e => Raise e
            end) as ->.
  { unfold pure_search, ranked_hits.
    destruct (encode [query]); [|done]. cbn [rbind].
    destruct (list_getitem _ 0); [|done]. cbn [rbind].
    destruct (index_search _ _ _) as [hits|]; [|done]. cbn [rbind].
    rewrite <- Hrecs, resolve_hits_fmap.
    destruct (resolve_hits _ hits) as [cs|]; [|done]. cbn [rbind].
    f_equal. rewrite filter_fmap_comm. unfold copies.
    by rewrite <- list_fmap_compose. }
  destruct (ranked_hits self xb query top_k) as [cs|e] eqn:Hhits.
  - destruct (search_employees_spec self xb query top_k h cs Hok Hindex Hhits)
      as (unfiltered & results & h' & _ & Hrun & _ & _ & _ & _ & _ & Hres).
    unfold mbind'. rewrite Hrun, mmap_deref. cbn [returned]. f_equal.
    apply (inj (fmap Some)). rewrite <- Hres, <- list_fmap_compose.
    apply list_fmap_ext. intros i l Hl. unfold compose.
    apply (list_elem_of_lookup_2 results) in Hl.
    destruct (copies_elem_of h h' _ _ l Hres Hl) as (c & _ & Hc).
    by rewrite lookup_total_alt, Hc.
  - unfold mbind'.
    by rewrite (search_employees_raises self xb query top_k h e).
Qed.

Lemma run_query_denote (api_key : option string) (file : json_file)
    (query : string) (top_k : nat) (h : heap) :
  returned (run_query api_key file query top_k h)
  = query_candidates file query top_k.
Proof.
  unfold run_query. destruct file as [| |[recs|]]; try done.
  - unfold mbind' at 1. unfold __init__, load_employee_data.
    unfold mbind' at 1. unfold mret' at 1.
    unfold setup_embeddings, setup_openai.
    by destruct (truthy api_key).
  - unfold mbind' at 1. rewrite init_file_object.
    destruct (alloc_all recs h) as [ls h1] eqn:Halloc.
    unfold built. cbn [query_candidates].
    destruct (built_index recs) as [[xb|]|e]; cbn [rbind]; [| |done].
    + apply search_deref; cbn [employees_data faiss_index]; [|done|].
      * destruct (alloc_all_spec _ _ _ _ Halloc) as (_ & _ & _ & Hcont).
        unfold heap_ok. rewrite Forall_forall. intros l Hl.
        apply (list_elem_of_fmap_2 (λ l, h1 !! l)) in Hl.
        rewrite Hcont in Hl. apply list_elem_of_fmap in Hl as (d & -> & _).
        by eexists.
      * by eapply alloc_all_deref.
    + unfold mbind', search_employees. by cbn [faiss_index].
Qed.

(** C8: the candidate list of a run (the records, their scores, their
    order), or the exception it ends with, is a function of the record
    file, the query text and [top_k]: two runs from any two states of
    the heap, with the collaborators given as functions, agree. *)
Theorem run_query_deterministic (api_key1 api_key2 : option string)
    (file : json_file) (query : string) (top_k : nat) (h1 h2 : heap) :
  returned (run_query api_key1 file query top_k h1)
  = returned (run_query api_key2 file query top_k h2).
Proof. by rewrite !run_query_denote. Qed.

End Determinism.

(** ** The concrete engine at work *)

Lemma alloc_all_heap_ok (ds : list dict) (h : heap) :
  heap_ok (alloc_all ds h).2 (alloc_all ds h).1.
Proof.
  destruct (alloc_all ds h) as [ls h'] eqn:Halloc. cbn [fst snd].
  destruct (alloc_all_spec _ _ _ _ Halloc) as (_ & _ & _ & Hcont).
  unfold heap_ok. rewrite Forall_forall. intros l Hl.
  apply (list_elem_of_fmap_2 (λ l, h' !! l)) in Hl.
  rewrite Hcont in Hl. apply list_elem_of_fmap in Hl as (d & -> & _).
  by eexists.
Qed.

Lemma demo_heap_ok : heap_ok demo_heap (employees_data demo_bot).
Proof. apply alloc_all_heap_ok. Qed.

Example demo_init :
  __init__ (C := demo) None (FileObject (Some demo_corpus)) ∅
  = Ok (demo_bot, demo_heap).
Proof.
  rewrite init_file_object. unfold demo_bot, demo_heap, demo_data.
  destruct (alloc_all demo_corpus ∅) as [ls h']. vm_compute. reflexivity.
Qed.

Example demo_search :
  match returned ((let! results := search_employees demo_bot "staff A" 5 in
                   mmap deref results) demo_heap) with
  | Ok candidates => summary <$> candidates
  | Raise _ => []
  end
  = [(Some (VStr "Alice"), Some (VFloat 1));
     (Some (VStr "Bob"), Some (VFloat (1 # 2)));
     (Some (VStr "Carol"), Some (VFloat (1 # 2)))].
Proof. vm_compute. reflexivity. Qed.

Lemma demo_ranked_hits :
  ∃ cs, ranked_hits demo_bot demo_rows "staff A" 5 = Ok cs.
Proof. eexists. vm_compute. reflexivity. Qed.

Lemma search_employees_above_threshold_witness :
  heap_ok demo_heap (employees_data demo_bot)
  ∧ ∃ results h',
      search_employees demo_bot "staff A" 5 demo_heap = Ok (results, h')
      ∧ ∀ l, l ∈ results →
          ∃ d s, h' !! l = Some d
                 ∧ d !! "similarity_score" = Some (VFloat s)
                 ∧ (3 # 10 < s)%Q.
Proof.
  split; [exact demo_heap_ok|].
  destruct demo_ranked_hits as [cs Hhits].
  destruct (search_employees_spec demo_bot demo_rows "staff A" 5 demo_heap cs
              demo_heap_ok eq_refl Hhits)
    as (unfiltered & results & h' & _ & Hrun & _).
  exists results, h'. split; [exact Hrun|].
  apply (search_employees_above_threshold demo_bot "staff A" 5 demo_heap
           results h' demo_heap_ok Hrun).
Defined.

Lemma search_employees_frame_witness :
  heap_ok demo_heap (employees_data demo_bot)
  ∧ ∃ results h',
      search_employees demo_bot "staff A" 5 demo_heap = Ok (results, h')
      ∧ ∀ l d, demo_heap !! l = Some d → h' !! l = Some d.
Proof.
  split; [exact demo_heap_ok|].
  destruct demo_ranked_hits as [cs Hhits].
  destruct (search_employees_spec demo_bot demo_rows "staff A" 5 demo_heap cs
              demo_heap_ok eq_refl Hhits)
    as (unfiltered & results & h' & _ & Hrun & _).
  exists results, h'. split; [exact Hrun|].
  apply (search_employees_frame demo_bot "staff A" 5 demo_heap
           results h' demo_heap_ok Hrun).
Defined.

Lemma demo_rows_length : length demo_rows = length (employees_data demo_bot).
Proof. vm_compute. reflexivity. Qed.

Lemma flat_search_sorted_witness :
  ∃ results h' ranked,
    search_employees (C := with_flat_index demo Qmult) demo_bot "staff A" 5
      demo_heap = Ok (results, h')
    ∧ Forall2 (is_candidate demo_heap h' demo_data) results ranked
    ∧ StronglySorted rank_before ranked.
Proof.
  destruct (flat_search_sorted demo Qmult demo_bot demo_rows "staff A" 5
              demo_heap 1%Q [] demo_heap_ok eq_refl demo_rows_length eq_refl)
    as (unfiltered & results & h' & ranked_all & ranked & _ & Hrun & _
        & Hres & _ & Hsorted & _).
  exists results, h', ranked. split; [exact Hrun|]. split; assumption.
Defined.

Lemma flat_search_complete_witness :
  (length demo_rows ≤ 5)%nat
  ∧ ∃ unfiltered h' ranked_all,
      index_search (Collaborators := with_flat_index demo Qmult) demo_rows
        1%Q 5 = Ok ranked_all
      ∧ search_unfiltered (C := with_flat_index demo Qmult) demo_bot
          demo_rows "staff A" 5 demo_heap = Ok (unfiltered, h')
      ∧ Forall2 (is_candidate demo_heap h' demo_data) unfiltered ranked_all
      ∧ ranked_all ≡ₚ score_all Q Qmult demo_rows 1%Q.
Proof.
  assert (length demo_rows ≤ 5)%nat as Hk by (vm_compute; lia).
  split; [exact Hk|].
  destruct (flat_search_complete demo Qmult demo_bot demo_rows "staff A" 5
              demo_heap 1%Q [] demo_heap_ok eq_refl demo_rows_length eq_refl
              Hk)
    as (unfiltered & results & h' & ranked_all & ranked & Hsearch & Hunf & _
        & Hall & _ & Hperm & _).
  exists unfiltered, h', ranked_all. split_and!; assumption.
Defined.

Lemma empty_corpus_no_match_witness :
  faiss_index unbuilt_bot = None
  ∧ chat_with_bot unbuilt_bot None "staff A" demo_heap
    = Ok ((no_match_message, []), demo_heap).
Proof.
  split; [reflexivity|].
  destruct (empty_corpus_no_match (C := demo) None ∅) as (_ & _ & Hquery).
  apply (Hquery unbuilt_bot eq_refl None "staff A" 5%nat demo_heap).
Defined.

Lemma init_rejects_missing_list_field_witness :
  bob_without_skills ∈ [to_dict 1 alice; bob_without_skills]
  ∧ "skills" ∈ ["skills"; "projects"; "certifications"]
  ∧ bob_without_skills !! "skills" = None
  ∧ ∃ e, __init__ (C := demo) None
           (FileObject (Some [to_dict 1 alice; bob_without_skills])) ∅
         = Raise e.
Proof.
  assert (bob_without_skills ∈ [to_dict 1 alice; bob_without_skills]) as Hin
    by (right; left).
  assert ("skills" ∈ ["skills"; "projects"; "certifications"]) as Hkey
    by left.
  assert (bob_without_skills !! "skills" = None) as Hnone
    by (vm_compute; reflexivity).
  split; [exact Hin|]. split; [exact Hkey|]. split; [exact Hnone|].
  apply (init_rejects_missing_list_field (C := demo) None
           [to_dict 1 alice; bob_without_skills] ∅ bob_without_skills
           "skills" Hin Hkey Hnone).
Defined.

(** * Further properties of the code *)

(** ** Construction of the chatbot *)

Section Construction.

Context `{C : Collaborators}.

(** X1: when the chatbot is built from a record file, the dictionaries
    that existed are untouched, [employees_data] holds new, distinct
    references whose dictionaries are the records of the file in their
    order, the stored embeddings are the rows of the index, the client
    is set exactly when the key is, and there is an index exactly when
    there are records. *)
Theorem init_loads_corpus (api_key : option string) (recs : list dict)
    (h : heap) (self : HRChatbot) (h' : heap) :
  __init__ api_key (FileObject (Some recs)) h = Ok (self, h') →
  h ⊆ h'
  ∧ NoDup (employees_data self)
  ∧ (∀ l, l ∈ employees_data self → h !! l = None)
  ∧ (λ l, h' !! l) <$> employees_data self = Some <$> recs
  ∧ employee_embeddings self = faiss_index self
  ∧ openai_client self = truthy api_key
  ∧ (faiss_index self = None ↔ recs = []).
Proof.
  rewrite init_file_object.
  destruct (alloc_all recs h) as [ls h1] eqn:Halloc.
  destruct (alloc_all_spec _ _ _ _ Halloc) as (Hsub & Hnd & Hfresh & Hcont).
  unfold built. destruct (built_index recs) as [index|e] eqn:Hindex; [|done].
  cbn [rbind]. intros [= <- <-].
  cbn [employees_data employee_embeddings faiss_index openai_client].
  split_and!; try done.
  unfold built_index in Hindex. destruct recs as [|d recs].
  - by injection Hindex as <-.
  - destruct (rmap create_employee_text (d :: recs)); [|done].
    cbn [rbind] in Hindex. destruct (encode _); [|done].
    injection Hindex as <-. done.
Qed.

(** X2: when the embedder returns one row per text, a chatbot built
    from a non-empty record file holds an index with exactly one row
    per employee: row [i] is the normalised embedding of the text of
    record [i]; and every employee is allocated in the heap. *)
Theorem init_builds_index (api_key : option string) (recs : list dict)
    (h : heap) (self : HRChatbot) (h' : heap) :
  (∀ texts rows, encode texts = Ok rows → length rows = length texts) →
  recs ≠ [] →
  __init__ api_key (FileObject (Some recs)) h = Ok (self, h') →
  heap_ok h' (employees_data self)
  ∧ ∃ texts embeddings,
      rmap create_employee_text recs = Ok texts
      ∧ encode texts = Ok embeddings
      ∧ faiss_index self = Some (map normalize_L2 embeddings)
      ∧ length (map normalize_L2 embeddings) = length (employees_data self).
Proof.
  intros Hencode Hne. rewrite init_file_object.
  pose proof (alloc_all_heap_ok recs h) as Hok.
  destruct (alloc_all recs h) as [ls h1] eqn:Halloc. cbn [fst snd] in Hok.
  destruct (alloc_all_spec _ _ _ _ Halloc) as (_ & _ & _ & Hcont).
  unfold built, built_index. destruct recs as [|d recs]; [done|].
  destruct (rmap create_employee_text (d :: recs)) as [texts|] eqn:Htexts;
    [|done].
  cbn [rbind]. destruct (encode texts) as [embeddings|] eqn:Hrows; [|done].
  cbn [rbind]. intros [= <- <-]. cbn [employees_data faiss_index].
  split; [done|]. exists texts, embeddings. split_and!; try done.
  rewrite length_map, (Hencode _ _ Hrows).
  apply (f_equal length) in Hcont. rewrite !length_fmap in Hcont.
  rewrite Hcont. clear -Htexts. revert texts Htexts.
  generalize (d :: recs). intros l. induction l as [|x l IH]; intros texts.
  - by intros [= <-].
  - cbn [rmap]. destruct (create_employee_text x); [|done]. cbn [rbind].
    destruct (rmap create_employee_text l) as [ys|]; [|done]. cbn [rbind].
    intros [= <-]. cbn [length]. f_equal. by apply IH.
Qed.

(** X3: a failure of the embedder on the texts of the records is fatal
    for the construction: [__init__] raises the same exception, and no
    chatbot exists. *)
Theorem init_embedder_failure (api_key : option string) (recs : list dict)
    (h : heap) (texts : list string) (e : exn) :
  recs ≠ [] →
  rmap create_employee_text recs = Ok texts →
  encode texts = Raise e →
  __init__ api_key (FileObject (Some recs)) h = Raise e.
Proof.
  intros Hne Htexts Hfail. rewrite init_file_object.
  destruct (alloc_all recs h) as [ls h1]. unfold built, built_index.
  destruct recs as [|d recs]; [done|]. rewrite Htexts. cbn [rbind].
  by rewrite Hfail.
Qed.

End Construction.

Lemma init_loads_corpus_witness :
  __init__ (C := demo) None (FileObject (Some demo_corpus)) ∅
  = Ok (demo_bot, demo_heap)
  ∧ (λ l, demo_heap !! l) <$> employees_data demo_bot = Some <$> demo_corpus.
Proof.
  split; [exact demo_init|].
  apply (init_loads_corpus (C := demo) None demo_corpus ∅ demo_bot demo_heap
           demo_init).
Defined.

Lemma init_builds_index_witness :
  (∀ texts rows, encode (Collaborators := demo) texts = Ok rows →
                 length rows = length texts)
  ∧ demo_corpus ≠ []
  ∧ heap_ok demo_heap (employees_data demo_bot).
Proof.
  assert (∀ texts rows, encode (Collaborators := demo) texts = Ok rows →
                        length rows = length texts) as Hencode.
  { intros texts rows [= <-]. apply length_map. }
  split; [exact Hencode|]. split; [discriminate|].
  apply (init_builds_index (C := demo) None demo_corpus ∅ demo_bot demo_heap
           Hencode); [discriminate | exact demo_init].
Defined.

Lemma init_embedder_failure_witness :
  [to_dict 1 alice] ≠ []
  ∧ __init__ (C := demo_down) None (FileObject (Some [to_dict 1 alice])) ∅
    = Raise (CollaboratorError "embedder").
Proof.
  split; [discriminate|].
  apply (init_embedder_failure (C := demo_down) None [to_dict 1 alice] ∅
           [normal_text alice]); [discriminate | | reflexivity].
  cbn [rmap].
  rewrite (create_employee_text_fields (to_dict 1 alice) alice)
    by apply has_fields_to_dict.
  reflexivity.
Defined.

(** ** Searches *)

Section Searches.

Context `{C : Collaborators}.

(** X4: over a built index, a failure of the embedder on the query or of
    the index search is not absorbed: [search_employees] raises the
    same exception, and the chat handler answers with HTTP 500. *)
Theorem search_failure_propagates (self : HRChatbot) (xb : list vec)
    (api_key : option string) (query : string) (top_k : nat) (h : heap)
    (e : exn) :
  faiss_index self = Some xb →
  (encode [query] = Raise e
   ∨ ∃ q0 rest, encode [query] = Ok (q0 :: rest)
                ∧ index_search xb (normalize_L2 q0) top_k = Raise e) →
  search_employees self query top_k h = Raise e
  ∧ (top_k = 5%nat →
     chat_with_bot self api_key query h = Raise (HTTPException 500)).
Proof.
  intros Hindex Hfail.
  assert (search_employees self query top_k h = Raise e) as Hrun.
  { unfold search_employees. rewrite Hindex. unfold mbind' at 1.
    unfold search_unfiltered. unfold mbind' at 1. unfold lift at 1.
    destruct Hfail as [->|(q0 & rest & -> & Hsearch)]; [done|].
    cbn [rbind]. unfold mbind' at 1. unfold lift at 1.
    change (list_getitem (map normalize_L2 (q0 :: rest)) 0)
      with (Ok (A := vec) (normalize_L2 q0)).
    cbn [rbind]. unfold mbind' at 1. unfold lift at 1.
    by rewrite Hsearch. }
  split; [done|]. intros ->. unfold chat_with_bot. unfold mbind' at 1.
  by rewrite Hrun.
Qed.

(** X5: what the result loop does with one hit, by its label: a label
    at or beyond the size of the corpus is skipped; a label in range
    copies the record it selects and scores the copy; a negative label
    down to minus the size selects from the end of the corpus, so -1
    copies the last record; a label below that raises [IndexError]. *)
Theorem prepare_results_by_label (data : list loc) (s : Q) (idx : Z)
    (results : list loc) (h : heap) :
  heap_ok h data →
  (Z.of_nat (length data) ≤ idx →
   prepare_results data [(s, idx)] results h = Ok (results, h))
  ∧ (idx < - Z.of_nat (length data) →
     prepare_results data [(s, idx)] results h = Raise IndexError)
  ∧ (- Z.of_nat (length data) ≤ idx < Z.of_nat (length data) →
     ∃ src d,
       data !! Z.to_nat (idx `mod` Z.of_nat (length data)) = Some src
       ∧ h !! src = Some d
       ∧ prepare_results data [(s, idx)] results h
         = Ok (results ++ [fresh_loc h], <[fresh_loc h := scored d s]> h)).
Proof.
  intros Hok. rewrite prepare_results_eq by done.
  cbn [resolve_hits]. unfold list_getitem. cbn zeta. split_and!.
  - intros Hbig.
    replace (idx <? Z.of_nat (length data)) with false by lia.
    cbn. by rewrite app_nil_r.
  - intros Hsmall.
    replace (idx <? Z.of_nat (length data)) with true by lia.
    replace (idx <? 0) with true by lia.
    replace (0 <=? idx + Z.of_nat (length data)) with false by lia.
    done.
  - intros Hin.
    replace (idx <? Z.of_nat (length data)) with true by lia.
    set (j := if idx <? 0 then idx + Z.of_nat (length data) else idx).
    assert (j = idx `mod` Z.of_nat (length data)) as Hj.
    { unfold j. destruct (idx <? 0) eqn:Hneg.
      - apply Z.mod_unique with (q := -1); lia.
      - symmetry. apply Z.mod_small. lia. }
    assert (0 ≤ j < Z.of_nat (length data)) as Hrange.
    { unfold j. destruct (idx <? 0) eqn:Hneg; lia. }
    replace (0 <=? j) with true by lia.
    replace (j <? Z.of_nat (length data)) with true by lia.
    cbn [andb]. rewrite <- Hj.
    destruct (lookup_lt_is_Some_2 data (Z.to_nat j)) as [src Hsrc]; [lia|].
    rewrite Hsrc. cbn [rbind].
    unfold heap_ok in Hok. rewrite Forall_forall in Hok.
    destruct (Hok src) as [d Hd]; [by eapply list_elem_of_lookup_2|].
    exists src, d. split_and!; [done | done |].
    unfold copies. cbn [fmap list_fmap alloc_all fst snd].
    by rewrite lookup_total_alt, Hd.
Qed.

End Searches.

Lemma search_failure_propagates_witness :
  faiss_index demo_down_bot = Some demo_down_rows
  ∧ search_employees demo_down_bot "staff A" 5 demo_heap
    = Raise (CollaboratorError "embedder").
Proof.
  split; [reflexivity|].
  apply (search_failure_propagates (C := demo_down) demo_down_bot
           demo_down_rows None "staff A" 5 demo_heap
           (CollaboratorError "embedder") eq_refl).
  by left.
Defined.

Lemma prepare_results_by_label_witness :
  heap_ok demo_heap demo_data
  ∧ - Z.of_nat (length demo_data) ≤ -1 < Z.of_nat (length demo_data)
  ∧ ∃ src d,
      demo_data !! 3%nat = Some src
      ∧ demo_heap !! src = Some d
      ∧ prepare_results demo_data [(1 # 2, -1)] [] demo_heap
        = Ok ([fresh_loc demo_heap],
              <[fresh_loc demo_heap := scored d (1 # 2)]> demo_heap).
Proof.
  assert (- Z.of_nat (length demo_data) ≤ -1 < Z.of_nat (length demo_data))
    as Hrange by (vm_compute; split; [discriminate | reflexivity]).
  split; [exact demo_heap_ok|]. split; [exact Hrange|].
  apply (prepare_results_by_label demo_data (1 # 2) (-1) [] demo_heap
           demo_heap_ok).
  exact Hrange.
Defined.

(** ** Searches over the index of the specification *)

Lemma Forall_exists_Forall2 {A B} (R : A → B → Prop) (l : list A) :
  Forall (λ x, ∃ y, R x y) l → ∃ k, Forall2 R l k.
Proof.
  induction 1 as [|x l [y Hy] _ [k Hk]]; [by exists []|].
  exists (y :: k). by constructor.
Qed.

Lemma has_fields_scored (d : dict) (r : EmployeeRecord) (s : Q) :
  has_fields d r → has_fields (scored d s) r.
Proof.
  intros (Hn & Hs & He & Hp & Hd & Hsp & Hc & Ha). unfold scored.
  repeat split; by rewrite lookup_insert_ne.
Qed.

Lemma has_fields_heap_ok (h : heap) (data : list loc) :
  Forall (λ l, ∃ r, has_fields (h !!! l) r) data → heap_ok h data.
Proof.
  unfold heap_ok. intros Hshape. eapply Forall_impl; [exact Hshape|].
  intros l [r (Hn & _)]. cbn beta.
  destruct (h !! l) as [d|] eqn:Hl; [by eexists|].
  rewrite lookup_total_alt, Hl in Hn. done.
Qed.

Lemma Forall2_elem_of_l {A B} (R : A → B → Prop) (l : list A) (k : list B)
    (x : A) :
  Forall2 R l k → x ∈ l → ∃ y, y ∈ k ∧ R x y.
Proof.
  induction 1 as [|a b l k Hab _ IH]; intros Hx.
  - by apply elem_of_nil in Hx.
  - apply elem_of_cons in Hx as [->|Hx].
    + exists b. split; [left | done].
    + destruct (IH Hx) as (y & Hy & Hxy). exists y. split; [by right | done].
Qed.

Section Replies.

Context `{C : Collaborators}.

Lemma generate_response_ok (self : HRChatbot) (api_key : option string)
    (query : string) (ds : list dict) (rs : list EmployeeRecord) :
  Forall2 has_fields ds rs →
  ∃ text, generate_response self api_key query ds = Ok text
          ∧ (ds = [] → text = no_match_message).
Proof.
  intros Hds. destruct ds as [|d ds]; [by exists no_match_message|].
  destruct (generate_template_response_ok query (d :: ds) rs Hds)
    as [template Ht].
  unfold generate_response.
  destruct (openai_client self && truthy api_key).
  - destruct (try_except_ok
                (let? context :=
                   prepare_context (d :: ds)
                     ("Based on your query, here are the relevant employees:"
                      +:+ nl +:+ nl) in
                 let prompt := make_prompt query context in
                 let? choices := ChatCompletion_create prompt in
                 list_getitem choices 0)
                (λ _, generate_template_response query (d :: ds)))
      as [text Htext]; [intros _; by exists template|].
    exists text. split; [exact Htext | done].
  - exists template. split; [done | done].
Qed.

End Replies.

Lemma resolve_hits_labels {A} (data : list A) (hits : list (Q * Z)) :
  Forall (λ hit, - Z.of_nat (length data) ≤ hit.2) hits →
  ∃ cs, resolve_hits data hits = Ok cs
        ∧ cs.*1 = (filter (λ hit, hit.2 < Z.of_nat (length data)) hits).*1.
Proof.
  induction 1 as [|[s idx] hits Hidx _ (cs & Hcs & Hrel)]; [by exists []|].
  cbn [snd] in Hidx. cbn [resolve_hits]. rewrite filter_cons. cbn [snd].
  destruct (idx <? Z.of_nat (length data)) eqn:Hlt.
  - apply Z.ltb_lt in Hlt. rewrite decide_True by done.
    unfold list_getitem. cbn zeta.
    set (j := if idx <? 0 then idx + Z.of_nat (length data) else idx).
    assert (0 ≤ j < Z.of_nat (length data)) as Hj
      by (unfold j; destruct (idx <? 0) eqn:Hneg; lia).
    destruct (lookup_lt_is_Some_2 data (Z.to_nat j)) as [x Hx]; [lia|].
    assert ((0 <=? j) && (j <? Z.of_nat (length data)) = true) as -> by lia.
    rewrite Hx. cbn [rbind]. rewrite Hcs. cbn [rbind].
    exists ((s, x) :: cs). split; [done|]. cbn. by rewrite Hrel.
  - apply Z.ltb_ge in Hlt. rewrite decide_False by lia. by exists cs.
Qed.

Lemma length_above_threshold {B B'} (l : list (Q * B)) (l' : list (Q * B')) :
  l.*1 = l'.*1 →
  length (filter (λ c, Qltb threshold c.1) l)
  = length (filter (λ c, Qltb threshold c.1) l').
Proof.
  revert l'. induction l as [|[s x] l IH]; intros [|[s' x'] l'] Hfst;
    try done.
  injection Hfst as -> Hfst. rewrite !filter_cons. cbn [fst].
  destruct (decide (Qltb threshold s')); cbn [length]; by rewrite (IH l').
Qed.

Section HitsToCandidates.

Context `{C : Collaborators}.

(** What a search returns for the hits of the index, when no label is
    below minus the size of the corpus. *)
Lemma search_employees_hits (self : HRChatbot) (xb : list vec)
    (query : string) (top_k : nat) (h : heap) (q0 : vec) (rest : list vec)
    (hits : list (Q * Z)) :
  heap_ok h (employees_data self) →
  faiss_index self = Some xb →
  encode [query] = Ok (q0 :: rest) →
  index_search xb (normalize_L2 q0) top_k = Ok hits →
  Forall (λ hit, - Z.of_nat (length (employees_data self)) ≤ hit.2) hits →
  ∃ cs results h',
    search_employees self query top_k h = Ok (results, h')
    ∧ Forall (λ c, c.2 ∈ employees_data self) cs
    ∧ cs.*1
      = (filter (λ hit, hit.2 < Z.of_nat (length (employees_data self)))
           hits).*1
    ∧ (λ l, h' !! l) <$> results
      = Some <$> copies h (filter (λ c, Qltb threshold c.1) cs).
Proof.
  intros Hok Hindex Hq Hsearch Hlabels.
  destruct (resolve_hits_labels (employees_data self) hits Hlabels)
    as (cs & Hcs & Hfst).
  assert (ranked_hits self xb query top_k = Ok cs) as Hhits.
  { unfold ranked_hits. rewrite Hq. cbn [rbind].
    change (list_getitem (map normalize_L2 (q0 :: rest)) 0)
      with (Ok (A := vec) (normalize_L2 q0)).
    cbn [rbind]. rewrite Hsearch. by cbn [rbind]. }
  destruct (search_employees_spec self xb query top_k h cs Hok Hindex Hhits)
    as (unfiltered & results & h' & _ & Hrun & _ & _ & _ & _ & _ & Hres).
  exists cs, results, h'. split_and!; try done.
  by apply resolve_hits_elem_of in Hcs.
Qed.

(** X6: a search returns one candidate for each hit of the index whose
    label is below the size of the corpus and whose score is above the
    threshold, and no other: with no label below minus the size of the
    corpus, the number of candidates is the number of these hits, so
    never more than the index returned. *)
Theorem search_employees_counts_hits (self : HRChatbot) (xb : list vec)
    (query : string) (top_k : nat) (h : heap) (q0 : vec) (rest : list vec)
    (hits : list (Q * Z)) :
  heap_ok h (employees_data self) →
  faiss_index self = Some xb →
  encode [query] = Ok (q0 :: rest) →
  index_search xb (normalize_L2 q0) top_k = Ok hits →
  Forall (λ hit, - Z.of_nat (length (employees_data self)) ≤ hit.2) hits →
  ∃ results h',
    search_employees self query top_k h = Ok (results, h')
    ∧ length results
      = length (filter (λ hit, Qltb threshold hit.1)
                  (filter (λ hit, hit.2
                                  < Z.of_nat (length (employees_data self)))
                     hits))
    ∧ (length results ≤ length hits)%nat.
Proof.
  intros Hok Hindex Hq Hsearch Hlabels.
  destruct (search_employees_hits self xb query top_k h q0 rest hits Hok
              Hindex Hq Hsearch Hlabels)
    as (cs & results & h' & Hrun & _ & Hfst & Hres).
  exists results, h'. split; [done|].
  assert (length results
          = length (filter (λ hit, Qltb threshold hit.1)
                      (filter (λ hit, hit.2
                                      < Z.of_nat (length (employees_data self)))
                         hits))) as Hcount.
  { rewrite <- (length_fmap (λ l, h' !! l)), Hres, length_fmap.
    unfold copies. rewrite length_fmap.
    by apply length_above_threshold. }
  split; [done|]. rewrite Hcount.
  etrans; [apply length_filter|]. apply length_filter.
Qed.

(** X7: for a corpus of records with the fields of the data model, the
    chat handler answers whenever the embedder embeds the message and
    the index returns hits with no label below minus the size of the
    corpus: the reply comes with at most as many candidates as there are
    hits, each a record of the corpus shape with a score strictly above
    0.3, and with no candidate the reply is the fixed no-match
    message. *)
Theorem chat_with_bot_answers (self : HRChatbot) (xb : list vec)
    (api_key : option string) (message : string) (h : heap) (q0 : vec)
    (rest : list vec) (hits : list (Q * Z)) :
  Forall (λ l, ∃ r, has_fields (h !!! l) r) (employees_data self) →
  faiss_index self = Some xb →
  encode [message] = Ok (q0 :: rest) →
  index_search xb (normalize_L2 q0) 5 = Ok hits →
  Forall (λ hit, - Z.of_nat (length (employees_data self)) ≤ hit.2) hits →
  ∃ text candidates h',
    chat_with_bot self api_key message h = Ok ((text, candidates), h')
    ∧ (length candidates ≤ length hits)%nat
    ∧ (candidates = [] → text = no_match_message)
    ∧ Forall (λ d, ∃ r s, has_fields d r
                          ∧ d !! "similarity_score" = Some (VFloat s)
                          ∧ (3 # 10 < s)%Q) candidates.
Proof.
  intros Hshape Hindex Hq Hsearch Hlabels.
  pose proof (has_fields_heap_ok h _ Hshape) as Hok.
  destruct (search_employees_hits self xb message 5 h q0 rest hits Hok
              Hindex Hq Hsearch Hlabels)
    as (cs & results & h' & Hrun & Hsrc & Hfst & Hres).
  assert (Forall (λ d, ∃ r s, has_fields d r
                              ∧ d !! "similarity_score" = Some (VFloat s)
                              ∧ (3 # 10 < s)%Q)
            ((λ l, h' !!! l) <$> results)) as Hcands.
  { rewrite Forall_fmap, Forall_forall. intros l Hl. cbn.
    destruct (copies_elem_of h h' results _ l Hres Hl) as (c & Hc & Hcand).
    apply list_elem_of_filter in Hc as [Hpass Hc].
    rewrite Forall_forall in Hsrc. rewrite Forall_forall in Hshape.
    destruct (Hshape c.2 (Hsrc c Hc)) as [r Hr].
    exists r, c.1. rewrite lookup_total_alt, Hcand. cbn. split_and!.
    - by apply has_fields_scored.
    - unfold scored. by rewrite lookup_insert_eq.
    - apply Is_true_true in Hpass. by apply Qltb_lt in Hpass. }
  destruct (Forall_exists_Forall2 has_fields ((λ l, h' !!! l) <$> results))
    as [rs Hrs].
  { eapply Forall_impl; [exact Hcands|]. intros d (r & s & Hr & _).
    by exists r. }
  destruct (generate_response_ok self api_key message _ rs Hrs)
    as (text & Htext & Hempty).
  exists text, ((λ l, h' !!! l) <$> results), h'. split_and!; try done.
  - unfold chat_with_bot. unfold mbind' at 1. rewrite Hrun.
    unfold mbind' at 1. rewrite mmap_deref.
    unfold mbind' at 1. unfold lift at 1. by rewrite Htext.
  - rewrite length_fmap, <- (length_fmap (λ l, h' !! l)), Hres, length_fmap.
    unfold copies. rewrite length_fmap.
    rewrite (length_above_threshold cs _ Hfst).
    etrans; [apply length_filter|]. apply length_filter.
Qed.

End HitsToCandidates.

Lemma demo_hits :
  ∃ hits,
    index_search (Collaborators := demo) demo_rows
      (normalize_L2 (Collaborators := demo) 1%Q) 5 = Ok hits
    ∧ Forall (λ hit, - Z.of_nat (length (employees_data demo_bot)) ≤ hit.2)
        hits.
Proof.
  eexists. split; [vm_compute; reflexivity|].
  rewrite <- demo_rows_length.
  repeat (constructor; [by vm_compute|]). constructor.
Qed.

Lemma search_employees_counts_hits_witness :
  ∃ hits results h',
    index_search (Collaborators := demo) demo_rows
      (normalize_L2 (Collaborators := demo) 1%Q) 5 = Ok hits
    ∧ search_employees demo_bot "staff A" 5 demo_heap = Ok (results, h')
    ∧ (length results ≤ length hits)%nat.
Proof.
  destruct demo_hits as (hits & Hsearch & Hlabels).
  destruct (search_employees_counts_hits demo_bot demo_rows "staff A" 5
              demo_heap 1%Q [] hits demo_heap_ok eq_refl eq_refl Hsearch
              Hlabels)
    as (results & h' & Hrun & _ & Hlen).
  exists hits, results, h'. split_and!; assumption.
Defined.

Lemma demo_corpus_shape :
  Forall (λ l, ∃ r, has_fields (demo_heap !!! l) r) (employees_data demo_bot).
Proof.
  pose proof (alloc_all_deref demo_corpus ∅ demo_data demo_heap) as Hderef.
  rewrite Forall_forall. intros l Hl.
  apply (list_elem_of_fmap_2 (λ l, demo_heap !!! l)) in Hl.
  cbn [employees_data demo_bot] in Hl. rewrite Hderef in Hl.
  2:{ unfold demo_data, demo_heap. by destruct (alloc_all demo_corpus ∅). }
  unfold demo_corpus in Hl.
  repeat (apply elem_of_cons in Hl as [->|Hl];
          [eexists; apply has_fields_to_dict|]).
  by apply elem_of_nil in Hl.
Qed.

Lemma chat_with_bot_answers_witness :
  ∃ hits text candidates h',
    index_search (Collaborators := demo) demo_rows
      (normalize_L2 (Collaborators := demo) 1%Q) 5 = Ok hits
    ∧ chat_with_bot demo_bot None "staff A" demo_heap
      = Ok ((text, candidates), h')
    ∧ (length candidates ≤ length hits)%nat.
Proof.
  destruct demo_hits as (hits & Hsearch & Hlabels).
  destruct (chat_with_bot_answers demo_bot demo_rows None "staff A" demo_heap
              1%Q [] hits demo_corpus_shape eq_refl eq_refl Hsearch Hlabels)
    as (text & candidates & h' & Hrun & Hlen & _).
  exists hits, text, candidates, h'. split_and!; assumption.
Defined.

(** ** Replies *)

Section MoreReplies.

Context `{C : Collaborators}.

Lemma prepare_context_ok (ds : list dict) (rs : list EmployeeRecord) :
  Forall2 has_fields ds rs →
  ∀ context, ∃ context', prepare_context ds context = Ok context'.
Proof.
  induction 1 as [|d r ds rs (Hn & Hs & He & Hp & Hd & Hsp & Hc & Ha) _ IH];
    intros context; [by eexists|].
  cbn [prepare_context]. unfold getitem.
  rewrite Hs, Hp, Hn, He, Hd, Hsp, Ha. cbn [rbind join iter_strs].
  apply IH.
Qed.

(** X8: on the generative path, for candidates with the fields of the
    data model, the prompt quotes the query and carries the context;
    when the collaborator returns choices, the reply is the content of
    the first one, verbatim, whatever the others are; when it returns
    no choice at all, the reply is the template response. *)
Theorem generate_openai_response_reply (query : string) (ds : list dict)
    (rs : list EmployeeRecord) :
  Forall2 has_fields ds rs →
  ∃ context,
    prepare_context ds
      ("Based on your query, here are the relevant employees:" +:+ nl +:+ nl)
    = Ok context
    ∧ substring_of (dquote +:+ query +:+ dquote) (make_prompt query context)
    ∧ substring_of context (make_prompt query context)
    ∧ (∀ c others,
         ChatCompletion_create (make_prompt query context) = Ok (c :: others) →
         generate_openai_response query ds = Ok c)
    ∧ (ChatCompletion_create (make_prompt query context) = Ok [] →
       generate_openai_response query ds
       = generate_template_response query ds).
Proof.
  intros Hds.
  destruct (prepare_context_ok ds rs Hds
              ("Based on your query, here are the relevant employees:"
               +:+ nl +:+ nl)) as [context Hcontext].
  exists context. split; [done|]. unfold make_prompt. split_and!.
  - do 6 apply substring_of_app_l. eexists EmptyString, _.
    rewrite string_app_nil_l, !string_app_assoc. reflexivity.
  - piece 12. apply substring_of_refl.
  - intros c others Hreply. unfold generate_openai_response.
    rewrite Hcontext. cbn [rbind]. unfold make_prompt. by rewrite Hreply.
  - intros Hreply. unfold generate_openai_response.
    rewrite Hcontext. cbn [rbind]. unfold make_prompt. by rewrite Hreply.
Qed.

Lemma numbered_entries_ext (ds ds' : list dict) :
  Forall2 (λ d d', ∀ i, numbered_entry i d = numbered_entry i d') ds ds' →
  ∀ i response,
    numbered_entries i ds response = numbered_entries i ds' response.
Proof.
  induction 1 as [|d d' ds ds' Hd _ IH]; intros i response; [done|].
  cbn [numbered_entries]. rewrite Hd.
  destruct (numbered_entry i d'); cbn [rbind]; [apply IH | done].
Qed.

(** X9: with more or fewer than one candidate, the template response
    depends on the number of candidates and on the first three only:
    the candidates from the fourth on are never read. *)
Theorem generate_template_response_first_three (query : string)
    (ds ds' : list dict) :
  length ds ≠ 1%nat →
  length ds' = length ds →
  take 3 ds' = take 3 ds →
  generate_template_response query ds' = generate_template_response query ds.
Proof.
  intros Hmany Hlen Htake.
  rewrite !generate_template_response_many by congruence.
  by rewrite Hlen, Htake.
Qed.

(** X10: the template never reads a field other than the name, the
    skills, the experience, the projects, the department, the
    specialization and the availability, and in the list of several
    candidates not the projects and the department either: removing
    any other field from the candidates leaves the response as it is. *)
Theorem generate_template_response_fields_read (query : string)
    (key : string) (ds : list dict) :
  key ∉ ["skills"; "name"; "experience_years"; "specialization";
         "availability"] →
  (key ∉ ["projects"; "department"] ∨ length ds ≠ 1%nat) →
  generate_template_response query (delete key <$> ds)
  = generate_template_response query ds.
Proof.
  intros Hkey Hcase.
  assert (key ≠ "skills" ∧ key ≠ "name" ∧ key ≠ "experience_years"
          ∧ key ≠ "specialization" ∧ key ≠ "availability")
    as (Hs & Hn & He & Hsp & Ha).
  { split_and!; intros ->; apply Hkey;
      repeat first [apply list_elem_of_here | apply list_elem_of_further]. }
  destruct (decide (length ds = 1%nat)) as [Hone|Hmany].
  - destruct Hcase as [Hother|]; [|done].
    assert (key ≠ "projects" ∧ key ≠ "department") as [Hp Hd].
    { split; intros ->; apply Hother;
        repeat first [apply list_elem_of_here | apply list_elem_of_further]. }
    destruct ds as [|d [|d2 ds]]; try done.
    cbn [fmap list_fmap generate_template_response].
    unfold single_candidate_response, getitem.
    by rewrite !lookup_delete_ne by done.
  - rewrite !generate_template_response_many
      by (by rewrite ?length_fmap).
    cbn zeta. rewrite length_fmap, <- fmap_take.
    rewrite (numbered_entries_ext (delete key <$> take 3 ds) (take 3 ds));
      [done|].
    apply Forall2_fmap_l, Forall_Forall2_diag, Forall_forall.
    intros d _ i. unfold compose, numbered_entry, getitem.
    by rewrite !lookup_delete_ne by done.
Qed.

End MoreReplies.

Lemma generate_openai_response_reply_witness :
  Forall2 has_fields five_dicts five_records
  ∧ generate_openai_response (C := demo_chatty) "who?" five_dicts
    = Ok "Pick Alice.".
Proof.
  split; [exact five_dicts_fields|].
  destruct (generate_openai_response_reply (C := demo_chatty) "who?"
              five_dicts five_records five_dicts_fields)
    as (context & _ & _ & _ & Hfirst & _).
  apply (Hfirst "Pick Alice." ["Pick Bob."]). reflexivity.
Defined.

Lemma generate_template_response_first_three_witness :
  generate_template_response (C := demo) "who?"
    (take 3 five_dicts ++ [∅; ∅])
  = generate_template_response (C := demo) "who?" five_dicts.
Proof.
  apply (generate_template_response_first_three (C := demo) "who?"
           five_dicts (take 3 five_dicts ++ [∅; ∅]));
    [discriminate | reflexivity | reflexivity].
Defined.

Lemma generate_template_response_fields_read_witness :
  generate_template_response (C := demo) "who?"
    (delete "projects" <$> five_dicts)
  = generate_template_response (C := demo) "who?" five_dicts.
Proof.
  apply (generate_template_response_fields_read (C := demo) "who?"
           "projects" five_dicts).
  - intros Hin. repeat (apply elem_of_cons in Hin as [Hin|Hin];
                        [discriminate Hin|]).
    by apply elem_of_nil in Hin.
  - right. discriminate.
Defined.

(** ** Normalisation *)

Section MoreNormalizer.

Context `{C : Collaborators}.

(** X11: for a record with the fields of the data model, removing any
    one of the eight fields makes the normaliser raise [KeyError] for
    exactly that field. *)
Theorem create_employee_text_key_error (d : dict) (r : EmployeeRecord)
    (key : string) :
  has_fields d r →
  key ∈ record_keys →
  create_employee_text (delete key d) = Raise (KeyError key).
Proof.
  intros (Hn & Hs & He & Hp & Hd & Hsp & Hc & Ha) Hkey.
  unfold record_keys in Hkey.
  repeat (apply elem_of_cons in Hkey as [->|Hkey]);
    [| | | | | | | |by apply elem_of_nil in Hkey];
    unfold create_employee_text, getitem;
    rewrite ?lookup_delete_eq, ?lookup_delete_ne by done;
    rewrite ?Hs, ?Hp, ?Hc, ?Hn, ?He, ?Hd, ?Hsp, ?Ha;
    reflexivity.
Qed.

(** X12: the normaliser does not check that a list field is a list: a
    string in the place of the skills is taken character by character,
    and only a number makes it raise [TypeError]. *)
Theorem create_employee_text_skills_not_a_list (d : dict)
    (r : EmployeeRecord) :
  has_fields d r →
  (∀ s, create_employee_text (<["skills" := VStr s]> d)
        = Ok (normal_text (with_skills r (chars s))))
  ∧ (∀ z, create_employee_text (<["skills" := VInt z]> d) = Raise TypeError)
  ∧ (∀ q, create_employee_text (<["skills" := VFloat q]> d)
          = Raise TypeError).
Proof.
  intros (Hn & Hs & He & Hp & Hd & Hsp & Hc & Ha). split_and!.
  - intros s. unfold create_employee_text, getitem.
    rewrite lookup_insert_eq, !lookup_insert_ne by done.
    rewrite Hp, Hc, Hn, He, Hd, Hsp, Ha. cbn [rbind join iter_strs fmt].
    f_equal. apply strip_text.
  - intros z. unfold create_employee_text, getitem.
    by rewrite lookup_insert_eq.
  - intros q. unfold create_employee_text, getitem.
    by rewrite lookup_insert_eq.
Qed.

(** X13: white space at the end of the availability does not reach the
    text: two records that differ only by it normalise to the same
    text. *)
Theorem create_employee_text_trailing_space (d d' : dict)
    (r : EmployeeRecord) (ws : string) :
  has_fields d r →
  has_fields d' (with_availability r (rec_availability r +:+ ws)) →
  rstrip ws = EmptyString →
  create_employee_text d' = create_employee_text d.
Proof.
  intros Hd Hd' Hws.
  rewrite (create_employee_text_fields d r Hd).
  rewrite (create_employee_text_fields d' _ Hd').
  f_equal. unfold normal_text, with_availability.
  cbn [rec_name rec_skills rec_experience_years rec_projects rec_department
       rec_specialization rec_certifications rec_availability].
  rewrite <- (string_app_assoc " " (rec_availability r) ws).
  by rewrite (rstrip_app_spaces _ ws Hws).
Qed.

End MoreNormalizer.

Lemma create_employee_text_key_error_witness :
  has_fields (to_dict 1 alice) alice
  ∧ "department" ∈ record_keys
  ∧ create_employee_text (C := demo) (delete "department" (to_dict 1 alice))
    = Raise (KeyError "department").
Proof.
  assert ("department" ∈ record_keys) as Hkey
    by (unfold record_keys;
        repeat first [apply list_elem_of_here | apply list_elem_of_further]).
  split; [apply has_fields_to_dict|]. split; [exact Hkey|].
  apply (create_employee_text_key_error (C := demo) (to_dict 1 alice) alice
           "department" (has_fields_to_dict 1 alice) Hkey).
Defined.

Lemma create_employee_text_skills_not_a_list_witness :
  has_fields (to_dict 2 bob) bob
  ∧ create_employee_text (C := demo) (<["skills" := VStr "Go"]> (to_dict 2 bob))
    = Ok (normal_text (with_skills bob ["G"; "o"])).
Proof.
  split; [apply has_fields_to_dict|].
  exact (proj1 (create_employee_text_skills_not_a_list (C := demo)
                  (to_dict 2 bob) bob (has_fields_to_dict 2 bob)) "Go").
Defined.

Lemma create_employee_text_trailing_space_witness :
  has_fields (to_dict 2 bob) bob
  ∧ has_fields (to_dict 2 (with_availability bob "busy  "))
      (with_availability bob (rec_availability bob +:+ "  "))
  ∧ rstrip "  " = EmptyString
  ∧ create_employee_text (C := demo)
      (to_dict 2 (with_availability bob "busy  "))
    = create_employee_text (C := demo) (to_dict 2 bob).
Proof.
  assert (has_fields (to_dict 2 (with_availability bob "busy  "))
            (with_availability bob (rec_availability bob +:+ "  "))) as Hd'
    by (repeat split).
  split; [apply has_fields_to_dict|]. split; [exact Hd'|].
  split; [reflexivity|].
  apply (create_employee_text_trailing_space (C := demo) (to_dict 2 bob)
           (to_dict 2 (with_availability bob "busy  ")) bob "  "
           (has_fields_to_dict 2 bob) Hd' eq_refl).
Defined.

(** ** The endpoint [/employees/search] *)

Lemma filter_by_sublist {A} (p : A → outcome bool) (l l' : list A) :
  filter_by p l = Done l' → l' `sublist_of` l.
Proof.
  revert l'. induction l as [|x l IH]; intros l' Hrun.
  - injection Hrun as <-. constructor.
  - cbn [filter_by] in Hrun. destruct (p x) as [keep|]; [|done].
    cbn [obind] in Hrun. destruct (filter_by p l) as [rest|]; [|done].
    injection Hrun as <-. destruct keep; constructor; by apply IH.
Qed.

Lemma filter_by_fails {A} (p : A → outcome bool) (l : list A) (x : A) :
  x ∈ l → (∃ e, p x = Fail e) → ∃ e, filter_by p l = Fail e.
Proof.
  intros Hin [e He]. induction l as [|y l IH]; [by apply elem_of_nil in Hin|].
  cbn [filter_by]. apply elem_of_cons in Hin as [<-|Hin].
  - rewrite He. by eexists.
  - destruct (p y); cbn [obind]; [|by eexists].
    destruct (IH Hin) as [e' ->]. by eexists.
Qed.

Lemma split_on_not_nil (sep : ascii) (s : string) : split_on sep s ≠ [].
Proof.
  destruct s as [|c s]; [done|]. cbn [split_on].
  destruct (Ascii.eqb c sep); [done|]. by destruct (split_on sep s).
Qed.

Section SearchEndpoint.

Context `{C : Collaborators}.

Lemma stage_sublist (stage : list dict → outcome (list dict))
    (l l' : list dict) :
  (stage l = Done l ∨ ∃ p, stage l = filter_by p l) →
  stage l = Done l' → l' `sublist_of` l.
Proof.
  intros [Hid|[p Hp]] Hrun.
  - rewrite Hid in Hrun. by injection Hrun as <-.
  - rewrite Hp in Hrun. by eapply filter_by_sublist.
Qed.

Lemma by_skills_sublist (skills : option string) (l l' : list dict) :
  Api.by_skills skills l = Done l' → l' `sublist_of` l.
Proof.
  apply stage_sublist. destruct skills as [[|c s]|]; [by left | | by left].
  right. by eexists.
Qed.

Lemma by_experience_min_sublist (n : option Z) (l l' : list dict) :
  Api.by_experience_min n l = Done l' → l' `sublist_of` l.
Proof.
  apply stage_sublist. destruct n as [n|]; [|by left].
  unfold Api.by_experience_min. destruct (n =? 0); [by left|].
  right. by eexists.
Qed.

Lemma by_experience_max_sublist (n : option Z) (l l' : list dict) :
  Api.by_experience_max n l = Done l' → l' `sublist_of` l.
Proof.
  apply stage_sublist. destruct n as [n|]; [|by left].
  unfold Api.by_experience_max. destruct (n =? 0); [by left|].
  right. by eexists.
Qed.

Lemma by_department_sublist (department : option string) (l l' : list dict) :
  Api.by_department department l = Done l' → l' `sublist_of` l.
Proof.
  apply stage_sublist. destruct department as [[|c s]|]; [by left | | by left].
  right. by eexists.
Qed.

Lemma by_availability_sublist (availability : option string)
    (l l' : list dict) :
  Api.by_availability availability l = Done l' → l' `sublist_of` l.
Proof.
  apply stage_sublist.
  destruct availability as [[|c s]|]; [by left | | by left].
  right. by eexists.
Qed.

(** X14: in [/employees/search], a filter that is absent, empty or zero
    is not applied: with the five of them so, the handler returns the
    whole corpus and its size, whatever the records hold.  In
    particular a maximal experience of 0 filters nothing. *)
Theorem search_endpoint_without_filter (chatbot : HRChatbot) (h : heap)
    (skills : option string) (experience_min experience_max : option Z)
    (department availability : option string) :
  skills = None ∨ skills = Some EmptyString →
  experience_min = None ∨ experience_min = Some 0 →
  experience_max = None ∨ experience_max = Some 0 →
  department = None ∨ department = Some EmptyString →
  availability = None ∨ availability = Some EmptyString →
  Api.search_employees chatbot h skills experience_min experience_max
    department availability
  = Ok (Api.corpus chatbot h, length (Api.corpus chatbot h)).
Proof. by intros [->| ->] [->| ->] [->| ->] [->| ->] [->| ->]. Qed.

(** X15: whatever the corpus holds and whatever the filters are,
    [/employees/search] either answers with HTTP 500 or returns
    employees of the corpus, in the order of the corpus and without
    repeating any, together with their exact count. *)
Theorem search_endpoint_outcome (chatbot : HRChatbot) (h : heap)
    (skills : option string) (experience_min experience_max : option Z)
    (department availability : option string) :
  Api.search_employees chatbot h skills experience_min experience_max
    department availability = Raise (HTTPException 500)
  ∨ ∃ employees,
      Api.search_employees chatbot h skills experience_min experience_max
        department availability = Ok (employees, length employees)
      ∧ employees `sublist_of` Api.corpus chatbot h.
Proof.
  unfold Api.search_employees. cbn zeta.
  destruct (Api.by_skills skills _) as [l1|] eqn:H1; [|by left].
  cbn [obind].
  destruct (Api.by_experience_min experience_min l1) as [l2|] eqn:H2;
    [|by left].
  cbn [obind].
  destruct (Api.by_experience_max experience_max l2) as [l3|] eqn:H3;
    [|by left].
  cbn [obind].
  destruct (Api.by_department department l3) as [l4|] eqn:H4; [|by left].
  cbn [obind].
  destruct (Api.by_availability availability l4) as [l5|] eqn:H5; [|by left].
  cbn [obind http_500]. right. exists l5. split; [done|].
  apply by_skills_sublist in H1. apply by_experience_min_sublist in H2.
  apply by_experience_max_sublist in H3. apply by_department_sublist in H4.
  apply by_availability_sublist in H5.
  by repeat (etrans; [eassumption|]).
Qed.

(** X16: when the skills filter is in force and a record of the corpus
    has no [skills] field, [/employees/search] answers with HTTP 500,
    whatever the other records and filters are. *)
Theorem search_endpoint_missing_skills (chatbot : HRChatbot) (h : heap)
    (skills : string) (experience_min experience_max : option Z)
    (department availability : option string) (d : dict) :
  skills ≠ EmptyString →
  d ∈ Api.corpus chatbot h →
  d !! "skills" = None →
  Api.search_employees chatbot h (Some skills) experience_min experience_max
    department availability = Raise (HTTPException 500).
Proof.
  intros Hskills Hin Hnone. unfold Api.search_employees. cbn zeta.
  destruct skills as [|c s]; [done|]. cbn [Api.by_skills].
  destruct (filter_by_fails
              (Api.any_skill ((λ x, lower (strip x)) <$> split_on "," (String c s)))
              (Api.corpus chatbot h) d Hin) as [e ->]; [|done].
  pose proof (split_on_not_nil "," (String c s)) as Hne.
  destruct (split_on "," (String c s)) as [|x xs]; [done|].
  cbn [fmap list_fmap Api.any_skill]. unfold getitem. rewrite Hnone.
  by eexists.
Qed.

End SearchEndpoint.

(** *** Case *)

Lemma lower_char_idemp (c : ascii) : lower_char (lower_char c) = lower_char c.
Proof. by destruct c as [[|] [|] [|] [|] [|] [|] [|] [|]]. Qed.

Lemma lower_char_space (c : ascii) : py_isspace (lower_char c) = py_isspace c.
Proof. by destruct c as [[|] [|] [|] [|] [|] [|] [|] [|]]. Qed.

Lemma lower_char_comma (c : ascii) :
  Ascii.eqb (lower_char c) "," = Ascii.eqb c ",".
Proof. by destruct c as [[|] [|] [|] [|] [|] [|] [|] [|]]. Qed.

Lemma lower_idemp (s : string) : lower (lower s) = lower s.
Proof.
  induction s as [|c s IH]; [done|]. cbn [lower].
  by rewrite lower_char_idemp, IH.
Qed.

Lemma lstrip_lower (s : string) : lstrip (lower s) = lower (lstrip s).
Proof.
  induction s as [|c s IH]; [done|]. cbn [lower lstrip].
  rewrite lower_char_space. by destruct (py_isspace c).
Qed.

Lemma rstrip_lower (s : string) : rstrip (lower s) = lower (rstrip s).
Proof.
  induction s as [|c s IH]; [done|]. cbn [lower rstrip].
  rewrite IH, lower_char_space.
  destruct (rstrip s) as [|c' r]; cbn [lower]; [|done].
  by destruct (py_isspace c).
Qed.

Lemma strip_lower (s : string) : strip (lower s) = lower (strip s).
Proof. unfold strip. by rewrite rstrip_lower, lstrip_lower. Qed.

Lemma split_on_lower (s : string) :
  split_on "," (lower s) = lower <$> split_on "," s.
Proof.
  induction s as [|c s IH]; [done|]. cbn [lower split_on].
  rewrite lower_char_comma, IH.
  destruct (Ascii.eqb c ","); [done|].
  pose proof (split_on_not_nil "," s) as Hne.
  by destruct (split_on "," s).
Qed.

Section SearchEndpointCase.

Context `{C : Collaborators}.

(** X17: the filters of [/employees/search] do not see the case of
    their arguments: lowering the skills, the department and the
    availability asked for gives the same answer, whatever the corpus
    holds. *)
Theorem search_endpoint_case_insensitive (chatbot : HRChatbot) (h : heap)
    (skills : option string) (experience_min experience_max : option Z)
    (department availability : option string) :
  Api.search_employees chatbot h (lower <$> skills) experience_min
    experience_max (lower <$> department) (lower <$> availability)
  = Api.search_employees chatbot h skills experience_min experience_max
      department availability.
Proof.
  assert (∀ l, Api.by_skills (lower <$> skills) l = Api.by_skills skills l)
    as Hskills.
  { intros l. destruct skills as [[|c s]|]; try done.
    cbn [fmap option_fmap option_map lower Api.by_skills]. do 2 f_equal.
    change (String (lower_char c) (lower s)) with (lower (String c s)).
    rewrite split_on_lower, <- list_fmap_compose.
    apply list_fmap_ext. intros i x _. unfold compose.
    by rewrite strip_lower, lower_idemp. }
  assert (∀ l, Api.by_department (lower <$> department) l
               = Api.by_department department l) as Hdept.
  { intros l. destruct department as [[|c s]|]; try done.
    cbn [fmap option_fmap option_map lower Api.by_department].
    change (String (lower_char (lower_char c)) (lower (lower s)))
      with (lower (lower (String c s))).
    by rewrite lower_idemp. }
  assert (∀ l, Api.by_availability (lower <$> availability) l
               = Api.by_availability availability l) as Havail.
  { intros l. destruct availability as [[|c s]|]; try done.
    cbn [fmap option_fmap option_map lower Api.by_availability].
    change (String (lower_char (lower_char c)) (lower (lower s)))
      with (lower (lower (String c s))).
    by rewrite lower_idemp. }
  unfold Api.search_employees. cbn zeta. rewrite Hskills.
  destruct (Api.by_skills skills _) as [l1|]; [|done]. cbn [obind].
  destruct (Api.by_experience_min experience_min l1) as [l2|]; [|done].
  cbn [obind].
  destruct (Api.by_experience_max experience_max l2) as [l3|]; [|done].
  cbn [obind]. rewrite Hdept.
  destruct (Api.by_department department l3) as [l4|]; [|done].
  cbn [obind]. by rewrite Havail.
Qed.

End SearchEndpointCase.

(** *** Records with the fields of the data model *)

Lemma filter_all {A} (P : A → Prop) `{!∀ x, Decision (P x)} (l : list A) :
  (∀ x, P x) → filter P l = l.
Proof.
  intros HP. induction l as [|x l IH]; [done|].
  by rewrite filter_cons_True, IH.
Qed.

Lemma Forall2_zip_fields (ds : list dict) (rs : list EmployeeRecord) :
  Forall2 has_fields ds rs →
  (zip ds rs).*1 = ds ∧ Forall (λ dr, has_fields dr.1 dr.2) (zip ds rs).
Proof.
  induction 1 as [|d r ds rs Hd _ [IH1 IH2]]; [by split|].
  cbn [zip zip_with fmap list_fmap fst]. split; [by f_equal|].
  by constructor.
Qed.

Lemma filter_by_records (p : dict → outcome bool) (f : EmployeeRecord → bool)
    (drs : list (dict * EmployeeRecord)) :
  Forall (λ dr, has_fields dr.1 dr.2) drs →
  (∀ d r, has_fields d r → p d = Done (f r)) →
  filter_by p (drs.*1) = Done ((filter (λ dr, f dr.2) drs).*1).
Proof.
  intros Hshape Hp. induction Hshape as [|[d r] drs Hd _ IH]; [done|].
  cbn [fmap list_fmap fst filter_by]. cbn [fst snd] in Hd.
  rewrite (Hp d r Hd). cbn [obind]. rewrite IH. cbn [obind].
  rewrite filter_cons. cbn [snd].
  destruct (f r); [by rewrite decide_True by exact I|].
  by rewrite decide_False by (by intros []).
Qed.

Section SearchEndpointRecords.

Context `{C : Collaborators}.

Lemma any_skill_fields (skill_list : list string) (d : dict)
    (r : EmployeeRecord) :
  has_fields d r →
  Api.any_skill skill_list d = Done (has_skill skill_list r).
Proof.
  intros (_ & Hs & _). unfold has_skill.
  induction skill_list as [|skill sl IH]; [done|].
  cbn [Api.any_skill existsb]. unfold getitem. rewrite Hs.
  cbn [of_result obind iter_strs].
  by destruct (bool_decide (lower skill ∈ lower <$> rec_skills r)).
Qed.

(** X18: for a corpus of records with the fields of the data model,
    [/employees/search] never fails: it returns exactly the employees
    whose record passes every filter in force (one of the skills asked
    for, compared without case; the bounds on the experience; the
    department asked for occurring in the department, without case; the
    availability, without case), in the order of the corpus, with their
    count. *)
Theorem search_endpoint_matches (chatbot : HRChatbot) (h : heap)
    (skills : option string) (experience_min experience_max : option Z)
    (department availability : option string) (rs : list EmployeeRecord) :
  Forall2 has_fields (Api.corpus chatbot h) rs →
  ∃ kept,
    kept = filter (λ dr, matches skills experience_min experience_max
                           department availability dr.2)
             (zip (Api.corpus chatbot h) rs)
    ∧ Api.search_employees chatbot h skills experience_min experience_max
        department availability = Ok (kept.*1, length kept).
Proof.
  intros Hshape. eexists. split; [reflexivity|].
  destruct (Forall2_zip_fields _ _ Hshape) as [Hfst Hdrs].
  unfold Api.search_employees. cbn zeta. rewrite <- Hfst at 1.
  set (drs := zip (Api.corpus chatbot h) rs) in *. clearbody drs.
  set (f1 := λ r : EmployeeRecord,
         match skills with
         | Some (String _ _ as s) =>
             has_skill ((λ x, lower (strip x)) <$> split_on "," s) r
         | _ => true
         end).
  set (f2 := λ r : EmployeeRecord,
         match experience_min with
         | Some n => (n =? 0) || (n <=? rec_experience_years r)
         | None => true
         end).
  set (f3 := λ r : EmployeeRecord,
         match experience_max with
         | Some n => (n =? 0) || (rec_experience_years r <=? n)
         | None => true
         end).
  set (f4 := λ r : EmployeeRecord,
         match department with
         | Some (String _ _ as s) =>
             contains (lower s) (lower (rec_department r))
         | _ => true
         end).
  set (f5 := λ r : EmployeeRecord,
         match availability with
         | Some (String _ _ as s) =>
             String.eqb (lower (rec_availability r)) (lower s)
         | _ => true
         end).
  assert (∀ drs, Forall (λ dr, has_fields dr.1 dr.2) drs →
            Api.by_skills skills (drs.*1)
            = Done ((filter (λ dr, f1 dr.2) drs).*1)) as H1.
  { intros l Hl. unfold f1. destruct skills as [[|c s]|].
    - by rewrite filter_all.
    - cbn [Api.by_skills].
      apply (filter_by_records _
               (has_skill
                  ((λ x, lower (strip x)) <$> split_on "," (String c s)))
               l Hl).
      intros d r. apply any_skill_fields.
    - by rewrite filter_all. }
  assert (∀ drs, Forall (λ dr, has_fields dr.1 dr.2) drs →
            Api.by_experience_min experience_min (drs.*1)
            = Done ((filter (λ dr, f2 dr.2) drs).*1)) as H2.
  { intros l Hl. unfold f2, Api.by_experience_min.
    destruct experience_min as [n|]; [|by rewrite filter_all].
    destruct (n =? 0); [by rewrite filter_all|]. cbn [orb].
    apply (filter_by_records _ (λ r, n <=? rec_experience_years r) l Hl).
    intros d r (_ & _ & He & _). unfold getitem. by rewrite He. }
  assert (∀ drs, Forall (λ dr, has_fields dr.1 dr.2) drs →
            Api.by_experience_max experience_max (drs.*1)
            = Done ((filter (λ dr, f3 dr.2) drs).*1)) as H3.
  { intros l Hl. unfold f3, Api.by_experience_max.
    destruct experience_max as [n|]; [|by rewrite filter_all].
    destruct (n =? 0); [by rewrite filter_all|]. cbn [orb].
    apply (filter_by_records _ (λ r, rec_experience_years r <=? n) l Hl).
    intros d r (_ & _ & He & _). unfold getitem. by rewrite He. }
  assert (∀ drs, Forall (λ dr, has_fields dr.1 dr.2) drs →
            Api.by_department department (drs.*1)
            = Done ((filter (λ dr, f4 dr.2) drs).*1)) as H4.
  { intros l Hl. unfold f4. destruct department as [[|c s]|].
    - by rewrite filter_all.
    - cbn [Api.by_department].
      apply (filter_by_records _
               (λ r, contains (lower (String c s)) (lower (rec_department r)))
               l Hl).
      intros d r (_ & _ & _ & _ & Hd & _). unfold getitem. by rewrite Hd.
    - by rewrite filter_all. }
  assert (∀ drs, Forall (λ dr, has_fields dr.1 dr.2) drs →
            Api.by_availability availability (drs.*1)
            = Done ((filter (λ dr, f5 dr.2) drs).*1)) as H5.
  { intros l Hl. unfold f5. destruct availability as [[|c s]|].
    - by rewrite filter_all.
    - cbn [Api.by_availability].
      apply (filter_by_records _
               (λ r, String.eqb (lower (rec_availability r))
                       (lower (String c s))) l Hl).
      intros d r (_ & _ & _ & _ & _ & _ & _ & Ha). unfold getitem.
      by rewrite Ha.
    - by rewrite filter_all. }
  assert (∀ (P : dict * EmployeeRecord → Prop) `{!∀ x, Decision (P x)} l,
            Forall (λ dr, has_fields dr.1 dr.2) l →
            Forall (λ dr, has_fields dr.1 dr.2) (filter P l)) as Hkeep.
  { intros P ? l Hl. rewrite Forall_forall in Hl |- *. intros dr Hdr.
    apply list_elem_of_filter in Hdr as [_ Hdr]. by apply Hl. }
  rewrite H1 by done. cbn [obind].
  rewrite H2 by (by apply Hkeep). cbn [obind].
  rewrite H3 by (by do 2 apply Hkeep). cbn [obind].
  rewrite H4 by (by do 3 apply Hkeep). cbn [obind].
  rewrite H5 by (by do 4 apply Hkeep). cbn [obind http_500].
  rewrite !list_filter_filter, length_fmap.
  rewrite (list_filter_iff _
             (λ dr, matches skills experience_min experience_max department
                      availability dr.2)); [done|].
  intros [d r]. cbn [snd]. unfold matches.
  fold (f1 r) (f2 r) (f3 r) (f4 r) (f5 r).
  destruct (f1 r), (f2 r), (f3 r), (f4 r), (f5 r); cbn; tauto.
Qed.

End SearchEndpointRecords.

Lemma demo_corpus_eq : Api.corpus demo_bot demo_heap = demo_corpus.
Proof.
  unfold Api.corpus. cbn [employees_data demo_bot].
  apply (alloc_all_deref demo_corpus ∅). unfold demo_data, demo_heap.
  by destruct (alloc_all demo_corpus ∅).
Qed.

Lemma gap_corpus_eq : Api.corpus gap_bot gap_heap = gap_corpus.
Proof.
  unfold Api.corpus. cbn [employees_data gap_bot].
  apply (alloc_all_deref gap_corpus ∅). unfold gap_data, gap_heap.
  by destruct (alloc_all gap_corpus ∅).
Qed.

Lemma demo_corpus_fields :
  Forall2 has_fields (Api.corpus demo_bot demo_heap) [alice; bob; carol; dave].
Proof.
  rewrite demo_corpus_eq. unfold demo_corpus.
  repeat (constructor; [apply has_fields_to_dict|]). constructor.
Qed.

Lemma search_endpoint_without_filter_witness :
  Api.search_employees demo_bot demo_heap (Some EmptyString) None (Some 0)
    None None
  = Ok (Api.corpus demo_bot demo_heap, length (Api.corpus demo_bot demo_heap)).
Proof.
  apply (search_endpoint_without_filter demo_bot demo_heap (Some EmptyString)
           None (Some 0) None None);
    [by right | by left | by right | by left | by left].
Defined.

Lemma search_endpoint_missing_skills_witness :
  "Python" ≠ EmptyString
  ∧ bob_without_skills ∈ Api.corpus gap_bot gap_heap
  ∧ bob_without_skills !! "skills" = None
  ∧ Api.search_employees gap_bot gap_heap (Some "Python") None None None None
    = Raise (HTTPException 500).
Proof.
  assert (bob_without_skills ∈ Api.corpus gap_bot gap_heap) as Hin
    by (rewrite gap_corpus_eq; right; left).
  assert (bob_without_skills !! "skills" = None) as Hnone
    by (vm_compute; reflexivity).
  split; [discriminate|]. split; [exact Hin|]. split; [exact Hnone|].
  apply (search_endpoint_missing_skills gap_bot gap_heap "Python" None None
           None None bob_without_skills); [discriminate | exact Hin | exact Hnone].
Defined.

Lemma search_endpoint_matches_witness :
  Forall2 has_fields (Api.corpus demo_bot demo_heap) [alice; bob; carol; dave]
  ∧ ∃ kept,
      kept = filter (λ dr, matches (Some "PYTHON , java") (Some 3) (Some 0)
                             None None dr.2)
               (zip (Api.corpus demo_bot demo_heap) [alice; bob; carol; dave])
      ∧ Api.search_employees demo_bot demo_heap (Some "PYTHON , java")
          (Some 3) (Some 0) None None = Ok (kept.*1, length kept).
Proof.
  split; [exact demo_corpus_fields|].
  apply (search_endpoint_matches demo_bot demo_heap (Some "PYTHON , java")
           (Some 3) (Some 0) None None [alice; bob; carol; dave]
           demo_corpus_fields).
Defined.

(** ** The endpoint [/employees/{employee_id}] *)

Section EmployeeEndpoint.

Context `{C : Collaborators}.

Lemma first_with_id_found (employees : list dict) (employee_id : Z)
    (emp : dict) :
  Api.first_with_id employees employee_id = Done (Some emp) →
  emp ∈ employees
  ∧ ∃ v, emp !! "id" = Some v ∧ value_eq_int v employee_id = true.
Proof.
  induction employees as [|d ds IH]; [done|].
  cbn [Api.first_with_id]. unfold getitem.
  destruct (d !! "id") as [v|] eqn:Hid; [|done]. cbn [of_result obind].
  destruct (value_eq_int v employee_id) eqn:Heq.
  - intros [= <-]. split; [left | by exists v].
  - intros Hrest. destruct (IH Hrest) as [Hin Hv]. split; [by right | done].
Qed.

(** X19: [/employees/{employee_id}] never answers 404.  When it returns
    an employee, this is a record of the corpus whose [id] equals the
    number asked for, the first one in the corpus when every record
    before it carries another [id]; when no record of the corpus has
    the number, the 404 raised inside the [try] is caught there and
    the handler answers with HTTP 500, as it does for every failure. *)
Theorem get_employee_outcome (chatbot : HRChatbot) (h : heap)
    (employee_id : Z) :
  (∀ e, Api.get_employee chatbot h employee_id = Raise e →
        e = HTTPException 500)
  ∧ (∀ emp, Api.get_employee chatbot h employee_id = Ok emp →
       emp ∈ Api.corpus chatbot h
       ∧ ∃ v, emp !! "id" = Some v ∧ value_eq_int v employee_id = true)
  ∧ (Forall (λ d, ∃ v, d !! "id" = Some v
                       ∧ value_eq_int v employee_id = false)
       (Api.corpus chatbot h) →
     Api.get_employee chatbot h employee_id = Raise (HTTPException 500))
  ∧ (∀ before emp after v,
       Api.corpus chatbot h = before ++ emp :: after →
       Forall (λ d, ∃ v, d !! "id" = Some v
                         ∧ value_eq_int v employee_id = false) before →
       emp !! "id" = Some v →
       value_eq_int v employee_id = true →
       Api.get_employee chatbot h employee_id = Ok emp).
Proof.
  unfold Api.get_employee. generalize (Api.corpus chatbot h). intros ds.
  split_and!.
  - intros e. destruct (Api.first_with_id ds employee_id) as [[emp|]|];
      cbn [obind http_500]; [|by intros [= <-]..].
    destruct (decide (emp = ∅)); cbn [http_500]; [by intros [= <-] | done].
  - intros emp.
    destruct (Api.first_with_id ds employee_id) as [[emp'|]|] eqn:Hfind;
      cbn [obind http_500]; [|done..].
    destruct (decide (emp' = ∅)); cbn [http_500]; [done|].
    intros [= <-]. by apply first_with_id_found.
  - intros Hnone.
    assert (Api.first_with_id ds employee_id = Done None) as ->; [|done].
    induction Hnone as [|d ds' (v & Hid & Hne) _ IH]; [done|].
    cbn [Api.first_with_id]. unfold getitem. rewrite Hid.
    cbn [of_result obind]. by rewrite Hne.
  - intros before emp after v -> Hbefore Hid Heq.
    assert (Api.first_with_id (before ++ emp :: after) employee_id
            = Done (Some emp)) as ->.
    { induction Hbefore as [|d ds' (w & Hw & Hne) _ IH].
      - cbn [app Api.first_with_id]. unfold getitem. rewrite Hid.
        cbn [of_result obind]. by rewrite Heq.
      - cbn [app Api.first_with_id]. unfold getitem. rewrite Hw.
        cbn [of_result obind]. by rewrite Hne. }
    cbn [obind]. destruct (decide (emp = ∅)) as [->|]; [|done].
    by rewrite lookup_empty in Hid.
Qed.

End EmployeeEndpoint.

Lemma get_employee_outcome_witness :
  Forall (λ d, ∃ v, d !! "id" = Some v ∧ value_eq_int v 9 = false)
    (Api.corpus demo_bot demo_heap)
  ∧ Api.get_employee demo_bot demo_heap 9 = Raise (HTTPException 500).
Proof.
  assert (Forall (λ d, ∃ v, d !! "id" = Some v ∧ value_eq_int v 9 = false)
            (Api.corpus demo_bot demo_heap)) as Hnone.
  { rewrite demo_corpus_eq. unfold demo_corpus.
    repeat (constructor; [eexists; split; [reflexivity | reflexivity]|]).
    constructor. }
  split; [exact Hnone|].
  destruct (get_employee_outcome demo_bot demo_heap 9) as (_ & _ & H500 & _).
  exact (H500 Hnone).
Defined.

(** ** The endpoint [/stats] *)

Section Counting.

Context {K : Type} (eqb : K → K → bool).
Hypothesis eqb_eq : ∀ a b, eqb a b = true ↔ a = b.

Lemma eqb_refl' (a : K) : eqb a a = true.
Proof. by apply eqb_eq. Qed.

Lemma count_for_bump (k k' : K) (m : list (K * nat)) :
  count_for eqb k' (bump eqb k m)
  = if eqb k k' then S (count_for eqb k' m) else count_for eqb k' m.
Proof.
  induction m as [|[k0 n] m IH].
  - cbn. by destruct (eqb k k').
  - cbn [bump count_for]. destruct (eqb k0 k) eqn:H0.
    + apply eqb_eq in H0 as ->. cbn [count_for].
      by destruct (eqb k k').
    + cbn [count_for]. destruct (eqb k0 k') eqn:H1; [|exact IH].
      apply eqb_eq in H1 as ->. destruct (eqb k k') eqn:H2; [|done].
      apply eqb_eq in H2 as ->. by rewrite eqb_refl' in H0.
Qed.

Lemma bump_keys (k : K) (m : list (K * nat)) :
  fst <$> bump eqb k m = fst <$> m
  ∨ (k ∉ fst <$> m) ∧ fst <$> bump eqb k m = (fst <$> m) ++ [k].
Proof.
  induction m as [|[k0 n] m IH]; [right; split; [apply not_elem_of_nil|done]|].
  cbn [bump]. destruct (eqb k0 k) eqn:H0; [by left|].
  cbn [fmap list_fmap fst]. destruct IH as [->|[Hk ->]]; [by left|].
  right. split; [|done]. rewrite not_elem_of_cons. split; [|done].
  intros ->. by rewrite eqb_refl' in H0.
Qed.

Lemma bump_NoDup (k : K) (m : list (K * nat)) :
  NoDup m.*1 → NoDup (bump eqb k m).*1.
Proof.
  intros Hnd. destruct (bump_keys k m) as [->|[Hk ->]]; [done|].
  apply NoDup_app. split_and!; [done | | apply NoDup_singleton].
  intros x Hx Hx'. apply list_elem_of_singleton in Hx' as ->. done.
Qed.

Lemma bump_sum (k : K) (m : list (K * nat)) :
  sum_list (bump eqb k m).*2 = S (sum_list m.*2).
Proof.
  induction m as [|[k0 n] m IH]; [done|]. cbn [bump].
  destruct (eqb k0 k); rewrite !fmap_cons; cbn [snd sum_list sum_list_with];
    rewrite ?IH; change (id (S n)) with (S n); change (id n) with n; lia.
Qed.

Lemma count_for_elem_of (k : K) (n : nat) (m : list (K * nat)) :
  NoDup m.*1 → (k, n) ∈ m → count_for eqb k m = n.
Proof.
  induction m as [|[k0 n0] m IH]; intros Hnd Hin;
    [by apply elem_of_nil in Hin|].
  cbn [fmap list_fmap fst] in Hnd. apply NoDup_cons in Hnd as [Hk0 Hnd].
  cbn [count_for]. apply elem_of_cons in Hin as [[= <- <-]|Hin].
  - by rewrite eqb_refl'.
  - destruct (eqb k0 k) eqn:H0; [|by apply IH].
    apply eqb_eq in H0 as ->. exfalso. apply Hk0.
    by apply (list_elem_of_fmap_2 fst) in Hin.
Qed.

Lemma count_for_positive (k : K) (m : list (K * nat)) :
  count_for eqb k m ≠ 0%nat → (k, count_for eqb k m) ∈ m.
Proof.
  induction m as [|[k0 n0] m IH]; [done|]. cbn [count_for].
  destruct (eqb k0 k) eqn:H0.
  - apply eqb_eq in H0 as ->. intros _. left.
  - intros Hpos. right. by apply IH.
Qed.

End Counting.

Lemma string_eqb_eq (a b : string) : String.eqb a b = true ↔ a = b.
Proof. apply String.eqb_eq. Qed.

Lemma occurrences_cons (x y : string) (l : list string) :
  occurrences x (y :: l)
  = if String.eqb y x then S (occurrences x l) else occurrences x l.
Proof.
  unfold occurrences. rewrite filter_cons.
  destruct (String.eqb y x) eqn:Heq.
  - apply String.eqb_eq in Heq. by rewrite decide_True.
  - apply String.eqb_neq in Heq. by rewrite decide_False.
Qed.

Lemma foldl_bump_count (k : string) (l : list string)
    (m : list (string * nat)) :
  count_for String.eqb k (foldl (λ m x, bump String.eqb x m) m l)
  = (count_for String.eqb k m + occurrences k l)%nat.
Proof.
  revert m. induction l as [|x l IH]; intros m.
  - cbn. unfold occurrences. cbn. lia.
  - cbn [foldl]. rewrite IH, (count_for_bump _ string_eqb_eq).
    rewrite occurrences_cons. destruct (String.eqb x k); lia.
Qed.

Lemma foldl_bump_NoDup (l : list string) (m : list (string * nat)) :
  NoDup m.*1 → NoDup (foldl (λ m x, bump String.eqb x m) m l).*1.
Proof.
  revert m. induction l as [|x l IH]; intros m Hnd; [done|].
  cbn [foldl]. by apply IH, (bump_NoDup _ string_eqb_eq).
Qed.

Lemma foldl_bump_sum (l : list string) (m : list (string * nat)) :
  sum_list (foldl (λ m x, bump String.eqb x m) m l).*2
  = (sum_list m.*2 + length l)%nat.
Proof.
  revert m. induction l as [|x l IH]; intros m; [cbn; lia|].
  cbn [foldl length]. rewrite IH, bump_sum. lia.
Qed.

Lemma insert_by_count_Permutation {K} (x : K * nat) (l : list (K * nat)) :
  insert_by_count x l ≡ₚ x :: l.
Proof.
  induction l as [|y l IH]; [done|]. cbn [insert_by_count].
  destruct (y.2 <=? x.2)%nat; [done|].
  rewrite IH. apply Permutation_swap.
Qed.

Lemma sort_by_count_Permutation {K} (l : list (K * nat)) :
  sort_by_count l ≡ₚ l.
Proof.
  induction l as [|x l IH]; [done|]. cbn [sort_by_count].
  by rewrite insert_by_count_Permutation, IH.
Qed.

Lemma insert_by_count_sorted {K} (x : K * nat) (l : list (K * nat)) :
  StronglySorted (λ a b, (b.2 ≤ a.2)%nat) l →
  StronglySorted (λ a b, (b.2 ≤ a.2)%nat) (insert_by_count x l).
Proof.
  induction l as [|y l IH]; intros Hsorted; [repeat constructor|].
  apply StronglySorted_inv in Hsorted as [Hsorted Hy].
  cbn [insert_by_count]. destruct (y.2 <=? x.2)%nat eqn:Hle.
  - apply Nat.leb_le in Hle. constructor; [by constructor|].
    constructor; [done|]. eapply Forall_impl; [exact Hy|].
    intros z Hz. cbn beta in *. lia.
  - apply Nat.leb_gt in Hle. constructor; [by apply IH|].
    rewrite insert_by_count_Permutation. constructor; [lia | done].
Qed.

Lemma sort_by_count_sorted {K} (l : list (K * nat)) :
  StronglySorted (λ a b, (b.2 ≤ a.2)%nat) (sort_by_count l).
Proof.
  induction l as [|x l IH]; [constructor|].
  cbn [sort_by_count]. by apply insert_by_count_sorted.
Qed.

Lemma bump_positive {K} (eqb : K → K → bool) (k : K) (m : list (K * nat)) :
  Forall (λ kn, kn.2 ≠ 0%nat) m → Forall (λ kn, kn.2 ≠ 0%nat) (bump eqb k m).
Proof.
  induction 1 as [|[k0 n] m Hn Hm IH]; [by repeat constructor|].
  cbn [bump]. destruct (eqb k0 k); constructor; done.
Qed.

Lemma foldl_bump_positive (l : list string) (m : list (string * nat)) :
  Forall (λ kn, kn.2 ≠ 0%nat) m →
  Forall (λ kn, kn.2 ≠ 0%nat) (foldl (λ m x, bump String.eqb x m) m l).
Proof.
  revert m. induction l as [|x l IH]; intros m Hm; [done|].
  cbn [foldl]. by apply IH, bump_positive.
Qed.

(** The pairs of the dict that counts the items of [l]. *)
Lemma foldl_bump_elem_of (k : string) (n : nat) (l : list string) :
  (k, n) ∈ foldl (λ m x, bump String.eqb x m) [] l
  ↔ n = occurrences k l ∧ n ≠ 0%nat.
Proof.
  pose proof (foldl_bump_count k l []) as Hcount. cbn [count_for] in Hcount.
  split.
  - intros Hin. split.
    + rewrite <- (count_for_elem_of _ string_eqb_eq k n _
                    (foldl_bump_NoDup l [] (NoDup_nil_2)) Hin).
      by rewrite Hcount.
    + pose proof (foldl_bump_positive l [] (Forall_nil_2 _)) as Hpos.
      rewrite Forall_forall in Hpos. exact (Hpos _ Hin).
  - cbn [Nat.add] in Hcount. intros [-> Hpos]. rewrite <- Hcount.
    apply (count_for_positive _ string_eqb_eq). by rewrite Hcount.
Qed.

Lemma sorted_app_elem_of {A} (R : A → A → Prop) (l1 l2 : list A) (a b : A) :
  StronglySorted R (l1 ++ l2) → a ∈ l1 → b ∈ l2 → R a b.
Proof.
  induction l1 as [|x l1 IH]; intros Hsorted Ha Hb;
    [by apply elem_of_nil in Ha|].
  cbn [app] in Hsorted. apply StronglySorted_inv in Hsorted as [Hs Hx].
  apply elem_of_cons in Ha as [->|Ha]; [|by apply IH].
  rewrite Forall_forall in Hx. apply Hx, elem_of_app. by right.
Qed.

Lemma bump_as_keys (k : string) (m : list (string * nat)) :
  bump key_eqb (VStr k) (as_keys m) = as_keys (bump String.eqb k m).
Proof.
  induction m as [|[k0 n] m IH]; [done|].
  unfold as_keys in *. cbn [fmap list_fmap bump fst snd key_eqb].
  destruct (String.eqb k0 k); [done|]. by rewrite IH.
Qed.

Lemma foldl_count_skills (rs : list EmployeeRecord)
    (sm : list (string * nat)) :
  foldl (λ m r, Api.count_skills (rec_skills r) m) sm rs
  = foldl (λ m s, bump String.eqb s m) sm (mjoin (rec_skills <$> rs)).
Proof.
  revert sm. induction rs as [|r rs IH]; intros sm; [done|].
  cbn [fmap list_fmap foldl].
  change (mjoin (rec_skills r :: (rec_skills <$> rs)))
    with (rec_skills r ++ mjoin (rec_skills <$> rs)).
  rewrite foldl_app. apply IH.
Qed.

Lemma foldl_bump_departments (rs : list EmployeeRecord)
    (dm : list (string * nat)) :
  foldl (λ m r, bump String.eqb (rec_department r) m) dm rs
  = foldl (λ m s, bump String.eqb s m) dm (rec_department <$> rs).
Proof.
  revert dm. induction rs as [|r rs IH]; intros dm; [done|].
  cbn [fmap list_fmap foldl]. apply IH.
Qed.

Lemma count_all_records (ds : list dict) (rs : list EmployeeRecord) :
  Forall2 has_fields ds rs →
  ∀ dm sm,
    Api.count_all ds (as_keys dm) sm
    = Done (as_keys (foldl (λ m s, bump String.eqb s m) dm
                       (rec_department <$> rs)),
            foldl (λ m s, bump String.eqb s m) sm
              (mjoin (rec_skills <$> rs))).
Proof.
  intros Hshape dm sm.
  rewrite <- foldl_count_skills, <- foldl_bump_departments. revert dm sm.
  induction Hshape as [|d r ds rs Hd _ IH]; intros dm sm; [done|].
  destruct Hd as (_ & Hs & _ & _ & Hdep & _).
  cbn [Api.count_all]. unfold getitem. rewrite Hdep, Hs.
  cbn [of_result obind iter_strs]. rewrite bump_as_keys. apply IH.
Qed.

Lemma sum_experience_records `{F : FloatArithmetic} (ds : list dict)
    (rs : list EmployeeRecord) :
  Forall2 has_fields ds rs →
  ∀ a,
    Api.sum_experience ds (IntTotal a)
    = Done (IntTotal (a + foldr Z.add 0 (rec_experience_years <$> rs))).
Proof.
  induction 1 as [|d r ds rs Hd _ IH]; intros a.
  - cbn. by rewrite Z.add_0_r.
  - destruct Hd as (_ & _ & He & _).
    cbn [Api.sum_experience]. unfold getitem. rewrite He.
    cbn [of_result obind add_to_total]. rewrite IH.
    cbn [fmap list_fmap foldr]. by rewrite Z.add_assoc.
Qed.

Lemma count_all_fails (ds : list dict) :
  Exists (λ d, d !! "department" = None ∨ d !! "skills" = None) ds →
  ∀ dm sm, ∃ e, Api.count_all ds dm sm = Fail e.
Proof.
  induction 1 as [d ds Hd|d ds _ IH]; intros dm sm; cbn [Api.count_all];
    unfold getitem.
  - destruct (d !! "department") as [dept|] eqn:Hdep;
      cbn [of_result obind]; [|by eexists].
    destruct Hd as [Hd|Hd]; [done|]. rewrite Hd.
    destruct dept; cbn [of_result obind]; by eexists.
  - destruct (d !! "department") as [dept|];
      cbn [of_result obind]; [|by eexists].
    destruct (d !! "skills") as [skills|];
      [|destruct dept; cbn [of_result obind]; by eexists].
    destruct dept; cbn [of_result obind]; try by eexists.
    all: destruct (iter_strs skills); cbn [of_result obind];
      [apply IH | by eexists].
Qed.

Lemma sum_experience_fails `{F : FloatArithmetic} (ds : list dict) :
  Exists (λ d, d !! "experience_years" = None) ds →
  ∀ t, ∃ e, Api.sum_experience ds t = Fail e.
Proof.
  induction 1 as [d ds Hd|d ds _ IH]; intros t;
    cbn [Api.sum_experience]; unfold getitem.
  - rewrite Hd. by eexists.
  - destruct (d !! "experience_years") as [v|];
      cbn [of_result obind]; [|by eexists].
    destruct (add_to_total t v); cbn [obind]; [apply IH | by eexists].
Qed.

Section StatsEndpoint.

Context `{C : Collaborators} `{F : FloatArithmetic}.

(** X20: [/stats] on an empty corpus answers HTTP 500: the average
    divides by [len(employees)], which is zero, and the handler turns
    the exception into the HTTP error. *)
Theorem get_stats_empty_corpus (chatbot : HRChatbot) (h : heap) :
  employees_data chatbot = [] →
  Api.get_stats chatbot h = Raise (HTTPException 500).
Proof.
  intros Hempty. unfold Api.get_stats, Api.corpus. by rewrite Hempty.
Qed.

(** X21: [/stats] answers HTTP 500, and no statistics, as soon as one
    employee dictionary has no [department], no [skills] or no
    [experience_years]. *)
Theorem get_stats_missing_field (chatbot : HRChatbot) (h : heap) :
  Exists (λ d, d !! "department" = None ∨ d !! "skills" = None
               ∨ d !! "experience_years" = None)
    (Api.corpus chatbot h) →
  Api.get_stats chatbot h = Raise (HTTPException 500).
Proof.
  intros Hgap. unfold Api.get_stats.
  destruct (Api.count_all (Api.corpus chatbot h) [] [])
    as [[dm sm]|e] eqn:Hcount; cbn [obind http_500]; [|done].
  assert (Exists (λ d, d !! "experience_years" = None)
            (Api.corpus chatbot h)) as Hexp.
  { apply Exists_exists in Hgap as (d & Hin & Hd). apply Exists_exists.
    exists d. split; [done|]. destruct Hd as [Hd|[Hd|Hd]]; [| |done].
    - destruct (count_all_fails (Api.corpus chatbot h)) with (dm := [] : list (value * nat)) (sm := [] : list (string * nat))
        as [e He]; [|congruence].
      apply Exists_exists. exists d. split; [done|]. by left.
    - destruct (count_all_fails (Api.corpus chatbot h)) with (dm := [] : list (value * nat)) (sm := [] : list (string * nat))
        as [e He]; [|congruence].
      apply Exists_exists. exists d. split; [done|]. by right. }
  destruct (sum_experience_fails _ Hexp (IntTotal 0)) as [e ->]. done.
Qed.

(** [/stats] over a corpus of well-shaped records: the two loops do not
    fail and the sum is the exact sum of the ints, so that the one
    operation left to fail is the division. *)
Lemma get_stats_value (chatbot : HRChatbot) (h : heap)
    (rs : list EmployeeRecord) :
  Forall2 has_fields (Api.corpus chatbot h) rs →
  rs ≠ [] →
  Api.get_stats chatbot h
  = http_500
      (let* avg :=
         int_truediv (foldr Z.add 0 (rec_experience_years <$> rs))
           (Z.of_nat (length rs)) in
       Done {| total_employees := length rs;
               departments := as_keys (tally (rec_department <$> rs));
               top_skills :=
                 take 10 (sort_by_count (tally (mjoin (rec_skills <$> rs))));
               avg_experience := avg |}).
Proof.
  intros Hshape Hne.
  pose proof (Forall2_length _ _ _ Hshape) as Hlen.
  pose proof (count_all_records _ _ Hshape [] []) as Hcount.
  pose proof (sum_experience_records _ _ Hshape 0) as Hsum.
  change (as_keys []) with (@nil (value * nat)) in Hcount.
  unfold Api.get_stats. rewrite Hcount. cbn [obind]. rewrite Hsum.
  cbn [obind]. rewrite Hlen, Z.add_0_l.
  destruct (Api.corpus chatbot h) as [|d ds]; [|done].
  apply Forall2_nil_inv_l in Hshape. done.
Qed.

(** X22: [/stats] over a corpus of well-shaped records, when the
    division of the sum of the years of experience by the number of
    employees returns: the handler answers with the number of employees
    and a [departments] dict that has one key for each department of
    the corpus, and no other; the count of a department is the number
    of employees in it, and the counts add up to the number of
    employees. *)
Theorem get_stats_departments (chatbot : HRChatbot) (h : heap)
    (rs : list EmployeeRecord) (avg : double) :
  Forall2 has_fields (Api.corpus chatbot h) rs →
  rs ≠ [] →
  int_truediv (foldr Z.add 0 (rec_experience_years <$> rs))
    (Z.of_nat (length rs)) = Done avg →
  ∃ st,
    Api.get_stats chatbot h = Ok st
    ∧ total_employees st = length rs
    ∧ NoDup (departments st).*1
    ∧ (∀ k, k ∈ (departments st).*1 →
         ∃ r, r ∈ rs ∧ k = VStr (rec_department r))
    ∧ (∀ dep n, (VStr dep, n) ∈ departments st ↔
         n = occurrences dep (rec_department <$> rs) ∧ n ≠ 0%nat)
    ∧ sum_list (departments st).*2 = length rs.
Proof.
  intros Hshape Hne Hdiv.
  rewrite (get_stats_value chatbot h rs Hshape Hne), Hdiv.
  eexists. split; [reflexivity|].
  cbn [total_employees departments]. unfold as_keys.
  assert (∀ dep n,
            (VStr dep, n) ∈ (λ kn : string * nat, (VStr kn.1, kn.2))
                            <$> tally (rec_department <$> rs)
            ↔ n = occurrences dep (rec_department <$> rs) ∧ n ≠ 0%nat)
    as Hcounts.
  { intros dep n. rewrite <- foldl_bump_elem_of.
    rewrite list_elem_of_fmap. split.
    - intros ([k n'] & [= -> ->] & Hin). done.
    - intros Hin. by exists (dep, n). }
  split_and!.
  - done.
  - rewrite <- list_fmap_compose.
    change (fst ∘ (λ kn : string * nat, (VStr kn.1, kn.2)))
      with (VStr ∘ (fst : string * nat → string)).
    rewrite list_fmap_compose. apply NoDup_fmap_2.
    + by intros ?? [=].
    + apply foldl_bump_NoDup, NoDup_nil_2.
  - intros k Hk. apply list_elem_of_fmap in Hk as ([k' n] & -> & Hin).
    apply list_elem_of_fmap in Hin as ([dep n'] & [= -> ->] & Hin).
    cbn [fst]. apply foldl_bump_elem_of in Hin as [Hn Hpos].
    assert (dep ∈ rec_department <$> rs) as Hdep.
    { unfold occurrences in Hn. subst n'.
      destruct (filter (λ y, y = dep) (rec_department <$> rs))
        as [|y l] eqn:Hf; [done|].
      assert (y ∈ filter (λ y, y = dep) (rec_department <$> rs)) as Hy
        by (rewrite Hf; left).
      apply list_elem_of_filter in Hy as [-> Hy]. done. }
    apply list_elem_of_fmap in Hdep as (r & -> & Hr). by exists r.
  - exact Hcounts.
  - rewrite <- list_fmap_compose.
    change (snd ∘ (λ kn : string * nat, (VStr kn.1, kn.2)))
      with (snd : string * nat → nat).
    unfold tally. rewrite foldl_bump_sum. cbn. by rewrite length_fmap.
Qed.

(** X23: [top_skills] of [/stats] over a corpus of well-shaped records,
    when the division of the sum of the years of experience by the
    number of employees returns: it holds at most ten distinct skills,
    ranked by descending count; the count of a skill is the number of
    times it occurs in the skill lists of the corpus, and no skill that
    is left out occurs more often than one that is listed. *)
Theorem get_stats_top_skills (chatbot : HRChatbot) (h : heap)
    (rs : list EmployeeRecord) (avg : double) :
  Forall2 has_fields (Api.corpus chatbot h) rs →
  rs ≠ [] →
  int_truediv (foldr Z.add 0 (rec_experience_years <$> rs))
    (Z.of_nat (length rs)) = Done avg →
  ∃ st,
    Api.get_stats chatbot h = Ok st
    ∧ (length (top_skills st) ≤ 10)%nat
    ∧ NoDup (top_skills st).*1
    ∧ StronglySorted (λ a b, (b.2 ≤ a.2)%nat) (top_skills st)
    ∧ (∀ s n, (s, n) ∈ top_skills st →
         n = occurrences s (mjoin (rec_skills <$> rs)) ∧ n ≠ 0%nat)
    ∧ (∀ s n s', (s, n) ∈ top_skills st → s' ∉ (top_skills st).*1 →
         (occurrences s' (mjoin (rec_skills <$> rs)) ≤ n)%nat).
Proof.
  intros Hshape Hne Hdiv.
  rewrite (get_stats_value chatbot h rs Hshape Hne), Hdiv.
  eexists. split; [reflexivity|]. cbn [top_skills].
  set (sm := tally (mjoin (rec_skills <$> rs))).
  assert (sort_by_count sm = take 10 (sort_by_count sm)
                             ++ drop 10 (sort_by_count sm)) as Hsplit
    by (by rewrite take_drop).
  split_and!.
  - rewrite length_take. lia.
  - rewrite fmap_take. eapply sublist_NoDup; [|apply sublist_take].
    rewrite (sort_by_count_Permutation sm).
    apply foldl_bump_NoDup, NoDup_nil_2.
  - eapply StronglySorted_sublist; [apply sublist_take|].
    apply sort_by_count_sorted.
  - intros s n Hin. apply foldl_bump_elem_of.
    fold (tally (mjoin (rec_skills <$> rs))). fold sm.
    rewrite <- (sort_by_count_Permutation sm).
    exact (elem_of_sublist _ _ _ Hin (sublist_take _ _)).
  - intros s n s' Hin Hnot.
    destruct (occurrences s' (mjoin (rec_skills <$> rs))) as [|c] eqn:Hocc;
      [lia|].
    assert ((s', S c) ∈ sort_by_count sm) as Hs'.
    { rewrite (sort_by_count_Permutation sm). apply foldl_bump_elem_of.
      by rewrite Hocc. }
    rewrite Hsplit in Hs'. apply elem_of_app in Hs' as [Hs'|Hs'].
    { exfalso. apply Hnot. by apply (list_elem_of_fmap_2 fst) in Hs'. }
    pose proof (sort_by_count_sorted sm) as Hsorted. rewrite Hsplit in Hsorted.
    exact (sorted_app_elem_of _ _ _ _ _ Hsorted Hin Hs').
Qed.

(** X24: over a corpus of well-shaped records, [/stats] stands or falls
    with one division, that of the exact sum of the years of experience
    by the number of employees: when it returns, the handler answers
    and [avg_experience] is its result; when it raises, as it does for
    a sum too large for a double, the handler answers with HTTP 500. *)
Theorem get_stats_avg_experience (chatbot : HRChatbot) (h : heap)
    (rs : list EmployeeRecord) :
  Forall2 has_fields (Api.corpus chatbot h) rs →
  rs ≠ [] →
  match int_truediv (foldr Z.add 0 (rec_experience_years <$> rs))
          (Z.of_nat (length rs)) with
  | Done avg =>
      ∃ st, Api.get_stats chatbot h = Ok st ∧ avg_experience st = avg
  | Fail _ => Api.get_stats chatbot h = Raise (HTTPException 500)
  end.
Proof.
  intros Hshape Hne. rewrite (get_stats_value chatbot h rs Hshape Hne).
  destruct (int_truediv _ _) as [avg|e]; [|done].
  eexists. split; reflexivity.
Qed.

End StatsEndpoint.

Lemma get_stats_empty_corpus_witness :
  employees_data unbuilt_bot = []
  ∧ Api.get_stats (F := demo_arithmetic) unbuilt_bot ∅
    = Raise (HTTPException 500).
Proof.
  split; [reflexivity|].
  apply (get_stats_empty_corpus (F := demo_arithmetic) unbuilt_bot ∅).
  reflexivity.
Defined.

Lemma get_stats_missing_field_witness :
  Exists (λ d, d !! "department" = None ∨ d !! "skills" = None
               ∨ d !! "experience_years" = None)
    (Api.corpus gap_bot gap_heap)
  ∧ Api.get_stats (F := demo_arithmetic) gap_bot gap_heap
    = Raise (HTTPException 500).
Proof.
  assert (Exists (λ d, d !! "department" = None ∨ d !! "skills" = None
                       ∨ d !! "experience_years" = None)
            (Api.corpus gap_bot gap_heap)) as Hgap.
  { rewrite gap_corpus_eq. unfold gap_corpus.
    apply Exists_cons_tl, Exists_cons_hd. right. left.
    vm_compute. reflexivity. }
  split; [exact Hgap|].
  exact (get_stats_missing_field (F := demo_arithmetic) gap_bot gap_heap Hgap).
Defined.

Lemma demo_truediv :
  ∃ avg,
    int_truediv (FloatArithmetic := demo_arithmetic)
      (foldr Z.add 0 (rec_experience_years <$> [alice; bob; carol; dave]))
      (Z.of_nat (length [alice; bob; carol; dave])) = Done avg.
Proof. eexists. vm_compute. reflexivity. Qed.

Lemma get_stats_departments_witness :
  Forall2 has_fields (Api.corpus demo_bot demo_heap) [alice; bob; carol; dave]
  ∧ [alice; bob; carol; dave] ≠ []
  ∧ ∃ st,
      Api.get_stats (F := demo_arithmetic) demo_bot demo_heap = Ok st
      ∧ total_employees st = 4%nat
      ∧ NoDup (departments st).*1
      ∧ (∀ k, k ∈ (departments st).*1 →
           ∃ r, r ∈ [alice; bob; carol; dave] ∧ k = VStr (rec_department r))
      ∧ (∀ dep n, (VStr dep, n) ∈ departments st ↔
           n = occurrences dep (rec_department <$> [alice; bob; carol; dave])
           ∧ n ≠ 0%nat)
      ∧ sum_list (departments st).*2 = 4%nat.
Proof.
  split; [exact demo_corpus_fields|]. split; [discriminate|].
  destruct demo_truediv as [avg Hdiv].
  apply (get_stats_departments (F := demo_arithmetic) demo_bot demo_heap
           [alice; bob; carol; dave] avg demo_corpus_fields);
    [discriminate | exact Hdiv].
Defined.

Lemma get_stats_top_skills_witness :
  Forall2 has_fields (Api.corpus demo_bot demo_heap) [alice; bob; carol; dave]
  ∧ [alice; bob; carol; dave] ≠ []
  ∧ ∃ st,
      Api.get_stats (F := demo_arithmetic) demo_bot demo_heap = Ok st
      ∧ (length (top_skills st) ≤ 10)%nat
      ∧ NoDup (top_skills st).*1
      ∧ StronglySorted (λ a b, (b.2 ≤ a.2)%nat) (top_skills st)
      ∧ (∀ s n, (s, n) ∈ top_skills st →
           n = occurrences s (mjoin (rec_skills <$> [alice; bob; carol; dave]))
           ∧ n ≠ 0%nat)
      ∧ (∀ s n s', (s, n) ∈ top_skills st → s' ∉ (top_skills st).*1 →
           (occurrences s' (mjoin (rec_skills <$> [alice; bob; carol; dave]))
            ≤ n)%nat).
Proof.
  split; [exact demo_corpus_fields|]. split; [discriminate|].
  destruct demo_truediv as [avg Hdiv].
  apply (get_stats_top_skills (F := demo_arithmetic) demo_bot demo_heap
           [alice; bob; carol; dave] avg demo_corpus_fields);
    [discriminate | exact Hdiv].
Defined.

Lemma vera_corpus_fields :
  Forall2 has_fields (Api.corpus vera_bot vera_heap) [vera].
Proof.
  assert (Api.corpus vera_bot vera_heap = vera_corpus) as ->.
  { unfold Api.corpus. cbn [employees_data vera_bot].
    apply (alloc_all_deref vera_corpus ∅). unfold vera_data, vera_heap.
    by destruct (alloc_all vera_corpus ∅). }
  unfold vera_corpus. constructor; [apply has_fields_to_dict | constructor].
Qed.

Lemma get_stats_avg_experience_witness :
  Forall2 has_fields (Api.corpus demo_bot demo_heap) [alice; bob; carol; dave]
  ∧ [alice; bob; carol; dave] ≠ []
  ∧ (∃ st, Api.get_stats (F := demo_arithmetic) demo_bot demo_heap = Ok st
           ∧ avg_experience st = (inject_Z 17 / inject_Z 4)%Q)
  ∧ Forall2 has_fields (Api.corpus vera_bot vera_heap) [vera]
  ∧ Api.get_stats (F := demo_arithmetic) vera_bot vera_heap
    = Raise (HTTPException 500).
Proof.
  split; [exact demo_corpus_fields|]. split; [discriminate|].
  pose proof (get_stats_avg_experience (F := demo_arithmetic) demo_bot
                demo_heap [alice; bob; carol; dave] demo_corpus_fields)
    as Hdemo.
  pose proof (get_stats_avg_experience (F := demo_arithmetic) vera_bot
                vera_heap [vera] vera_corpus_fields) as Hvera.
  assert (int_truediv (FloatArithmetic := demo_arithmetic)
            (foldr Z.add 0
               (rec_experience_years <$> [alice; bob; carol; dave]))
            (Z.of_nat (length [alice; bob; carol; dave]))
          = Done (inject_Z 17 / inject_Z 4)%Q) as Hdiv
    by (vm_compute; reflexivity).
  assert (int_truediv (FloatArithmetic := demo_arithmetic)
            (foldr Z.add 0 (rec_experience_years <$> [vera]))
            (Z.of_nat (length [vera]))
          = Fail OverflowError) as Hover
    by (vm_compute; reflexivity).
  rewrite Hdiv in Hdemo. rewrite Hover in Hvera.
  split; [apply Hdemo; discriminate|].
  split; [exact vera_corpus_fields|]. apply Hvera. discriminate.
Defined.

(** ** The test script *)

Lemma run_tests_spec {E} (tests : list (string * (E + bool))) (p : nat) :
  match TestApp.run_tests tests p with
  | inr n =>
      Forall (λ t, ∃ b, t.2 = inr b) tests
      ∧ (p ≤ n ≤ p + length tests)%nat
      ∧ (n = (p + length tests)%nat ↔ Forall (λ t, t.2 = inr true) tests)
  | inl e =>
      ∃ before t after,
        tests = before ++ t :: after
        ∧ Forall (λ t, ∃ b, t.2 = inr b) before ∧ t.2 = inl e
  end.
Proof.
  revert p. induction tests as [|[name [e|b]] tests IH]; intros p.
  - cbn. split_and!; [constructor | lia | lia|]. split; [constructor | lia].
  - cbn. exists [], (name, inl e), tests. by split_and!.
  - cbn [TestApp.run_tests]. specialize (IH (if b then S p else p)).
    destruct (TestApp.run_tests tests (if b then S p else p)) as [e|n].
    + destruct IH as (before & t & after & -> & Hbefore & Ht).
      exists ((name, inr b) :: before), t, after. split_and!; [done| |done].
      constructor; [by exists b | done].
    + destruct IH as (Hall & Hbound & Hiff). cbn [length]. split_and!.
      * constructor; [by exists b | done].
      * destruct b; lia.
      * destruct b; lia.
      * rewrite Forall_cons. cbn [snd]. destruct b.
        -- rewrite <- Hiff. split; [intros ->; split; [done | lia]|].
           intros [_ ->]. lia.
        -- split; [lia | by intros [[=] _]].
Qed.

Lemma run_tests_raises {E} (before after : list (string * (E + bool)))
    (t : string * (E + bool)) (e : E) (p : nat) :
  Forall (λ t, ∃ b, t.2 = inr b) before → t.2 = inl e →
  TestApp.run_tests (before ++ t :: after) p = inl e.
Proof.
  intros Hbefore Ht. revert p.
  induction Hbefore as [|[name r] before [b Hb] _ IH]; intros p.
  - destruct t as [name r]. cbn in *. by rewrite Ht.
  - cbn in *. rewrite Hb. apply IH.
Qed.

Lemma tests_all_or_some {E} (tests : list (string * (E + bool))) :
  Forall (λ t, ∃ b, t.2 = inr b) tests →
  Forall (λ t, t.2 = inr true) tests ∨ Exists (λ t, t.2 = inr false) tests.
Proof.
  induction 1 as [|t tests [[|] Hb] _ [IH|IH]].
  - left. constructor.
  - left. by constructor.
  - right. by apply Exists_cons_tl.
  - right. by apply Exists_cons_hd.
  - right. by apply Exists_cons_hd.
Qed.

(** X25: the exit code of [test_app.py].  [main] returns 0 exactly when
    every test function returns [True], and otherwise returns 1 if every
    test function returns; an exception that a test function lets
    through ends [main] with that exception, and the tests after it are
    not run. *)
Theorem test_main_exit_code {E} (tests : list (string * (E + bool))) :
  (TestApp.main tests = inr 0 ↔ Forall (λ t, t.2 = inr true) tests)
  ∧ (TestApp.main tests = inr 1 ↔
       Forall (λ t, ∃ b, t.2 = inr b) tests
       ∧ Exists (λ t, t.2 = inr false) tests)
  ∧ (∀ z, TestApp.main tests = inr z → z = 0 ∨ z = 1)
  ∧ (∀ e, TestApp.main tests = inl e ↔
       ∃ before t after,
         tests = before ++ t :: after
         ∧ Forall (λ t, ∃ b, t.2 = inr b) before ∧ t.2 = inl e).
Proof.
  assert (∀ e, (∃ before t after,
                  tests = before ++ t :: after
                  ∧ Forall (λ t, ∃ b, t.2 = inr b) before ∧ t.2 = inl e) →
               TestApp.run_tests tests 0 = inl e) as Hraise.
  { intros e (before & t & after & -> & Hbefore & Ht).
    by apply run_tests_raises. }
  assert (Forall (λ t : string * (E + bool), t.2 = inr true) tests →
          Forall (λ t : string * (E + bool), ∃ b, t.2 = inr b) tests) as Hret.
  { intros Htrue. eapply Forall_impl; [exact Htrue|].
    intros t Ht. by exists true. }
  assert (Forall (λ t : string * (E + bool), ∃ b, t.2 = inr b) tests →
          ∃ n, TestApp.run_tests tests 0 = inr n) as Hruns.
  { intros Hall. pose proof (run_tests_spec tests 0%nat) as Hspec.
    destruct (TestApp.run_tests tests 0) as [e|n]; [|by exists n].
    destruct Hspec as (before & t & after & -> & _ & Ht).
    apply Forall_app in Hall as [_ Hall]. apply Forall_cons in Hall as [[b Hb] _].
    congruence. }
  pose proof (run_tests_spec tests 0%nat) as Hspec. unfold TestApp.main.
  destruct (TestApp.run_tests tests 0) as [e|n] eqn:Hrun.
  - split_and!.
    + split; [done|]. intros Hall. destruct (Hruns (Hret Hall)) as [n [=]].
    + split; [done|]. intros [Hall _]. destruct (Hruns Hall) as [n [=]].
    + done.
    + intros e'. split; [by intros [= <-]|]. intros He'.
      specialize (Hraise e' He'). congruence.
  - destruct Hspec as (Hall & Hbound & Hiff). cbn [Nat.add] in Hiff.
    destruct (n =? length tests)%nat eqn:Hn.
    + apply Nat.eqb_eq in Hn. split_and!.
      * split; [intros _; by apply Hiff | done].
      * split; [done|]. intros [_ Hfalse]. exfalso.
        apply Hiff in Hn. apply Exists_exists in Hfalse as (t & Hin & Ht).
        rewrite Forall_forall in Hn. specialize (Hn t Hin). congruence.
      * intros z [= <-]. by left.
      * intros e. split; [done|]. intros He. specialize (Hraise e He). congruence.
    + apply Nat.eqb_neq in Hn. split_and!.
      * split; [done|]. intros Htrue. by apply Hiff in Htrue.
      * split; [|done]. intros _. split; [done|].
        destruct (tests_all_or_some tests Hall) as [Htrue|Hfalse]; [|done].
        by apply Hiff in Htrue.
      * intros z [= <-]. by right.
      * intros e. split; [done|]. intros He. specialize (Hraise e He). congruence.
Qed.

Lemma test_main_exit_code_witness :
  Forall (λ t : string * (exn + bool), ∃ b, t.2 = inr b)
    [("API Connection", inr true); ("Chat Endpoint", inr false)]
  ∧ Exists (λ t : string * (exn + bool), t.2 = inr false)
      [("API Connection", inr true); ("Chat Endpoint", inr false)]
  ∧ TestApp.main (E := exn)
      [("API Connection", inr true); ("Chat Endpoint", inr false)] = inr 1.
Proof.
  assert (Forall (λ t : string * (exn + bool), ∃ b, t.2 = inr b)
            [("API Connection", inr true); ("Chat Endpoint", inr false)])
    as Hall by (repeat constructor; by eexists).
  assert (Exists (λ t : string * (exn + bool), t.2 = inr false)
            [("API Connection", inr true); ("Chat Endpoint", inr false)])
    as Hfalse by (apply Exists_cons_tl, Exists_cons_hd; reflexivity).
  split; [exact Hall|]. split; [exact Hfalse|].
  destruct (test_main_exit_code (E := exn)
              [("API Connection", inr true); ("Chat Endpoint", inr false)])
    as (_ & [_ Hone] & _).
  exact (Hone (conj Hall Hfalse)).
Defined.
